(** * ft-otel: span processors, renderer dispatch and the telemetry stream

    A shallow embedding of [fasthtml_otel/processors.py],
    [fasthtml_otel/renderers.py], [fasthtml_otel/streamer.py] and
    [fasthtml_otel/instrumentation.py], with the properties of the
    span-to-renderer dispatch and of the incremental tree-streaming protocol.

    Conventions of the embedding.
    - Python [int] is [Z]; [str] is [string], the UTF-8 bytes of the text;
      [dict] is stdpp's [gmap]; [None]-able values are [option].
    - [str.lower] is a parameter, [str_lower]: it is the Unicode case
      mapping, known here only on ASCII text, where it folds A-Z.
    - A call that may raise returns a [Result].  An exception object records
      whether it is an instance of [Exception], the class that the
      [except Exception] clauses of the code catch; [KeyboardInterrupt],
      [SystemExit] and [asyncio.CancelledError] are not.
    - Methods of the processors thread a [World]: the processor object, the
      log, whether an asyncio event loop is running in the calling thread,
      the suppress-instrumentation flag of the current tracing context, and
      what a [print] to standard output does.  Calls of the [logging]
      module return.
    - An [asyncio.Queue] is its [maxsize], its items and the [put] tasks
      created for it that have not completed.
    - The consumer loop is given twice: by its iterations, each with the
      patches that arrive in it, and in time, in milliseconds, with the
      bounded wait and the pause after a heartbeat.
    - The OpenTelemetry and fasthtml objects the code reads are modelled by
      the fields the code uses. *)

From Stdlib Require Import ZArith List Bool Lia Ascii String.
From stdpp Require Import gmap strings list pretty.

Open Scope string_scope.
Open Scope list_scope.
Set Warnings "-register-all".

(** ** Python values *)

(** An exception object: its class name, [str(e)], and
    [isinstance(e, Exception)]. *)
Record PyExc := mkRaised {
  exc_class : string;
  exc_str : string;
  exc_is_exception : bool
}.

(** An instance of [Exception], and an instance of a class that derives
    from [BaseException] outside [Exception]. *)
Definition mkExc (cls msg : string) : PyExc := mkRaised cls msg true.
Definition mkBaseExc (cls msg : string) : PyExc := mkRaised cls msg false.

Inductive Result (A : Type) : Type :=
| Ok (a : A)
| Raise (e : PyExc).
Arguments Ok {A} a.
Arguments Raise {A} e.

Definition returns_normally {A} (r : Result A) : bool :=
  match r with Ok _ => true | Raise _ => false end.

(** The call returns, or raises an instance of [Exception]. *)
Definition no_base_exception {A} (r : Result A) : bool :=
  match r with Ok _ => true | Raise e => exc_is_exception e end.

(** Truth value of an [Optional[int]]: [None] and [0] are falsy. *)
Definition truthy_int (x : option Z) : bool :=
  match x with
  | None => false
  | Some n => negb (n =? 0)%Z
  end.

(** [x is None] *)
Definition is_None {A} (x : option A) : bool :=
  match x with None => true | Some _ => false end.

(** ** fasthtml fragments *)

Inductive AttrVal :=
| AStr (s : string)
| ABool (b : bool).

(** [Div(child, ..., key=value, ...)]: tag, positional children, keyword
    attributes in the order the call writes them, under the names the call
    writes them ([cls], [for_], [hx_swap_oob]).  [Text] is a bare string
    child. *)
Inductive FT :=
| Elem (tag : string) (children : list FT) (attrs : list (string * AttrVal))
| Text (s : string).

Definition Div := Elem "div".
Definition Span_ := Elem "span".
Definition Ul := Elem "ul".
Definition Li := Elem "li".
Definition Input := Elem "input".
Definition Label := Elem "label".

(** ** OpenTelemetry objects *)

(** [SpanContext]: a tuple subclass, hence always truthy. *)
Record SpanContext := mkSpanContext { trace_id : Z; span_id : Z }.

Definition INVALID_TRACE_ID : Z := 0.
Definition INVALID_SPAN_ID : Z := 0.
Definition TRACE_ID_MAX_VALUE : Z := 2 ^ 128 - 1.
Definition SPAN_ID_MAX_VALUE : Z := 2 ^ 64 - 1.

(** [SpanContext.is_valid] of the OpenTelemetry API. *)
Definition is_valid (sc : SpanContext) : bool :=
  ((INVALID_TRACE_ID <? trace_id sc) && (trace_id sc <=? TRACE_ID_MAX_VALUE)
   && (INVALID_SPAN_ID <? span_id sc) && (span_id sc <=? SPAN_ID_MAX_VALUE))%Z.

Inductive StatusCode := UNSET | OK | ERROR.

Definition status_code_name (c : StatusCode) : string :=
  match c with UNSET => "UNSET" | OK => "OK" | ERROR => "ERROR" end.

Record Event := mkEvent { event_name : string; event_timestamp : Z }.

(** [ReadableSpan].  [attributes] holds the [str(k)], [str(v)] images of the
    attribute items in iteration order. *)
Record Span := mkSpan {
  name : string;
  context : SpanContext;
  parent : option SpanContext;
  start_time : option Z;
  end_time : option Z;
  status_code : StatusCode;
  attributes : list (string * string);
  events : list Event
}.

(** A span object stored in a tracing context. *)
Record CurrentSpan := mkCurrentSpan {
  is_recording : bool;
  get_span_context : SpanContext
}.

Definition INVALID_SPAN_CONTEXT : SpanContext :=
  {| trace_id := INVALID_TRACE_ID; span_id := INVALID_SPAN_ID |}.

Definition INVALID_SPAN : CurrentSpan :=
  {| is_recording := false; get_span_context := INVALID_SPAN_CONTEXT |}.

(** [opentelemetry.context.Context], a [dict]: the value under the current
    span key, and how many other keys it holds. *)
Record Context := mkContext {
  ctx_current_span : option CurrentSpan;
  ctx_other_keys : nat
}.

(** Truth value of an [Optional[Context]]: [None] and the empty dict are
    falsy. *)
Definition truthy_context (pc : option Context) : bool :=
  match pc with
  | None => false
  | Some c => negb (is_None (ctx_current_span c)) || negb (Nat.eqb (ctx_other_keys c) 0)
  end.

(** [trace.get_current_span(context)]: the span stored in the context, or
    [INVALID_SPAN] when there is none. *)
Definition get_current_span (c : Context) : CurrentSpan :=
  match ctx_current_span c with
  | Some s => s
  | None => INVALID_SPAN
  end.

(** ** Renderer strategies ([renderers.SpanRenderer])

    The interface of a strategy: the capability check and the four render
    calls, each of which may raise.  [cls_name] is [type(renderer).__name__]. *)
Record SpanRenderer := mkRenderer {
  cls_name : string;
  can_render : Span -> Result bool;
  render_header : Span -> Result FT;
  render_attributes : Span -> Result FT;
  render_events : Span -> Result FT;
  render_complete_span : Span -> string -> bool -> Result FT
}.

(** ** The world the callbacks run in *)

Inductive LogLevel := LInfo | LWarning | LError | LException.

Record LogRecord := mkLog { log_level : LogLevel; log_message : string }.

Record World (P : Type) := mkWorld {
  proc : P;                 (* the processor object, [self] *)
  log : list LogRecord;     (* records emitted so far, oldest first *)
  loop_running : bool;      (* an asyncio loop runs in the calling thread *)
  suppressed : bool;        (* _SUPPRESS_INSTRUMENTATION_KEY of the current context *)
  stdout : string -> Result unit
    (* what [print(text)] does: it returns, or the write to [sys.stdout]
       raises (a closed file, a broken pipe, a character that the encoding
       of the stream lacks) *)
}.
Arguments mkWorld {P}.
Arguments proc {P}.
Arguments log {P}.
Arguments loop_running {P}.
Arguments suppressed {P}.
Arguments stdout {P}.

(** A computation over the world that returns or raises; the world reached
    is kept in both cases, as effects done before a [raise] persist. *)
Definition M (P A : Type) : Type := World P -> Result A * World P.

Section Monad.
Context {P : Type}.

Definition ret {A} (a : A) : M P A := fun w => (Ok a, w).

Definition bind {A B} (m : M P A) (k : A -> M P B) : M P B :=
  fun w =>
    match m w with
    | (Ok a, w') => k a w'
    | (Raise e, w') => (Raise e, w')
    end.

Definition raise {A} (e : PyExc) : M P A := fun w => (Raise e, w).

(** A call into code that may raise and has no effect on the world. *)
Definition call {A} (r : Result A) : M P A := fun w => (r, w).

(** [try: body  except Exception as e: handler(e)]: an exception that is
    not an instance of [Exception] passes through. *)
Definition try_except {A} (body : M P A) (handler : PyExc -> M P A) : M P A :=
  fun w =>
    match body w with
    | (Ok a, w') => (Ok a, w')
    | (Raise e, w') => if exc_is_exception e then handler e w' else (Raise e, w')
    end.

(** [try: body  finally: cleanup]: the cleanup always runs; what the body
    raised is raised again after it. *)
Definition try_finally {A} (body : M P A) (cleanup : M P unit) : M P A :=
  fun w =>
    match body w with
    | (r, w') =>
        match cleanup w' with
        | (Ok _, w'') => (r, w'')
        | (Raise e, w'') => (Raise e, w'')
        end
    end.

Definition get_proc : M P P := fun w => (Ok (proc w), w).

Definition modify_proc (f : P -> P) : M P unit :=
  fun w => (Ok tt, mkWorld (f (proc w)) (log w) (loop_running w) (suppressed w) (stdout w)).

Definition emit_log (lvl : LogLevel) (msg : string) : M P unit :=
  fun w => (Ok tt, mkWorld (proc w) (log w ++ [mkLog lvl msg]) (loop_running w)
                     (suppressed w) (stdout w)).

(** [print(text)] *)
Definition print (text : string) : M P unit := fun w => (stdout w text, w).

(** No statement: what a class does where another one prints. *)
Definition no_print (text : string) : M P unit := ret tt.

(** [try: body  except cls as e: handler(e)] for one exception class. *)
Definition try_except_class {A} (cls : string) (body : M P A)
    (handler : PyExc -> M P A) : M P A :=
  fun w =>
    match body w with
    | (Ok a, w') => (Ok a, w')
    | (Raise e, w') =>
        if String.eqb (exc_class e) cls then handler e w' else (Raise e, w')
    end.

(** [asyncio.get_running_loop()]: the loop object, which is truthy, or
    [RuntimeError] without a loop. *)
Definition get_running_loop : M P bool :=
  fun w =>
    if loop_running w then (Ok true, w)
    else (Raise (mkExc "RuntimeError" "no running event loop"), w).

(** [attach(set_value(_SUPPRESS_INSTRUMENTATION_KEY, True))]: the token
    remembers the context that was current. *)
Definition attach_suppress : M P bool :=
  fun w => (Ok (suppressed w), mkWorld (proc w) (log w) (loop_running w) true (stdout w)).

(** [detach(token)] *)
Definition detach (token : bool) : M P unit :=
  fun w => (Ok tt, mkWorld (proc w) (log w) (loop_running w) token (stdout w)).
End Monad.

Notation "'do' x <- m ; k" := (bind m (fun x => k))
  (at level 10, x name, m at level 100, k at level 200).
Notation "'run' m ; k" := (bind m (fun _ => k))
  (at level 10, m at level 100, k at level 200).

(** ** Identifiers of the display containers *)

(** [f"{x}"] for an [Optional[int]]. *)
Definition format_int (x : option Z) : string :=
  match x with
  | Some n => pretty n
  | None => "None"
  end.

Definition span_children_id (x : option Z) : string := "span-children-" +:+ format_int x.
Definition span_header_id (n : Z) : string := "span-header-" +:+ pretty n.
Definition span_attributes_id (n : Z) : string := "span-attributes-" +:+ pretty n.
Definition span_events_id (n : Z) : string := "span-events-" +:+ pretty n.

(** [Div(content, hx_swap_oob=mode, id=target)]: an out-of-band patch. *)
Definition oob_wrapper (content : FT) (mode target : string) : FT :=
  Div [content] [("hx_swap_oob", AStr mode); ("id", AStr target)].

(** ** Parent resolution (processors.py, lines 53-67 and 202-218)

    The two classes carry the same text, except that
    [ThreadSafeSpanProcessor] prints a line after each of the two
    assignments: [debug] is that [print], and [no_print] in
    [FastHTMLSpanProcessor].  [record_parent] is the assignment
    [self.parent_child_map[span_id] = parent_id] of the class at hand.  A
    span object and a [SpanContext] (a tuple) are truthy, so
    [parent_span and parent_span.is_recording()] is [is_recording],
    [parent_span_context and parent_span_context.is_valid] is [is_valid],
    and [span.parent] is true exactly when it is not [None]. *)
Definition resolve_parent {P} (record_parent : Z -> Z -> P -> P)
    (debug : string -> M P unit)
    (span : Span) (parent_context : option Context) : M P (option Z) :=
  let span_id_ := span_id (context span) in
  do parent_id <-
    (match parent_context with
     | Some c =>
         if truthy_context parent_context then
           let parent_span := get_current_span c in
           if is_recording parent_span then
             let parent_span_context := get_span_context parent_span in
             if is_valid parent_span_context then
               let parent_id := span_id parent_span_context in
               run modify_proc (record_parent span_id_ parent_id);
               run debug ("DEBUG: Found parent " +:+ pretty parent_id
                          +:+ " for span " +:+ pretty span_id_);
               ret (Some parent_id)
             else ret None
           else ret None
         else ret None
     | None => ret None
     end);
  match parent span with
  | Some static_parent =>
      if negb (truthy_int parent_id) then
        let parent_id := span_id static_parent in
        run modify_proc (record_parent span_id_ parent_id);
        run debug ("DEBUG: Using span.parent " +:+ pretty parent_id
                   +:+ " for span " +:+ pretty span_id_);
        ret (Some parent_id)
      else ret parent_id
  | None => ret parent_id
  end.

(** [target_id = f"span-children-{parent_id}" if parent_id else self.container_id] *)
Definition target_container (parent_id : option Z) (container_id : string) : string :=
  if truthy_int parent_id then span_children_id parent_id else container_id.

(** ** [asyncio.Queue]

    [aq_puts] holds the items of the [put] coroutines that tasks of the
    event loop hold and have not completed, in the order in which the tasks
    were created: a task that has not run yet, or one that waits because
    the queue was full when it ran. *)
Record AsyncQueue := mkAsync {
  aq_maxsize : Z;
  aq_items : list string;
  aq_puts : list string
}.

(** [asyncio.Queue(maxsize)]; [asyncio.Queue()] is [asyncio_Queue 0]. *)
Definition asyncio_Queue (maxsize : Z) : AsyncQueue := mkAsync maxsize [] [].

(** [Queue.full()]: never, when [maxsize <= 0]. *)
Definition queue_full (maxsize : Z) (items : list string) : bool :=
  ((0 <? maxsize) && (maxsize <=? Z.of_nat (length items)))%Z.

(** [create_task(queue.put(item))]: the task is created and runs when the
    loop next gets control. *)
Definition create_put_task_on (item : string) (q : AsyncQueue) : AsyncQueue :=
  mkAsync (aq_maxsize q) (aq_items q) (aq_puts q ++ [item]).

(** The event loop runs the [put] tasks, in the order of their creation and
    with no [get] in between: a [put] appends its item, unless the queue is
    full, and then it and the tasks after it wait. *)
Fixpoint run_puts (maxsize : Z) (items puts : list string) : list string * list string :=
  match puts with
  | [] => (items, [])
  | item :: later =>
      if queue_full maxsize items then (items, puts)
      else run_puts maxsize (items ++ [item]) later
  end.

Definition loop_runs_puts (q : AsyncQueue) : AsyncQueue :=
  mkAsync (aq_maxsize q)
          (fst (run_puts (aq_maxsize q) (aq_items q) (aq_puts q)))
          (snd (run_puts (aq_maxsize q) (aq_items q) (aq_puts q))).

(** ** [FastHTMLSpanProcessor] (processors.py, lines 21-146) *)

Record FastHTMLSpanProcessor := mkFH {
  fh_queue : AsyncQueue;
  fh_renderer : SpanRenderer;
  fh_container_id : string;
  fh_spans : gmap Z Span;
  fh_parent_child_map : gmap Z Z;
  fh_pending_updates : gset Z;
  fh_renderer_filters : list ((Span -> bool) * SpanRenderer)
}.

Definition fh_set_span (k : Z) (v : Span) (p : FastHTMLSpanProcessor) :=
  mkFH (fh_queue p) (fh_renderer p) (fh_container_id p) (<[k := v]> (fh_spans p))
       (fh_parent_child_map p) (fh_pending_updates p) (fh_renderer_filters p).

Definition fh_record_parent (k v : Z) (p : FastHTMLSpanProcessor) :=
  mkFH (fh_queue p) (fh_renderer p) (fh_container_id p) (fh_spans p)
       (<[k := v]> (fh_parent_child_map p)) (fh_pending_updates p) (fh_renderer_filters p).

(** [asyncio.create_task(self.queue.put(html))] *)
Definition fh_put (html : string) (p : FastHTMLSpanProcessor) :=
  mkFH (create_put_task_on html (fh_queue p)) (fh_renderer p) (fh_container_id p)
       (fh_spans p) (fh_parent_child_map p) (fh_pending_updates p) (fh_renderer_filters p).

(** ** [ThreadSafeSpanProcessor] (processors.py, lines 149-292) *)

(** The object passed as [queue]: an [asyncio.Queue], a [queue.Queue] with
    its [maxsize] and items, or an object of another type. *)
Inductive QueueObj :=
| AsyncioQueue (q : AsyncQueue)
| SyncQueue (maxsize : Z) (items : list string)
| OtherQueue (type_repr : string).

Definition queue_items (q : QueueObj) : list string :=
  match q with
  | AsyncioQueue q => aq_items q
  | SyncQueue _ items => items
  | OtherQueue _ => []
  end.

(** The items of the [put] tasks that have not completed. *)
Definition queue_puts (q : QueueObj) : list string :=
  match q with
  | AsyncioQueue q => aq_puts q
  | _ => []
  end.

(** [isinstance(queue, asyncio.Queue)] and [isinstance(queue, queue.Queue)];
    the constructor stores them in [self.is_async_queue] and
    [self.is_sync_queue], and the class of the queue object never changes. *)
Definition is_async_queue (q : QueueObj) : bool :=
  match q with AsyncioQueue _ => true | _ => false end.

Definition is_sync_queue (q : QueueObj) : bool :=
  match q with SyncQueue _ _ => true | _ => false end.

Definition type_repr_of (q : QueueObj) : string :=
  match q with
  | AsyncioQueue _ => "<class 'asyncio.queues.Queue'>"
  | SyncQueue _ _ => "<class 'queue.Queue'>"
  | OtherQueue r => r
  end.

Record ThreadSafeSpanProcessor := mkTS {
  ts_queue : QueueObj;
  ts_renderer : SpanRenderer;
  ts_container_id : string;
  ts_spans : gmap Z Span;
  ts_parent_child_map : gmap Z Z;
  ts_renderers : list SpanRenderer
}.

Definition ts_set_span (k : Z) (v : Span) (p : ThreadSafeSpanProcessor) :=
  mkTS (ts_queue p) (ts_renderer p) (ts_container_id p) (<[k := v]> (ts_spans p))
       (ts_parent_child_map p) (ts_renderers p).

Definition ts_record_parent (k v : Z) (p : ThreadSafeSpanProcessor) :=
  mkTS (ts_queue p) (ts_renderer p) (ts_container_id p) (ts_spans p)
       (<[k := v]> (ts_parent_child_map p)) (ts_renderers p).

Definition ts_set_queue (q : QueueObj) (p : ThreadSafeSpanProcessor) :=
  mkTS q (ts_renderer p) (ts_container_id p) (ts_spans p)
       (ts_parent_child_map p) (ts_renderers p).

(** [self.queue.put_nowait(data)]: [queue.Full] ([asyncio.QueueFull] for an
    asyncio queue) when the queue is full. *)
Definition put_nowait (data : string) : M ThreadSafeSpanProcessor unit :=
  do self <- get_proc;
  match ts_queue self with
  | SyncQueue maxsize items =>
      if queue_full maxsize items
      then raise (mkExc "Full" EmptyString)
      else modify_proc (ts_set_queue (SyncQueue maxsize (items ++ [data])))
  | AsyncioQueue q =>
      if queue_full (aq_maxsize q) (aq_items q)
      then raise (mkExc "QueueFull" EmptyString)
      else modify_proc (ts_set_queue
                          (AsyncioQueue (mkAsync (aq_maxsize q) (aq_items q ++ [data])
                                           (aq_puts q))))
  | OtherQueue r => raise (mkExc "AttributeError" "put_nowait")
  end.

(** [loop.create_task(self.queue.put(data))] *)
Definition create_put_task (data : string) : M ThreadSafeSpanProcessor unit :=
  do self <- get_proc;
  match ts_queue self with
  | AsyncioQueue q => modify_proc (ts_set_queue (AsyncioQueue (create_put_task_on data q)))
  | SyncQueue _ _ => raise (mkExc "TypeError" "a coroutine was expected")
  | OtherQueue r => raise (mkExc "AttributeError" "put")
  end.

Section Processors.

(** [fasthtml.common.to_xml]: the serialisation of a fragment to text. *)
Variable to_xml : FT -> string.

(** [FastHTMLSpanProcessor._queue_update] *)
Definition fh_queue_update (html : string) : M FastHTMLSpanProcessor unit :=
  try_except
    (do loop <- get_running_loop;
     if loop then modify_proc (fh_put html)
     else emit_log LWarning "No event loop running, update may be lost")
    (fun e => emit_log LException ("Error queuing update: " +:+ exc_str e)).

(** [FastHTMLSpanProcessor.on_start] *)
Definition fh_on_start (span : Span) (parent_context : option Context)
    : M FastHTMLSpanProcessor unit :=
  try_except
    (let span_id_ := span_id (context span) in
     run modify_proc (fh_set_span span_id_ span);
     do parent_id <- resolve_parent fh_record_parent no_print span parent_context;
     do self <- get_proc;
     let target_id := target_container parent_id (fh_container_id self) in
     let children_container_id := span_children_id (Some span_id_) in
     let is_root := is_None parent_id in
     do span_html <- call (render_complete_span (fh_renderer self) span
                             children_container_id is_root);
     let wrapper := oob_wrapper span_html "beforeend" target_id in
     fh_queue_update (to_xml wrapper))
    (fun e => emit_log LException
                ("Error in on_start for span " +:+ name span +:+ ": " +:+ exc_str e)).

(** [FastHTMLSpanProcessor.on_end] *)
Definition fh_on_end (span : Span) : M FastHTMLSpanProcessor unit :=
  try_except
    (let span_id_ := span_id (context span) in
     run modify_proc (fh_set_span span_id_ span);
     do self <- get_proc;
     do updated_header <- call (render_header (fh_renderer self) span);
     let header_wrapper := oob_wrapper updated_header "innerHTML" (span_header_id span_id_) in
     do updated_attributes <- call (render_attributes (fh_renderer self) span);
     let attr_wrapper := oob_wrapper updated_attributes "innerHTML" (span_attributes_id span_id_) in
     do updated_events <- call (render_events (fh_renderer self) span);
     let events_wrapper := oob_wrapper updated_events "innerHTML" (span_events_id span_id_) in
     run fh_queue_update (to_xml header_wrapper);
     run fh_queue_update (to_xml attr_wrapper);
     fh_queue_update (to_xml events_wrapper))
    (fun e => emit_log LException
                ("Error in on_end for span " +:+ name span +:+ ": " +:+ exc_str e)).

(** [ThreadSafeSpanProcessor._get_renderer_for_span]: the [for] loop over
    [self.renderers]; [Some r] is [return renderer], [None] is falling out
    of the loop. *)
Fixpoint first_accepting (renderers : list SpanRenderer) (span : Span)
    : M ThreadSafeSpanProcessor (option SpanRenderer) :=
  match renderers with
  | [] => ret None
  | renderer :: rest =>
      do found <-
        try_except
          (do ok <- call (can_render renderer span);
           if ok then ret (Some renderer) else ret None)
          (fun e =>
             run emit_log LWarning
                   ("Error checking renderer " +:+ cls_name renderer +:+ ": " +:+ exc_str e);
             ret None);
      match found with
      | Some r => ret (Some r)
      | None => first_accepting rest span
      end
  end.

Definition get_renderer_for_span (span : Span) : M ThreadSafeSpanProcessor SpanRenderer :=
  do self <- get_proc;
  do found <- first_accepting (ts_renderers self) span;
  match found with
  | Some renderer => ret renderer
  | None => do self <- get_proc; ret (ts_renderer self)
  end.

(** [ThreadSafeSpanProcessor._put_in_queue] *)
Definition put_in_queue (data : string) : M ThreadSafeSpanProcessor unit :=
  try_except
    (do self <- get_proc;
     if is_async_queue (ts_queue self) then
       try_except_class "RuntimeError"
         (do loop <- get_running_loop; create_put_task data)
         (fun _ => emit_log LWarning "No event loop running for asyncio.Queue")
     else if is_sync_queue (ts_queue self) then put_nowait data
     else emit_log LError ("Unsupported queue type: " +:+ type_repr_of (ts_queue self)))
    (fun e => emit_log LException ("Error putting data in queue: " +:+ exc_str e)).

(** [ThreadSafeSpanProcessor._handle_start] *)
Definition handle_start (span : Span) (parent_context : option Context)
    : M ThreadSafeSpanProcessor unit :=
  try_except
    (let span_id_ := span_id (context span) in
     run modify_proc (ts_set_span span_id_ span);
     run print ("DEBUG: Processing span start: " +:+ name span
                +:+ " (ID: " +:+ pretty span_id_ +:+ ")");
     do parent_id <- resolve_parent ts_record_parent print span parent_context;
     do self <- get_proc;
     let target_id := target_container parent_id (ts_container_id self) in
     let children_container_id := span_children_id (Some span_id_) in
     run print ("DEBUG: Targeting container " +:+ target_id
                +:+ " for span " +:+ name span);
     let is_root := is_None parent_id in
     do renderer <- get_renderer_for_span span;
     do span_html <- call (render_complete_span renderer span children_container_id is_root);
     let wrapper := oob_wrapper span_html "beforeend" target_id in
     put_in_queue (to_xml wrapper))
    (fun e =>
       run emit_log LException ("Error handling span start: " +:+ exc_str e);
       print ("DEBUG ERROR: " +:+ exc_str e)).

(** [ThreadSafeSpanProcessor._handle_end] *)
Definition handle_end (span : Span) : M ThreadSafeSpanProcessor unit :=
  try_except
    (let span_id_ := span_id (context span) in
     run modify_proc (ts_set_span span_id_ span);
     do renderer <- get_renderer_for_span span;
     do updated_header <- call (render_header renderer span);
     let header_wrapper := oob_wrapper updated_header "innerHTML" (span_header_id span_id_) in
     run put_in_queue (to_xml header_wrapper);
     do updated_attributes <- call (render_attributes renderer span);
     let attr_wrapper := oob_wrapper updated_attributes "innerHTML" (span_attributes_id span_id_) in
     run put_in_queue (to_xml attr_wrapper);
     do updated_events <- call (render_events renderer span);
     let events_wrapper := oob_wrapper updated_events "innerHTML" (span_events_id span_id_) in
     put_in_queue (to_xml events_wrapper))
    (fun e => emit_log LException ("Error handling span end: " +:+ exc_str e)).

(** [ThreadSafeSpanProcessor._suppress_instrumentation] *)
Definition suppress_instrumentation {A} (func : M ThreadSafeSpanProcessor A)
    : M ThreadSafeSpanProcessor A :=
  do token <- attach_suppress;
  try_finally func (detach token).

(** [ThreadSafeSpanProcessor.on_start] and [on_end] *)
Definition ts_on_start (span : Span) (parent_context : option Context)
    : M ThreadSafeSpanProcessor unit :=
  suppress_instrumentation (handle_start span parent_context).

Definition ts_on_end (span : Span) : M ThreadSafeSpanProcessor unit :=
  suppress_instrumentation (handle_end span).

End Processors.
(** ** Strings: the substring test [needle in hay], and case

    [str.lower] on ASCII text: the letters A-Z are mapped to a-z and every
    other character is kept. *)

Definition ascii_lower (c : ascii) : ascii :=
  let n := nat_of_ascii c in
  if (65 <=? n)%nat && (n <=? 90)%nat then ascii_of_nat (n + 32) else c.

Fixpoint lower_ascii (s : string) : string :=
  match s with
  | EmptyString => EmptyString
  | String c rest => String (ascii_lower c) (lower_ascii rest)
  end.

Fixpoint starts_with (needle hay : string) : bool :=
  match needle, hay with
  | EmptyString, _ => true
  | String _ _, EmptyString => false
  | String a needle', String b hay' => Ascii.eqb a b && starts_with needle' hay'
  end.

Fixpoint str_in (needle hay : string) : bool :=
  starts_with needle hay ||
  match hay with
  | EmptyString => false
  | String _ hay' => str_in needle hay'
  end.

(** ** [DefaultSpanRenderer] (renderers.py, lines 47-163) *)

Record DefaultSpanRenderer := mkDefault {
  theme : string;
  auto_expand_patterns : list string;
  status_colors : gmap string string
}.

(** [DefaultSpanRenderer.__init__] *)
Definition DefaultSpanRenderer_init (theme : string)
    (auto_expand_patterns : option (list string)) : DefaultSpanRenderer :=
  {| theme := theme;
     auto_expand_patterns :=
       match auto_expand_patterns with
       | Some (p :: ps) => p :: ps
       | _ => []
       end;
     status_colors :=
       <["OK" := "text-success"]>
         (<["ERROR" := "text-error"]> (<["UNSET" := "text-warning"]> ∅)) |}.

Section Renderers.

(** [f"{(end_time - start_time) / 1e6:.1f}"] as a function of the integer
    difference: float division and formatting. *)
Variable format_ms : Z -> string.

(** [str.lower] *)
Variable str_lower : string -> string.

Definition default_render_header (self : DefaultSpanRenderer) (span : Span) : FT :=
  let status_name := status_code_name (status_code span) in
  let color := default "text-neutral" (status_colors self !! status_name) in
  let duration_text :=
    match end_time span, start_time span with
    | Some e, Some s =>
        if truthy_int (Some e) && truthy_int (Some s)
        then format_ms (e - s) +:+ " ms" else "..."
    | _, _ => "..."
    end in
  Div [ Span_ [Text (name span)] [("cls", AStr ("font-semibold " +:+ color))];
        Span_ [Text (" â€¢ " +:+ status_name)] [("cls", AStr "text-xs opacity-70 ml-1")];
        Span_ [Text duration_text] [("cls", AStr "ml-auto text-xs text-neutral-content/60")] ]
      [ ("id", AStr (span_header_id (span_id (context span))));
        ("cls", AStr "flex justify-between items-center") ].

Definition default_render_attributes (self : DefaultSpanRenderer) (span : Span) : FT :=
  match attributes span with
  | [] => Div [] []
  | items =>
      Ul (map (fun kv =>
                 Li [ Span_ [Text (fst kv)] [("cls", AStr "text-neutral-content/70 mr-1")];
                      Span_ [Text (snd kv)]
                        [("cls", AStr "font-mono text-xs text-base-content/80 break-all")] ]
                    [("cls", AStr "flex text-xs py-[1px]")])
              items)
         [ ("cls", AStr "pl-1 space-y-[1px]");
           ("id", AStr (span_attributes_id (span_id (context span)))) ]
  end.

Definition default_render_events (self : DefaultSpanRenderer) (span : Span) : FT :=
  match events span with
  | [] => Div [] []
  | evs =>
      Div (map (fun ev =>
                  Div [ Span_ [Text (event_name ev)] [("cls", AStr "font-medium text-xs")];
                        Span_ [Text (" @ " +:+ pretty (event_timestamp ev))]
                          [("cls", AStr "text-xs opacity-60")] ]
                      [("cls", AStr "border-l-2 border-info pl-2 py-1")])
               evs)
          [ ("cls", AStr "space-y-1");
            ("id", AStr (span_events_id (span_id (context span)))) ]
  end.

(** The loop of [render_complete_span] over [self.auto_expand_patterns],
    with its [break]. *)
Fixpoint expand_loop (patterns : list string) (span_name : string)
    (should_expand : bool) : bool :=
  match patterns with
  | [] => should_expand
  | pattern :: rest =>
      if str_in (str_lower pattern) (str_lower span_name) then true
      else expand_loop rest span_name should_expand
  end.

(** [should_expand] as [render_complete_span] computes it. *)
Definition default_should_expand (self : DefaultSpanRenderer) (span : Span)
    (is_root : bool) : bool :=
  expand_loop (auto_expand_patterns self) (name span) is_root.

Definition default_render_complete_span (self : DefaultSpanRenderer) (span : Span)
    (children_container_id : string) (is_root : bool) : FT :=
  let span_id_ := span_id (context span) in
  let children_container :=
    Div [] [ ("cls", AStr "pl-4 space-y-1 border-l border-base-300");
             ("id", AStr children_container_id) ] in
  let details_id := "span-details-" +:+ pretty span_id_ in
  let details_content :=
    Div [ default_render_attributes self span; default_render_events self span ]
        [ ("id", AStr details_id); ("cls", AStr "collapse-content pl-4 space-y-2") ] in
  let should_expand := default_should_expand self span is_root in
  let checkbox_id := "span-checkbox-" +:+ pretty span_id_ in
  let collapse_wrapper :=
    Div [ Input [] [ ("type", AStr "checkbox"); ("cls", AStr "collapse-checkbox");
                     ("checked", ABool should_expand); ("id", AStr checkbox_id) ];
          Label [ default_render_header self span ]
                [ ("for_", AStr checkbox_id);
                  ("cls", AStr "collapse-title text-sm font-medium p-2 hover:bg-base-200 transition-colors cursor-pointer") ];
          details_content ]
        [ ("cls", AStr "collapse collapse-arrow bg-base-100 border border-base-300 rounded-lg my-1") ] in
  Div [ collapse_wrapper; children_container ]
      [ ("id", AStr ("span-" +:+ pretty span_id_)); ("cls", AStr "my-1") ].

(** A [DefaultSpanRenderer] object seen through the strategy interface;
    [can_render] is the inherited one, which returns [True]. *)
Definition default_renderer (self : DefaultSpanRenderer) : SpanRenderer :=
  {| cls_name := "DefaultSpanRenderer";
     can_render := fun _ => Ok true;
     render_header := fun span => Ok (default_render_header self span);
     render_attributes := fun span => Ok (default_render_attributes self span);
     render_events := fun span => Ok (default_render_events self span);
     render_complete_span := fun span cid is_root =>
       Ok (default_render_complete_span self span cid is_root) |}.

(** [renderer or DefaultSpanRenderer()] of the constructors. *)
Definition renderer_or_default (renderer : option SpanRenderer) : SpanRenderer :=
  match renderer with
  | Some r => r
  | None => default_renderer (DefaultSpanRenderer_init "base" None)
  end.

(** [FastHTMLSpanProcessor.__init__] *)
Definition FastHTMLSpanProcessor_init (queue : AsyncQueue)
    (renderer : option SpanRenderer) (container_id : string) : FastHTMLSpanProcessor :=
  {| fh_queue := queue;
     fh_renderer := renderer_or_default renderer;
     fh_container_id := container_id;
     fh_spans := ∅;
     fh_parent_child_map := ∅;
     fh_pending_updates := ∅;
     fh_renderer_filters := [] |}.

(** [ThreadSafeSpanProcessor.__init__] *)
Definition ThreadSafeSpanProcessor_init (queue : QueueObj)
    (renderer : option SpanRenderer) (container_id : string) : ThreadSafeSpanProcessor :=
  {| ts_queue := queue;
     ts_renderer := renderer_or_default renderer;
     ts_container_id := container_id;
     ts_spans := ∅;
     ts_parent_child_map := ∅;
     ts_renderers := [] |}.

End Renderers.

(** ** [CompactSpanRenderer] (renderers.py, lines 166-192) *)

(** [CompactSpanRenderer.render_header] *)
Definition compact_render_header (span : Span) : FT :=
  let status_name := status_code_name (status_code span) in
  let color :=
    if String.eqb status_name "OK" then "text-green-500"
    else if String.eqb status_name "ERROR" then "text-red-500"
    else "text-yellow-500" in
  Div [ Span_ [Text "â—"] [("cls", AStr (color +:+ " mr-2"))];
        Span_ [Text (name span)] [("cls", AStr "font-medium text-sm")] ]
      [ ("cls", AStr "flex items-center");
        ("id", AStr (span_header_id (span_id (context span)))) ].

(** A [CompactSpanRenderer] object seen through the strategy interface.  Its
    [render_complete_span] has no [is_root] parameter, and both processors
    pass [is_root] by keyword: the call raises [TypeError].  The text of
    the error depends on the version of the interpreter (it names the
    function, with its class from Python 3.10 on), so it is a parameter. *)
Definition compact_renderer (keyword_error : string) : SpanRenderer :=
  {| cls_name := "CompactSpanRenderer";
     can_render := fun _ => Ok true;
     render_header := fun span => Ok (compact_render_header span);
     render_attributes := fun _ => Ok (Div [] []);
     render_events := fun _ => Ok (Div [] []);
     render_complete_span := fun _ _ _ => Raise (mkExc "TypeError" keyword_error) |}.

(** ** [OTelStreamer] (streamer.py) *)

(** [self.processor]: an object of one of the two processor classes. *)
Inductive Processor :=
| ThreadSafe (p : ThreadSafeSpanProcessor)
| Cooperative (p : FastHTMLSpanProcessor).

(** The queue is the one object that [self.queue] and [self.processor.queue]
    both name, so it is held once, inside the processor. *)
Record OTelStreamer := mkStreamer {
  os_container_id : string;
  os_endpoint : string;
  os_renderer : SpanRenderer;
  os_use_thread_safe_queue : bool;
  os_custom_renderers : list SpanRenderer;
  os_processor : Processor
}.

Section Streamer.

Variable format_ms : Z -> string.
Variable str_lower : string -> string.

(** [OTelStreamer.__init__], without the tracer provider and the routes. *)
Definition OTelStreamer_init (container_id endpoint : string)
    (renderer : option SpanRenderer) (use_thread_safe_queue : bool) : OTelStreamer :=
  let renderer := renderer_or_default format_ms str_lower renderer in
  {| os_container_id := container_id;
     os_endpoint := endpoint;
     os_renderer := renderer;
     os_use_thread_safe_queue := use_thread_safe_queue;
     os_custom_renderers := [];
     os_processor :=
       if use_thread_safe_queue
       then ThreadSafe (ThreadSafeSpanProcessor_init format_ms str_lower (SyncQueue 0 [])
                          (Some renderer) container_id)
       else Cooperative (FastHTMLSpanProcessor_init format_ms str_lower (asyncio_Queue 0)
                           (Some renderer) container_id) |}.

End Streamer.

(** [hasattr(self.processor, 'renderers')]: only [ThreadSafeSpanProcessor]
    has the attribute. *)
Definition hasattr_renderers (p : Processor) : bool :=
  match p with ThreadSafe _ => true | Cooperative _ => false end.

Definition set_renderers (rs : list SpanRenderer) (p : Processor) : Processor :=
  match p with
  | ThreadSafe t =>
      ThreadSafe (mkTS (ts_queue t) (ts_renderer t) (ts_container_id t) (ts_spans t)
                    (ts_parent_child_map t) rs)
  | Cooperative f => Cooperative f
  end.

(** [OTelStreamer.add_renderer] *)
Definition add_renderer (renderer : SpanRenderer) (self : OTelStreamer) : OTelStreamer :=
  let custom_renderers := (os_custom_renderers self ++ [renderer])%list in
  mkStreamer (os_container_id self) (os_endpoint self) (os_renderer self)
    (os_use_thread_safe_queue self) custom_renderers
    (if hasattr_renderers (os_processor self)
     then set_renderers custom_renderers (os_processor self)
     else os_processor self).

(** *** The consumer loop, [OTelStreamer._telemetry_generator]

    One event of the stream, the dict [{"event": ..., "data": ...}]. *)
Record SSEEvent := mkEvent_ { event : string; data : string }.

(** What the environment does during one iteration: the patches that
    producers put on the queue after the previous iteration took its patch
    or timed out, the pause [await asyncio.sleep(1.0)] that follows a
    heartbeat included, and before the bounded wait of this iteration
    ([timeout=1.0]) is over.  The iterations say what is yielded and in
    which order; when it is yielded is said by the loop in time below. *)
Definition Arrivals := list string.

(** [self.queue.get(block=True, timeout=1.0)] and
    [asyncio.wait_for(self.queue.get(), timeout=1.0)]: the oldest item, or
    the timeout ([queue.Empty], [asyncio.TimeoutError]) when there is none. *)
Definition bounded_get (queue : list string) : Result string * list string :=
  match queue with
  | msg :: rest => (Ok msg, rest)
  | [] => (Raise (mkExc "TimeoutError" EmptyString), [])
  end.

(** One iteration of [while True]: the event yielded and the queue left. *)
Definition generator_iteration (use_thread_safe_queue : bool)
    (queue : list string) (arrived : Arrivals) : SSEEvent * list string :=
  if use_thread_safe_queue then
    match bounded_get (queue ++ arrived)%list with
    | (Ok msg, queue') => ({| event := "TelemetryEvent"; data := msg |}, queue')
    | (Raise _, queue') => ({| event := "heartbeat"; data := EmptyString |}, queue')
    end
  else
    match bounded_get (queue ++ arrived)%list with
    | (Ok msg, queue') => ({| event := "TelemetryEvent"; data := msg |}, queue')
    | (Raise _, queue') => ({| event := "heartbeat"; data := EmptyString |}, queue')
    end.

(** The events yielded over the iterations that the loop completes.  The
    loop has no exit of its own: it ends when the connection is closed,
    after an event is taken or during a wait ([abandoned_wait] below). *)
Fixpoint telemetry_generator (use_thread_safe_queue : bool)
    (queue : list string) (iterations : list Arrivals) : list SSEEvent :=
  match iterations with
  | [] => []
  | arrived :: later =>
      let '(ev, queue') := generator_iteration use_thread_safe_queue queue arrived in
      ev :: telemetry_generator use_thread_safe_queue queue' later
  end.

(** The queue left after the iterations. *)
Fixpoint queue_after (use_thread_safe_queue : bool)
    (queue : list string) (iterations : list Arrivals) : list string :=
  match iterations with
  | [] => queue
  | arrived :: later =>
      queue_after use_thread_safe_queue
        (snd (generator_iteration use_thread_safe_queue queue arrived)) later
  end.

(** *** The wait that a disconnect abandons

    When the client disconnects, the task that runs the generator is
    cancelled at the [await] it is suspended on.  With the thread-safe
    queue the call [self.queue.get(block=True, timeout=1.0)] goes on in its
    executor thread: it takes the oldest patch that is there before its
    timeout, and the result is dropped with the cancelled future.  With the
    asyncio queue the cancellation reaches [self.queue.get()], which takes
    nothing.  The result is the patch taken, if any, and the queue left. *)
Definition abandoned_wait (use_thread_safe_queue : bool)
    (queue : list string) (arrived : Arrivals) : option string * list string :=
  if use_thread_safe_queue then
    match bounded_get (queue ++ arrived)%list with
    | (Ok msg, queue') => (Some msg, queue')
    | (Raise _, queue') => (None, queue')
    end
  else (None, (queue ++ arrived)%list).

(** *** The consumer loop in time

    Times are in milliseconds.  The bounded wait of an iteration
    ([timeout=1.0]) lasts at most [BOUNDED_WAIT]; after a heartbeat the
    loop pauses for [HEARTBEAT_PAUSE] ([await asyncio.sleep(1.0)]).  The
    statements between the waits are taken to take no time, and the client
    to take each event as it is yielded.  The patches still to be consumed
    are listed with the time at which a producer puts each on the queue,
    in the order of these times. *)
Definition BOUNDED_WAIT : Z := 1000.
Definition HEARTBEAT_PAUSE : Z := 1000.

(** The bounded wait that starts at [now]: the oldest patch and the time at
    which the wait ends with it, when that patch is on the queue before the
    timeout; else the timeout. *)
Definition timed_get (now : Z) (pending : list (Z * string))
    : Result (Z * string) * list (Z * string) :=
  match pending with
  | (put_at, msg) :: rest =>
      if (put_at <? now + BOUNDED_WAIT)%Z then (Ok (Z.max now put_at, msg), rest)
      else (Raise (mkExc "TimeoutError" EmptyString), pending)
  | [] => (Raise (mkExc "TimeoutError" EmptyString), [])
  end.

(** One iteration that starts at [now]: the event with the time at which it
    is yielded, the time at which the next iteration starts, and the
    patches left. *)
Definition timed_iteration (use_thread_safe_queue : bool) (now : Z)
    (pending : list (Z * string)) : (Z * SSEEvent) * (Z * list (Z * string)) :=
  if use_thread_safe_queue then
    match timed_get now pending with
    | (Ok (t, msg), pending') =>
        ((t, {| event := "TelemetryEvent"; data := msg |}), (t, pending'))
    | (Raise _, pending') =>
        ((now + BOUNDED_WAIT, {| event := "heartbeat"; data := EmptyString |}),
         (now + BOUNDED_WAIT + HEARTBEAT_PAUSE, pending'))%Z
    end
  else
    match timed_get now pending with
    | (Ok (t, msg), pending') =>
        ((t, {| event := "TelemetryEvent"; data := msg |}), (t, pending'))
    | (Raise _, pending') =>
        ((now + BOUNDED_WAIT, {| event := "heartbeat"; data := EmptyString |}),
         (now + BOUNDED_WAIT + HEARTBEAT_PAUSE, pending'))%Z
    end.

(** The first [n] iterations of the loop: the events with their times. *)
Fixpoint timed_generator (use_thread_safe_queue : bool) (n : nat) (now : Z)
    (pending : list (Z * string)) : list (Z * SSEEvent) :=
  match n with
  | O => []
  | S n' =>
      let '(ev, (now', pending')) := timed_iteration use_thread_safe_queue now pending in
      ev :: timed_generator use_thread_safe_queue n' now' pending'
  end.

(** The time and the patches left after [n] iterations. *)
Fixpoint timed_state (use_thread_safe_queue : bool) (n : nat) (now : Z)
    (pending : list (Z * string)) : Z * list (Z * string) :=
  match n with
  | O => (now, pending)
  | S n' =>
      let '(_, (now', pending')) := timed_iteration use_thread_safe_queue now pending in
      timed_state use_thread_safe_queue n' now' pending'
  end.

(** * Further code of the package *)

(** ** [OTelStreamer.create_container] and the module-level functions
    (streamer.py, lines 196-357) *)

(** [create_container]: the two positional arguments of the outer [Div],
    the first of which is [None] when [title] is empty. *)
Definition telemetry_div (self : OTelStreamer) (cls : string) : FT :=
  Div [] [ ("hx_ext", AStr "sse");
           ("sse_connect", AStr (os_endpoint self));
           ("sse_swap", AStr "TelemetryEvent");
           ("hx_swap", AStr "beforeend");
           ("id", AStr (os_container_id self));
           ("cls", AStr cls) ].

Definition create_container (self : OTelStreamer) (title cls : string) : list (option FT) :=
  [ match title with
    | EmptyString => None
    | _ => Some (Elem "h2" [Text title] [("cls", AStr "text-xl font-bold mb-4")])
    end;
    Some (telemetry_div self cls) ].

Section Module.

Variable format_ms : Z -> string.
Variable str_lower : string -> string.

(** [configure]: the streamer it returns, which is also the new value of
    [_global_streamer].  The app, the tracer provider and the headers are
    left out, as in [OTelStreamer_init]. *)
Definition configure (container_id endpoint : string) (renderer : option SpanRenderer)
    (use_thread_safe_queue : bool) (auto_expand_patterns : option (list string))
    (renderers : option (list SpanRenderer)) : OTelStreamer :=
  let renderer :=
    match renderer, auto_expand_patterns with
    | None, Some patterns =>
        Some (default_renderer format_ms str_lower
                (DefaultSpanRenderer_init "base" (Some patterns)))
    | _, _ => renderer
    end in
  let streamer :=
    OTelStreamer_init format_ms str_lower container_id endpoint renderer
      use_thread_safe_queue in
  match renderers with
  | Some (r :: rs) => fold_left (fun s custom_renderer => add_renderer custom_renderer s)
                        (r :: rs) streamer
  | _ => streamer
  end.

End Module.

(** The module-level [add_renderer], on the value of [_global_streamer]. *)
Definition module_add_renderer (renderer : SpanRenderer)
    (global_streamer : option OTelStreamer) : option OTelStreamer :=
  match global_streamer with
  | Some streamer => Some (add_renderer renderer streamer)
  | None => None
  end.

(** [telemetry_container] *)
Definition telemetry_container (global_streamer : option OTelStreamer)
    (title cls : string) : Result (list (option FT)) :=
  match global_streamer with
  | None => Raise (mkExc "RuntimeError" "Must call configure() before telemetry_container()")
  | Some streamer => Ok (create_container streamer title cls)
  end.

(** [OTelStreamer._header_exists], on the [str()] images of the headers. *)
Definition header_exists (header_str : string) (existing_headers : list string) : bool :=
  existsb (fun existing => str_in existing header_str || str_in header_str existing)
          existing_headers.

(** ** [register_attribute_renderer] (streamer.py, lines 319-339)

    The function builds its renderer by copying attributes between Python
    objects, so objects are modelled with their attribute lookup: the
    instance [__dict__] first, then the class and its bases (the renderer
    classes define methods and plain attributes only, no properties). *)
Inductive PyAttr :=
| CanRender (f : Span -> Result bool)
| Render (f : Span -> Result FT)
| RenderComplete (f : Span -> string -> bool -> Result FT)
| Data (repr : string).

Record PyObject := mkObject {
  type_name : string;                  (* type(obj).__name__ *)
  instance_dict : gmap string PyAttr;  (* obj.__dict__ *)
  class_attrs : gmap string PyAttr     (* found through the class and its bases *)
}.

(** [getattr(obj, name)], [None] standing for [AttributeError]. *)
Definition getattr (obj : PyObject) (attr_name : string) : option PyAttr :=
  match instance_dict obj !! attr_name with
  | Some a => Some a
  | None => class_attrs obj !! attr_name
  end.

(** [dir(obj)], without the names that start with two underscores. *)
Definition dir (obj : PyObject) : list string :=
  elements (dom (instance_dict obj) ∪ dom (class_attrs obj)).

(** The loop of [AttributeRenderer.__init__]:
    [for attr_name in dir(renderer): if not attr_name.startswith('_'):
       setattr(self, attr_name, getattr(renderer, attr_name))]. *)
Definition copy_public (renderer : PyObject) (names : list string)
    (self_dict : gmap string PyAttr) : gmap string PyAttr :=
  fold_left
    (fun d attr_name =>
       if starts_with "_" attr_name then d
       else match getattr renderer attr_name with
            | Some a => <[attr_name := a]> d
            | None => d
            end)
    names self_dict.

(** [attribute_key in (span.attributes or {})] *)
Definition has_key (k : string) (attrs : list (string * string)) : bool :=
  existsb (fun kv => String.eqb (fst kv) k) attrs.

(** [AttributeRenderer()]: an object of the class
    [class AttributeRenderer(type(renderer))], whose body defines
    [__init__] and [can_render]. *)
Definition AttributeRenderer (attribute_key : string) (renderer : PyObject) : PyObject :=
  {| type_name := "AttributeRenderer";
     instance_dict := copy_public renderer (dir renderer) ∅;
     class_attrs :=
       <["can_render" := CanRender (fun span => Ok (has_key attribute_key (attributes span)))]>
         (class_attrs renderer) |}.

(** An object as the processor uses it: [renderer.can_render(span)],
    [renderer.render_header(span)] and so on are attribute lookups followed
    by a call. *)
Definition no_attribute {A} (attr_name : string) : Result A :=
  Raise (mkExc "AttributeError" attr_name).
Definition not_callable {A} : Result A :=
  Raise (mkExc "TypeError" "object is not callable").

Definition call_can_render (obj : PyObject) (span : Span) : Result bool :=
  match getattr obj "can_render" with
  | Some (CanRender f) => f span
  | Some _ => not_callable
  | None => no_attribute "can_render"
  end.

Definition call_render (attr_name : string) (obj : PyObject) (span : Span) : Result FT :=
  match getattr obj attr_name with
  | Some (Render f) => f span
  | Some _ => not_callable
  | None => no_attribute attr_name
  end.

Definition call_render_complete (obj : PyObject) (span : Span) (cid : string)
    (is_root : bool) : Result FT :=
  match getattr obj "render_complete_span" with
  | Some (RenderComplete f) => f span cid is_root
  | Some _ => not_callable
  | None => no_attribute "render_complete_span"
  end.

Definition as_renderer (obj : PyObject) : SpanRenderer :=
  {| cls_name := type_name obj;
     can_render := call_can_render obj;
     render_header := call_render "render_header" obj;
     render_attributes := call_render "render_attributes" obj;
     render_events := call_render "render_events" obj;
     render_complete_span := call_render_complete obj |}.

(** [register_attribute_renderer] *)
Definition register_attribute_renderer (attribute_key : string) (renderer : PyObject)
    (global_streamer : option OTelStreamer) : option OTelStreamer :=
  module_add_renderer (as_renderer (AttributeRenderer attribute_key renderer))
    global_streamer.

(** A [DefaultSpanRenderer] as a Python object: its three data attributes
    in the instance dict, [can_render] of the base class and its own four
    render methods in the class. *)
Definition default_renderer_object (format_ms : Z -> string)
    (str_lower : string -> string) (self : DefaultSpanRenderer) : PyObject :=
  {| type_name := "DefaultSpanRenderer";
     instance_dict :=
       <["theme" := Data (theme self)]>
         (<["auto_expand_patterns" := Data "list"]> (<["status_colors" := Data "dict"]> ∅));
     class_attrs :=
       <["can_render" := CanRender (fun _ => Ok true)]>
         (<["render_header" := Render (fun span => Ok (default_render_header format_ms self span))]>
            (<["render_attributes" := Render (fun span => Ok (default_render_attributes self span))]>
               (<["render_events" := Render (fun span => Ok (default_render_events self span))]>
                  (<["render_complete_span" :=
                       RenderComplete (fun span cid is_root =>
                         Ok (default_render_complete_span format_ms str_lower self span
                               cid is_root))]>
                     ∅)))) |}.

(** ** The example renderers (example/math_renderer.py, example/ai_renderer.py)

    Attribute values are compared with string constants only, which the
    [str()] images decide for the value types of span attributes. *)

(** [attributes.get(k)] *)
Definition attr_get (k : string) (attrs : list (string * string)) : option string :=
  match find (fun kv => String.eqb (fst kv) k) attrs with
  | Some kv => Some (snd kv)
  | None => None
  end.

Definition option_is (o : option string) (v : string) : bool :=
  match o with
  | Some x => String.eqb x v
  | None => false
  end.

(** [AISpanRenderer.can_render] *)
Definition ai_can_render (span : Span) : bool :=
  has_key "gen_ai.operation.name" (attributes span).

(** [MathRenderer.can_render] *)
Definition math_can_render (span : Span) : bool :=
  let attrs := attributes span in
  has_key "math.step_type" attrs ||
  has_key "math.problem" attrs ||
  starts_with "Math:" (name span) ||
  starts_with "Step:" (name span) ||
  String.eqb (name span) "Math Problem Solving Session" ||
  has_key "math.operation" attrs ||
  has_key "gen_ai.operation.name" attrs ||
  starts_with "🤖" (name span) ||
  str_in "AI Mathematical Reasoning" (name span) ||
  has_key "model" attrs.

(** [MathRenderer._should_render_span] *)
Definition math_should_render_span (span : Span) : bool :=
  let attributes := attributes span in
  if String.eqb (name span) "Math Problem Solving Session" then true
  else if option_is (attr_get "math.step_type" attributes) "reasoning"
          && has_key "math.reasoning" attributes then true
  else if has_key "math.operation" attributes then true
  else if option_is (attr_get "math.step_type" attributes) "problem_analysis" then true
  else if option_is (attr_get "math.step_type" attributes) "conclusion" then true
  else if has_key "gen_ai.operation.name" attributes then true
  else if str_in "AI Mathematical Reasoning" (name span) then true
  else if has_key "model" attributes
          && option_is (attr_get "model" attributes) "gpt-4o-mini" then true
  else false.

(** ** [auto_instrument] (instrumentation.py, lines 116-155) *)

Inductive Library := PydanticAI | HTTPX | Requests | SQLite3 | Asyncio.

Definition library_name (lib : Library) : string :=
  match lib with
  | PydanticAI => "pydantic-ai"
  | HTTPX => "httpx"
  | Requests => "requests"
  | SQLite3 => "sqlite3"
  | Asyncio => "asyncio"
  end.

(** The message of the [ImportError] that [instrument_<library>] raises
    when the import of its instrumentor fails. *)
Definition missing_message (lib : Library) : string :=
  match lib with
  | PydanticAI =>
      "pydantic-ai is required for instrumentation. Install with: pip install pydantic-ai"
  | HTTPX =>
      "opentelemetry-instrumentation-httpx is required. Install with: pip install opentelemetry-instrumentation-httpx"
  | Requests =>
      "opentelemetry-instrumentation-requests is required. Install with: pip install opentelemetry-instrumentation-requests"
  | SQLite3 =>
      "opentelemetry-instrumentation-sqlite3 is required. Install with: pip install opentelemetry-instrumentation-sqlite3"
  | Asyncio =>
      "opentelemetry-instrumentation-asyncio is required. Install with: pip install opentelemetry-instrumentation-asyncio"
  end.

(** The installation the functions run in: for each library, [None] when
    the import of its instrumentor fails, else what the instrumentor's
    [instrument] call does. *)
Definition Installation := Library -> option (Result unit).

(** [instrument_pydantic_ai], [instrument_httpx], [instrument_requests],
    [instrument_sqlite3], [instrument_asyncio]: the state threaded is the
    list of the libraries instrumented so far. *)
Definition instrument (env : Installation) (lib : Library) : M (list Library) unit :=
  match env lib with
  | None => raise (mkExc "ImportError" (missing_message lib))
  | Some outcome =>
      run call outcome;
      modify_proc (fun done => done ++ [lib])
  end.

(** [isinstance(e, ImportError)] *)
Definition is_import_error (e : PyExc) : bool :=
  String.eqb (exc_class e) "ImportError" || String.eqb (exc_class e) "ModuleNotFoundError".

(** [", ".join(names)] *)
Fixpoint join_comma (names : list string) : string :=
  match names with
  | [] => EmptyString
  | [x] => x
  | x :: rest => x +:+ ", " +:+ join_comma rest
  end.

(** The [for] loop of [auto_instrument], threading the local lists
    [instrumented] and [skipped]. *)
Fixpoint instrument_each (env : Installation) (instrumentors : list Library)
    (instrumented skipped : list string) : M (list Library) (list string * list string) :=
  match instrumentors with
  | [] => ret (instrumented, skipped)
  | lib :: rest =>
      do lists <-
        try_except
          (run instrument env lib;
           ret (instrumented ++ [library_name lib], skipped))
          (fun e =>
             if is_import_error e then ret (instrumented, skipped ++ [library_name lib])
             else
               run emit_log LWarning
                     ("Failed to instrument " +:+ library_name lib +:+ ": " +:+ exc_str e);
               ret (instrumented, skipped ++ [library_name lib]));
      instrument_each env rest (fst lists) (snd lists)
  end.

Definition auto_instrument (env : Installation) : M (list Library) unit :=
  do lists <- instrument_each env [PydanticAI; HTTPX; Requests; SQLite3; Asyncio] [] [];
  match fst lists with
  | [] => ret tt
  | instrumented => emit_log LInfo ("Auto-instrumented: " +:+ join_comma instrumented)
  end.

(** * Definitions for the statements *)

(** ** Running the computations *)

Definition with_proc {P} (f : P -> P) (w : World P) : World P :=
  mkWorld (f (proc w)) (log w) (loop_running w) (suppressed w) (stdout w).

Definition with_log {P} (l : list LogRecord) (w : World P) : World P :=
  mkWorld (proc w) (log w ++ l) (loop_running w) (suppressed w) (stdout w).

(** ** Parent resolution *)

(** What the active tracing context yields: the identity of its span when
    that span is recording and its span context is valid. *)
Definition context_parent (parent_context : option Context) : option Z :=
  match parent_context with
  | Some c =>
      match ctx_current_span c with
      | Some s =>
          if is_recording s && is_valid (get_span_context s)
          then Some (span_id (get_span_context s)) else None
      | None => None
      end
  | None => None
  end.

(** What the static parent reference of the span object yields. *)
Definition static_parent (span : Span) : option Z :=
  match parent span with
  | Some sc => Some (span_id sc)
  | None => None
  end.

(** The static reference restricted to valid span contexts. *)
Definition valid_static_parent (span : Span) : option Z :=
  match parent span with
  | Some sc => if is_valid sc then Some (span_id sc) else None
  | None => None
  end.

(** The value of [parent_id] after the two steps: the context first, the
    static reference as the fallback. *)
Definition resolved_parent (span : Span) (parent_context : option Context) : option Z :=
  match context_parent parent_context with
  | Some p => Some p
  | None => static_parent span
  end.

(** The resolution as the specification words it: a valid parent from the
    context, else a valid parent from the static reference, else none. *)
Definition spec_parent (span : Span) (parent_context : option Context) : option Z :=
  match context_parent parent_context with
  | Some p => Some p
  | None => valid_static_parent span
  end.

(** Spans as the tracer hands them over: the static parent reference is
    absent or a valid span context (the SDK clears an invalid one when it
    creates the span). *)
Definition static_parent_wf (span : Span) : Prop :=
  forall sc, parent span = Some sc -> is_valid sc = true.

Definition record_opt {P} (record_parent : Z -> Z -> P -> P) (k : Z)
    (parent_id : option Z) (p : P) : P :=
  match parent_id with
  | Some v => record_parent k v p
  | None => p
  end.

(** ** Renderer selection *)

(** A strategy matches a span when its capability check returns [True]; a
    check that raises an [Exception] is no match. *)
Definition accepts (span : Span) (r : SpanRenderer) : bool :=
  match can_render r span with
  | Ok true => true
  | _ => false
  end.

(** The first registered strategy that matches, else the fallback. *)
Definition select_renderer (renderers : list SpanRenderer) (fallback : SpanRenderer)
    (span : Span) : SpanRenderer :=
  match find (accepts span) renderers with
  | Some r => r
  | None => fallback
  end.

(** The warnings logged on the way: one per check that raised an
    [Exception] before the first match, or before the first check that
    raised something else. *)
Fixpoint check_warnings (renderers : list SpanRenderer) (span : Span) : list LogRecord :=
  match renderers with
  | [] => []
  | r :: rest =>
      match can_render r span with
      | Ok true => []
      | Ok false => check_warnings rest span
      | Raise e =>
          if exc_is_exception e then
            mkLog LWarning ("Error checking renderer " +:+ cls_name r +:+ ": " +:+ exc_str e)
              :: check_warnings rest span
          else []
      end
  end.

(** What leaves the loop of the selection uncaught: the first thing, not an
    instance of [Exception], that a check made before the first match
    raises. *)
Fixpoint check_interrupt (renderers : list SpanRenderer) (span : Span) : option PyExc :=
  match renderers with
  | [] => None
  | r :: rest =>
      match can_render r span with
      | Ok true => None
      | Ok false => check_interrupt rest span
      | Raise e => if exc_is_exception e then check_interrupt rest span else Some e
      end
  end.

(** What [except Exception as e] makes of a raised [e]: the handler runs
    for an instance of [Exception], and anything else goes on to the
    caller. *)
Definition except_exception {P A} (e : PyExc) (handler : M P A) : M P A :=
  if exc_is_exception e then handler else raise e.

(** ** Putting a patch on the queue *)

(** A put that the queue takes: a [queue.Queue] holds the item at once, an
    asyncio queue has one more [put] task. *)
Definition queue_append (data : string) (q : QueueObj) : QueueObj :=
  match q with
  | AsyncioQueue q => AsyncioQueue (create_put_task_on data q)
  | SyncQueue maxsize items => SyncQueue maxsize (items ++ [data])
  | OtherQueue r => OtherQueue r
  end.

(** The patches put and not consumed, in the order of the puts: the items
    of the queue, then those of the [put] tasks that have not completed. *)
Definition aq_all (q : AsyncQueue) : list string := aq_items q ++ aq_puts q.

Definition queue_all (q : QueueObj) : list string := queue_items q ++ queue_puts q.

(** [_put_in_queue] takes [n] more patches without dropping one: on an
    asyncio queue an event loop is running, so that the [put] tasks are
    created; a [queue.Queue] is unbounded or has room. *)
Definition ts_accepts (n : nat) (w : World ThreadSafeSpanProcessor) : bool :=
  match ts_queue (proc w) with
  | AsyncioQueue _ => loop_running w
  | SyncQueue maxsize items =>
      ((maxsize <=? 0) || (Z.of_nat (length items + n) <=? maxsize))%Z
  | OtherQueue _ => false
  end.

(** The asyncio queue has room for [n] more items, no [put] task pending. *)
Definition aq_room (n : nat) (q : AsyncQueue) : bool :=
  ((aq_maxsize q <=? 0) || (Z.of_nat (length (aq_items q) + n) <=? aq_maxsize q))%Z.

(** The world after [_put_in_queue(data)]. *)
Definition ts_after_put (data : string) (w : World ThreadSafeSpanProcessor)
    : World ThreadSafeSpanProcessor :=
  match ts_queue (proc w) with
  | AsyncioQueue _ =>
      if loop_running w then with_proc (fun p => ts_set_queue (queue_append data (ts_queue p)) p) w
      else with_log [mkLog LWarning "No event loop running for asyncio.Queue"] w
  | SyncQueue maxsize items =>
      if queue_full maxsize items
      then with_log [mkLog LException "Error putting data in queue: "] w
      else with_proc (fun p => ts_set_queue (queue_append data (ts_queue p)) p) w
  | OtherQueue r => with_log [mkLog LError ("Unsupported queue type: " +:+ r)] w
  end.

(** The world after [_queue_update(html)] of the cooperative processor. *)
Definition fh_after_put (html : string) (w : World FastHTMLSpanProcessor)
    : World FastHTMLSpanProcessor :=
  if loop_running w then with_proc (fh_put html) w
  else with_log [mkLog LException "Error queuing update: no running event loop"] w.

(** ** The callbacks, step by step *)

Definition set_suppressed {P} (b : bool) (w : World P) : World P :=
  mkWorld (proc w) (log w) (loop_running w) b (stdout w).

Section Patches.

Variable to_xml : FT -> string.

(** The append patch of a span start. *)
Definition start_patch (html : FT) (target_id : string) : string :=
  to_xml (oob_wrapper html "beforeend" target_id).

(** The three replace patches of a span end. *)
Definition header_patch (sid : Z) (html : FT) : string :=
  to_xml (oob_wrapper html "innerHTML" (span_header_id sid)).
Definition attributes_patch (sid : Z) (html : FT) : string :=
  to_xml (oob_wrapper html "innerHTML" (span_attributes_id sid)).
Definition events_patch (sid : Z) (html : FT) : string :=
  to_xml (oob_wrapper html "innerHTML" (span_events_id sid)).

(** The lines that [_handle_start] prints. *)
Definition start_message (span : Span) : string :=
  "DEBUG: Processing span start: " +:+ name span
  +:+ " (ID: " +:+ pretty (span_id (context span)) +:+ ")".

Definition resolution_message (span : Span) (pc : option Context) : option string :=
  match context_parent pc with
  | Some p =>
      Some ("DEBUG: Found parent " +:+ pretty p
            +:+ " for span " +:+ pretty (span_id (context span)))
  | None =>
      match static_parent span with
      | Some p =>
          Some ("DEBUG: Using span.parent " +:+ pretty p
                +:+ " for span " +:+ pretty (span_id (context span)))
      | None => None
      end
  end.

Definition target_message (span : Span) (target_id : string) : string :=
  "DEBUG: Targeting container " +:+ target_id +:+ " for span " +:+ name span.

Definition error_message (e : PyExc) : string := "DEBUG ERROR: " +:+ exc_str e.

(** Every [print] returns. *)
Definition prints_return {P} (w : World P) : Prop :=
  forall text, stdout w text = Ok tt.

(** The cooperative processor once the span and its parent are recorded. *)
Definition fh_tracked (span : Span) (pc : option Context)
    (w : World FastHTMLSpanProcessor) : World FastHTMLSpanProcessor :=
  with_proc (fun p => record_opt fh_record_parent (span_id (context span))
                        (resolved_parent span pc)
                        (fh_set_span (span_id (context span)) span p)) w.

Definition ts_tracked (span : Span) (pc : option Context)
    (w : World ThreadSafeSpanProcessor) : World ThreadSafeSpanProcessor :=
  with_proc (fun p => record_opt ts_record_parent (span_id (context span))
                        (resolved_parent span pc)
                        (ts_set_span (span_id (context span)) span p)) w.

Definition start_error_fh (span : Span) (e : PyExc) : LogRecord :=
  mkLog LException ("Error in on_start for span " +:+ name span +:+ ": " +:+ exc_str e).
Definition end_error_fh (span : Span) (e : PyExc) : LogRecord :=
  mkLog LException ("Error in on_end for span " +:+ name span +:+ ": " +:+ exc_str e).
Definition start_error_ts (e : PyExc) : LogRecord :=
  mkLog LException ("Error handling span start: " +:+ exc_str e).
Definition end_error_ts (e : PyExc) : LogRecord :=
  mkLog LException ("Error handling span end: " +:+ exc_str e).

End Patches.

(** ** Concrete scenarios *)

(** A deterministic serialisation, standing for [to_xml] in the scenarios. *)
Definition attr_to_xml (kv : string * AttrVal) : string :=
  " " +:+ fst kv +:+ "=" +:+
  match snd kv with
  | AStr s => "'" +:+ s +:+ "'"
  | ABool true => "true"
  | ABool false => "false"
  end.

Fixpoint sample_to_xml (t : FT) : string :=
  match t with
  | Text s => s
  | Elem tag children attrs =>
      "<" +:+ tag +:+ fold_right String.append EmptyString (map attr_to_xml attrs) +:+ ">"
      +:+ (fix all (l : list FT) : string :=
             match l with
             | [] => EmptyString
             | c :: rest => sample_to_xml c +:+ all rest
             end) children
      +:+ "</" +:+ tag +:+ ">"
  end.

(** Milliseconds without the fractional digit, standing for the float
    formatting in the scenarios. *)
Definition sample_format_ms (d : Z) : string := pretty (d / 1000000)%Z.

(** A standard output that takes every line. *)
Definition sample_stdout (text : string) : Result unit := Ok tt.

Definition root_span : Span :=
  mkSpan "parent" (mkSpanContext 7 1) None (Some 1000%Z) None UNSET [] [].

Definition child_span : Span :=
  mkSpan "child" (mkSpanContext 7 2) (Some (mkSpanContext 7 1)) (Some 2000%Z) None UNSET [] [].

(** A context whose current span is the recording span 1. *)
Definition context_of_root : option Context :=
  Some (mkContext (Some (mkCurrentSpan true (mkSpanContext 7 1))) 0).

(** A context whose current span is the recording span 5, while the static
    parent of [child_span] is span 1. *)
Definition context_of_other : option Context :=
  Some (mkContext (Some (mkCurrentSpan true (mkSpanContext 7 5))) 0).

Definition cooperative_world (loop : bool) : World FastHTMLSpanProcessor :=
  mkWorld (FastHTMLSpanProcessor_init sample_format_ms lower_ascii (asyncio_Queue 0) None
             "telemetry-container")
          [] loop false sample_stdout.

Definition thread_safe_world : World ThreadSafeSpanProcessor :=
  mkWorld (ThreadSafeSpanProcessor_init sample_format_ms lower_ascii (SyncQueue 0 []) None
             "telemetry-container")
          [] false false sample_stdout.

(** ** C3: renderer selection *)

(** A strategy named [tag] with the capability check [check]; its fragments
    carry the tag, so that the scenarios show which strategy rendered. *)
Definition tagged_renderer (tag : string) (check : Span -> Result bool) : SpanRenderer :=
  {| cls_name := tag;
     can_render := check;
     render_header := fun _ => Ok (Div [Text tag] []);
     render_attributes := fun _ => Ok (Div [] []);
     render_events := fun _ => Ok (Div [] []);
     render_complete_span := fun _ cid _ => Ok (Div [Text tag; Div [] [("id", AStr cid)]] []) |}.

Definition matches_all : Span -> Result bool := fun _ => Ok true.
Definition check_raises : Span -> Result bool := fun _ => Raise (mkExc "KeyError" "kind").

Definition world_with_renderers (rs : list SpanRenderer) : World ThreadSafeSpanProcessor :=
  with_proc (fun p => mkTS (ts_queue p) (ts_renderer p) (ts_container_id p) (ts_spans p)
                        (ts_parent_child_map p) rs) thread_safe_world.

(** ** C5: a render call that raises at span end *)

(** A strategy whose [render_header] raises while its other render calls
    return. *)
Definition header_raises : SpanRenderer :=
  {| cls_name := "HeaderRaises";
     can_render := fun _ => Ok true;
     render_header := fun _ => Raise (mkExc "ValueError" "no header");
     render_attributes := fun _ => Ok (Div [Text "attributes"] []);
     render_events := fun _ => Ok (Div [Text "events"] []);
     render_complete_span := fun _ cid _ => Ok (Div [Div [] [("id", AStr cid)]] []) |}.

(** ** C8: the initial state of a rendered span *)

(** The specification's words, on ASCII text.  Two characters are the same
    when case is ignored if they are equal or are the upper-case and the
    lower-case form of one letter (codes 65-90 and 97-122); two strings
    are, if they are so character by character; and a name contains a
    pattern, case ignored, if some substring of the name is the pattern up
    to case. *)
Definition same_ignoring_case (a b : ascii) : Prop :=
  a = b \/
  (65 <= nat_of_ascii a <= 90 /\ nat_of_ascii b = nat_of_ascii a + 32)%nat \/
  (65 <= nat_of_ascii b <= 90 /\ nat_of_ascii a = nat_of_ascii b + 32)%nat.

Inductive equal_ignoring_case : string -> string -> Prop :=
| equal_ignoring_case_nil : equal_ignoring_case EmptyString EmptyString
| equal_ignoring_case_cons a b s t :
    same_ignoring_case a b -> equal_ignoring_case s t ->
    equal_ignoring_case (String a s) (String b t).

Definition contains_ignoring_case (pattern span_name : string) : Prop :=
  exists pre mid post,
    span_name = pre +:+ mid +:+ post /\ equal_ignoring_case pattern mid.

(** ASCII text, and what is known of [str.lower]: on ASCII text it maps
    the letters A-Z to a-z and keeps every other character. *)
Fixpoint is_ascii (s : string) : bool :=
  match s with
  | EmptyString => true
  | String c rest => (nat_of_ascii c <? 128)%nat && is_ascii rest
  end.

Definition lowers_ascii (str_lower : string -> string) : Prop :=
  forall s, is_ascii s = true -> str_lower s = lower_ascii s.

Definition attr_lookup (k : string) (attrs : list (string * AttrVal)) : option AttrVal :=
  match find (fun kv => String.eqb (fst kv) k) attrs with
  | Some kv => Some (snd kv)
  | None => None
  end.

(** The state a fragment starts in: the [checked] attribute of the collapse
    checkbox, the first element of the collapse wrapper, which is the first
    element of the fragment. *)
Definition initial_expanded (fragment : FT) : option bool :=
  match fragment with
  | Elem _ (Elem _ (Elem _ _ checkbox_attrs :: _) _ :: _) _ =>
      match attr_lookup "checked" checkbox_attrs with
      | Some (ABool b) => Some b
      | _ => None
      end
  | _ => None
  end.

(** ** C9: the recorded parent is stable *)

(** The callbacks as the tracing runtime invokes them, one after another. *)
Inductive Callback :=
| OnStart (span : Span) (parent_context : option Context)
| OnEnd (span : Span).

Definition fh_callback (to_xml : FT -> string) (c : Callback) : M FastHTMLSpanProcessor unit :=
  match c with
  | OnStart span pc => fh_on_start to_xml span pc
  | OnEnd span => fh_on_end to_xml span
  end.

Definition ts_callback (to_xml : FT -> string) (c : Callback)
    : M ThreadSafeSpanProcessor unit :=
  match c with
  | OnStart span pc => ts_on_start to_xml span pc
  | OnEnd span => ts_on_end to_xml span
  end.

Fixpoint run_callbacks {P} (callback : Callback -> M P unit) (cs : list Callback)
    (w : World P) : World P :=
  match cs with
  | [] => w
  | c :: rest => run_callbacks callback rest (snd (callback c w))
  end.

(** The identity a callback is about, when it is a start. *)
Definition started_id (c : Callback) : option Z :=
  match c with
  | OnStart span _ => Some (span_id (context span))
  | OnEnd _ => None
  end.

(** ** C10: the cooperative processor and the registered strategies *)

Definition fh_set_filters (fs : list ((Span -> bool) * SpanRenderer))
    (p : FastHTMLSpanProcessor) : FastHTMLSpanProcessor :=
  mkFH (fh_queue p) (fh_renderer p) (fh_container_id p) (fh_spans p)
       (fh_parent_child_map p) (fh_pending_updates p) fs.

(** ** Further definitions for the statements *)

(** The object behind [self.queue] without its items: its class and, for a
    [queue.Queue], its [maxsize]. *)
Definition queue_shape (q : QueueObj) : QueueObj :=
  match q with
  | AsyncioQueue q => AsyncioQueue (asyncio_Queue (aq_maxsize q))
  | SyncQueue maxsize _ => SyncQueue maxsize []
  | OtherQueue r => OtherQueue r
  end.

(** A strategy whose four render calls return for every span. *)
Definition always_renders (r : SpanRenderer) : Prop :=
  forall (span : Span) (cid : string) (is_root : bool),
    returns_normally (render_header r span) = true /\
    returns_normally (render_attributes r span) = true /\
    returns_normally (render_events r span) = true /\
    returns_normally (render_complete_span r span cid is_root) = true.

(** [_put_in_queue] never drops a patch: on an asyncio queue an event loop
    is running, so that every [put] task is created; a [queue.Queue] is
    unbounded. *)
Definition ts_unbounded (w : World ThreadSafeSpanProcessor) : bool :=
  match ts_queue (proc w) with
  | AsyncioQueue _ => loop_running w
  | SyncQueue maxsize _ => (maxsize <=? 0)%Z
  | OtherQueue _ => false
  end.

(** The patches a callback produces: one at a start, three at an end. *)
Definition patches_of (c : Callback) : nat :=
  match c with
  | OnStart _ _ => 1
  | OnEnd _ => 3
  end.

(** The identity a callback is about. *)
Definition callback_id (c : Callback) : Z :=
  match c with
  | OnStart span _ => span_id (context span)
  | OnEnd span => span_id (context span)
  end.

(** The payloads of the telemetry events of a stream, in order. *)
Definition delivered (events : list SSEEvent) : list string :=
  map data (filter (fun ev => event ev = "TelemetryEvent") events).

(** What the renderer, the registered strategies, the container id, the
    event loop and the class of the queue are: the part of the world a
    callback reads and, as shown below, never writes. *)
Definition ts_config (w : World ThreadSafeSpanProcessor) :=
  (ts_renderer (proc w), ts_container_id (proc w), ts_renderers (proc w),
   loop_running w, queue_shape (ts_queue (proc w)), stdout w).

Definition fh_config (w : World FastHTMLSpanProcessor) :=
  (fh_renderer (proc w), fh_container_id (proc w), fh_renderer_filters (proc w),
   fh_pending_updates (proc w), loop_running w, aq_maxsize (fh_queue (proc w))).

(** The elementary effects a callback of the thread-safe processor is made
    of: log a record, put a patch, store a span snapshot, record the parent
    of a span already stored. *)
Inductive ts_reach (w : World ThreadSafeSpanProcessor)
    : World ThreadSafeSpanProcessor -> Prop :=
| ts_reach_refl : ts_reach w w
| ts_reach_log w' l : ts_reach w w' -> ts_reach w (with_log l w')
| ts_reach_put w' d : ts_reach w w' -> ts_reach w (ts_after_put d w')
| ts_reach_span w' k v : ts_reach w w' -> ts_reach w (with_proc (ts_set_span k v) w')
| ts_reach_parent w' k v :
    ts_reach w w' -> is_Some (ts_spans (proc w') !! k) ->
    ts_reach w (with_proc (ts_record_parent k v) w').

Inductive fh_reach (w : World FastHTMLSpanProcessor)
    : World FastHTMLSpanProcessor -> Prop :=
| fh_reach_refl : fh_reach w w
| fh_reach_log w' l : fh_reach w w' -> fh_reach w (with_log l w')
| fh_reach_put w' d : fh_reach w w' -> fh_reach w (fh_after_put d w')
| fh_reach_span w' k v : fh_reach w w' -> fh_reach w (with_proc (fh_set_span k v) w')
| fh_reach_parent w' k v :
    fh_reach w w' -> is_Some (fh_spans (proc w') !! k) ->
    fh_reach w (with_proc (fh_record_parent k v) w').

(** The number of items a [queue.Queue] with a positive [maxsize] may hold;
    no bound for the other queues. *)
Definition within_capacity (q : QueueObj) : Prop :=
  match q with
  | SyncQueue maxsize items => (0 < maxsize)%Z -> (Z.of_nat (length items) <= maxsize)%Z
  | _ => True
  end.

(** The roles under which the code names an element after a span identity:
    the f-strings "span-children-{id}", "span-header-{id}",
    "span-attributes-{id}", "span-events-{id}" of the processors and the
    renderers, and "span-{id}", "span-checkbox-{id}", "span-details-{id}"
    of [render_complete_span]. *)
Inductive Role :=
| RoleChildren | RoleHeader | RoleAttributes | RoleEvents
| RoleSpan | RoleCheckbox | RoleDetails.

Definition role_id (r : Role) (n : Z) : string :=
  match r with
  | RoleChildren => span_children_id (Some n)
  | RoleHeader => span_header_id n
  | RoleAttributes => span_attributes_id n
  | RoleEvents => span_events_id n
  | RoleSpan => "span-" +:+ pretty n
  | RoleCheckbox => "span-checkbox-" +:+ pretty n
  | RoleDetails => "span-details-" +:+ pretty n
  end.

(** A string that starts with a decimal digit or a minus sign. *)
Definition starts_like_int (s : string) : Prop :=
  match s with
  | String c _ =>
      c = "-"%char \/ (48 <= nat_of_ascii c <= 57)%nat
  | EmptyString => False
  end.

(** The [id] attributes of the elements of a fragment, in document order. *)
Fixpoint ids_of (t : FT) : list string :=
  match t with
  | Text _ => []
  | Elem _ children attrs =>
      match attr_lookup "id" attrs with
      | Some (AStr i) => [i]
      | _ => []
      end ++
      (fix all (l : list FT) : list string :=
         match l with
         | [] => []
         | c :: rest => ids_of c ++ all rest
         end) children
  end.

(** The container id of whichever processor a streamer holds. *)
Definition processor_container_id (p : Processor) : string :=
  match p with
  | ThreadSafe t => ts_container_id t
  | Cooperative f => fh_container_id f
  end.

(** The renderer and the registered strategies of a processor; a
    cooperative processor has no list of strategies. *)
Definition processor_renderer (p : Processor) : SpanRenderer :=
  match p with
  | ThreadSafe t => ts_renderer t
  | Cooperative f => fh_renderer f
  end.

Definition processor_renderers (p : Processor) : list SpanRenderer :=
  match p with
  | ThreadSafe t => ts_renderers t
  | Cooperative _ => []
  end.

(** The keyword attributes of an element. *)
Definition attrs_of (t : FT) : list (string * AttrVal) :=
  match t with
  | Elem _ _ attrs => attrs
  | Text _ => []
  end.

(** [needle] occurs in [hay]. *)
Definition substring_of (needle hay : string) : Prop :=
  exists pre post, hay = pre +:+ needle +:+ post.

(** The libraries of an installation whose instrumentation succeeds, and
    the warnings logged for those whose [instrument] call raises something
    else than an [ImportError]. *)
Definition instrumentable (env : Installation) (lib : Library) : bool :=
  match env lib with
  | Some (Ok _) => true
  | _ => false
  end.

Definition instrument_warning (env : Installation) (lib : Library) : list LogRecord :=
  match env lib with
  | Some (Raise e) =>
      if is_import_error e then []
      else [mkLog LWarning
              ("Failed to instrument " +:+ library_name lib +:+ ": " +:+ exc_str e)]
  | _ => []
  end.

Definition instrumented_info (names : list string) : list LogRecord :=
  match names with
  | [] => []
  | _ => [mkLog LInfo ("Auto-instrumented: " +:+ join_comma names)]
  end.

Definition all_libraries : list Library := [PydanticAI; HTTPX; Requests; SQLite3; Asyncio].

(** The tracker of a processor replaced by other dicts. *)
Definition ts_set_tracker (spans : gmap Z Span) (parents : gmap Z Z)
    (p : ThreadSafeSpanProcessor) : ThreadSafeSpanProcessor :=
  mkTS (ts_queue p) (ts_renderer p) (ts_container_id p) spans parents (ts_renderers p).

Definition fh_set_tracker (spans : gmap Z Span) (parents : gmap Z Z)
    (p : FastHTMLSpanProcessor) : FastHTMLSpanProcessor :=
  mkFH (fh_queue p) (fh_renderer p) (fh_container_id p) spans parents
       (fh_pending_updates p) (fh_renderer_filters p).

(** Two worlds that differ at most in the tracker. *)
Definition ts_alike (w1 w2 : World ThreadSafeSpanProcessor) : Prop :=
  ts_queue (proc w1) = ts_queue (proc w2) /\
  ts_renderer (proc w1) = ts_renderer (proc w2) /\
  ts_container_id (proc w1) = ts_container_id (proc w2) /\
  ts_renderers (proc w1) = ts_renderers (proc w2) /\
  log w1 = log w2 /\
  loop_running w1 = loop_running w2 /\
  stdout w1 = stdout w2.

Definition fh_alike (w1 w2 : World FastHTMLSpanProcessor) : Prop :=
  fh_queue (proc w1) = fh_queue (proc w2) /\
  fh_renderer (proc w1) = fh_renderer (proc w2) /\
  fh_container_id (proc w1) = fh_container_id (proc w2) /\
  log w1 = log w2 /\
  loop_running w1 = loop_running w2.

(** A thread-safe processor on an asyncio queue, without registered
    strategies, and a cooperative processor that hold the same queue items,
    renderer, container id and tracker, in the same event loop state. *)
Definition processors_match (wt : World ThreadSafeSpanProcessor)
    (wf : World FastHTMLSpanProcessor) : Prop :=
  ts_queue (proc wt) = AsyncioQueue (fh_queue (proc wf)) /\
  ts_renderers (proc wt) = [] /\
  ts_renderer (proc wt) = fh_renderer (proc wf) /\
  ts_container_id (proc wt) = fh_container_id (proc wf) /\
  ts_spans (proc wt) = fh_spans (proc wf) /\
  ts_parent_child_map (proc wt) = fh_parent_child_map (proc wf) /\
  loop_running wt = loop_running wf.


(** ** The handlers of the callbacks *)

(** A log call. *)
Definition logged {P} (l : list LogRecord) : M P unit :=
  fun w => (Ok tt, with_log l w).

(** The [except] clause of [_handle_start]: the record, then the [print]
    of the error. *)
Definition ts_start_handler (e : PyExc) : M ThreadSafeSpanProcessor unit :=
  fun w => (stdout w (error_message e), with_log [start_error_ts e] w).

(** What a [print] of an optional line does. *)
Definition print_line {P} (w : World P) (line : option string) : Result unit :=
  match line with
  | Some text => stdout w text
  | None => Ok tt
  end.

(** ** C1: a span whose static parent reference is not valid *)

(** A span that carries a static parent reference with the invalid trace
    identity 0, started without a tracing context. *)
Definition orphan_span : Span :=
  mkSpan "orphan" (mkSpanContext 7 2) (Some (mkSpanContext 0 5)) None None UNSET [] [].

(** ** C4: the put tasks of an asyncio queue *)

(** How many of [n] pending [put] tasks complete when the loop runs them:
    all on an unbounded queue, else as many as there are free places. *)
Definition free_places (maxsize : Z) (items : list string) (n : nat) : nat :=
  if (maxsize <=? 0)%Z then n
  else Nat.min n (Z.to_nat (maxsize - Z.of_nat (length items))).

(** The records logged when a patch is dropped for want of an event loop. *)
Definition no_loop_fh : LogRecord :=
  mkLog LException "Error queuing update: no running event loop".
Definition no_loop_ts : LogRecord :=
  mkLog LWarning "No event loop running for asyncio.Queue".

(** ** C5: the first render call of a span end that raises *)

(** The render calls of a span end are made in the order header,
    attributes, events; the first one to raise ends them. *)
Definition end_render_failure (r : SpanRenderer) (span : Span) : option PyExc :=
  match render_header r span with
  | Raise e => Some e
  | Ok _ =>
      match render_attributes r span with
      | Raise e => Some e
      | Ok _ =>
          match render_events r span with
          | Raise e => Some e
          | Ok _ => None
          end
      end
  end.

(** The record [_put_in_queue] logs when the queue does not take the patch. *)
Definition drop_record (q : QueueObj) : LogRecord :=
  match q with
  | AsyncioQueue _ => no_loop_ts
  | SyncQueue _ _ => mkLog LException "Error putting data in queue: "
  | OtherQueue r => mkLog LError ("Unsupported queue type: " +:+ r)
  end.

(** The cooperative processor around a renderer whose header fails. *)
Definition header_raises_world : World FastHTMLSpanProcessor :=
  mkWorld (FastHTMLSpanProcessor_init sample_format_ms lower_ascii (asyncio_Queue 0)
             (Some header_raises) "telemetry-container")
          [] true false sample_stdout.

(** ** C6: what reaches the caller of a callback *)

(** Every failure is an instance of [Exception]. *)
Definition only_errors (failure : option PyExc) : bool :=
  match failure with
  | Some e => exc_is_exception e
  | None => true
  end.

(** A strategy whose [render_header] is cancelled: [CancelledError] is not
    an instance of [Exception]. *)
Definition header_cancelled : SpanRenderer :=
  {| cls_name := "HeaderCancelled";
     can_render := fun _ => Ok true;
     render_header := fun _ => Raise (mkBaseExc "CancelledError" EmptyString);
     render_attributes := fun _ => Ok (Div [] []);
     render_events := fun _ => Ok (Div [] []);
     render_complete_span := fun _ cid _ => Ok (Div [Div [] [("id", AStr cid)]] []) |}.

(** A strategy whose [render_complete_span] raises an error. *)
Definition start_raises : SpanRenderer :=
  {| cls_name := "StartRaises";
     can_render := fun _ => Ok true;
     render_header := fun _ => Ok (Div [] []);
     render_attributes := fun _ => Ok (Div [] []);
     render_events := fun _ => Ok (Div [] []);
     render_complete_span := fun _ _ _ => Raise (mkExc "ValueError" "no span") |}.

Definition cooperative_world_with (r : SpanRenderer) (loop : bool)
    : World FastHTMLSpanProcessor :=
  mkWorld (FastHTMLSpanProcessor_init sample_format_ms lower_ascii (asyncio_Queue 0)
             (Some r) "telemetry-container")
          [] loop false sample_stdout.

(** ** C7: the events of the consumer loop in time *)

Definition heartbeat_event : SSEEvent := {| event := "heartbeat"; data := EmptyString |}.
Definition telemetry_event (msg : string) : SSEEvent :=
  {| event := "TelemetryEvent"; data := msg |}.

(** The patches are listed in the order in which they are put. *)
Fixpoint put_in_order (pending : list (Z * string)) : bool :=
  match pending with
  | (s, _) :: rest =>
      match rest with
      | (s', _) :: _ => (s <=? s')%Z && put_in_order rest
      | [] => true
      end
  | [] => true
  end.

(** The iteration that starts at [now] is not later than one pause after
    the oldest patch was put: so it is for a loop that is running before
    the patch is put, whatever it does in between. *)
Definition loop_keeps_up (now : Z) (pending : list (Z * string)) : bool :=
  match pending with
  | (s, _) :: _ => (now <=? s + HEARTBEAT_PAUSE)%Z
  | [] => true
  end.

(** No patch is put before the bounded wait that starts at [now] is over. *)
Definition wait_times_out (now : Z) (pending : list (Z * string)) : bool :=
  match pending with
  | (s, _) :: _ => (now + BOUNDED_WAIT <=? s)%Z
  | [] => true
  end.

(** A heartbeat is emitted in the period from [start] to [stop]. *)
Definition heartbeat_within (start stop : Z) (events : list (Z * SSEEvent)) : bool :=
  existsb (fun ev => (start <=? fst ev)%Z && (fst ev <=? stop)%Z
                     && String.eqb (event (snd ev)) "heartbeat") events.

(** ** C8: spans and a renderer for the examples *)

Definition tool_span : Span :=
  mkSpan "Tool: Roll a die" (mkSpanContext 7 3) (Some (mkSpanContext 7 1))
         None None UNSET [] [].
Definition ai_span : Span :=
  mkSpan "ai_processing" (mkSpanContext 7 4) (Some (mkSpanContext 7 1))
         None None UNSET [] [].
Definition shouting_span : Span :=
  mkSpan "TOOL: ROLL A DIE" (mkSpanContext 7 5) (Some (mkSpanContext 7 1))
         None None UNSET [] [].

(** ** The consumer loop in time and its iterations *)

(** What arrives in each of the first [n] iterations of the loop in time, as
    far as the loop sees it: the patch the bounded wait ends with, if any. *)
Fixpoint timed_arrivals (use_thread_safe_queue : bool) (n : nat) (now : Z)
    (pending : list (Z * string)) : list Arrivals :=
  match n with
  | O => []
  | S n' =>
      let '(_, (now', pending')) := timed_iteration use_thread_safe_queue now pending in
      match fst (timed_get now pending) with
      | Ok (_, msg) => [msg]
      | Raise _ => []
      end :: timed_arrivals use_thread_safe_queue n' now' pending'
  end.

(** The patch a closed connection loses, as a list. *)
Definition lost_patch (taken : option string) : list string :=
  match taken with
  | Some msg => [msg]
  | None => []
  end.

(** ** [auto_instrument]: what the [instrument] calls raise *)

(** Whatever an [instrument] call raises is an instance of [Exception]. *)
Definition errors_only (env : Installation) : bool :=
  forallb (fun lib => match env lib with
                      | Some (Raise e) => exc_is_exception e
                      | _ => true
                      end) all_libraries.

(** An installation with httpx and sqlite3, whose requests instrumentor
    fails. *)
Definition sample_installation : Installation :=
  fun lib =>
    match lib with
    | HTTPX | SQLite3 => Some (Ok tt)
    | Requests => Some (Raise (mkExc "RuntimeError" "already instrumented"))
    | _ => None
    end.
(** * Properties *)

(** ** Running the computations *)

Lemma with_log_nil {P} (w : World P) : with_log [] w = w.
Proof. destruct w. unfold with_log. simpl. by rewrite app_nil_r. Qed.

Lemma with_log_app {P} (l1 l2 : list LogRecord) (w : World P) :
  with_log l2 (with_log l1 w) = with_log (l1 ++ l2) w.
Proof. unfold with_log. simpl. by rewrite app_assoc. Qed.

Lemma with_proc_id {P} (w : World P) : with_proc (fun p => p) w = w.
Proof. by destruct w. Qed.

(** ** Parent resolution *)

Lemma is_valid_span_id (sc : SpanContext) :
  is_valid sc = true -> (0 < span_id sc <= 2 ^ 64 - 1)%Z.
Proof.
  unfold is_valid, INVALID_SPAN_ID, SPAN_ID_MAX_VALUE.
  rewrite !andb_true_iff. lia.
Qed.

Lemma is_valid_truthy (sc : SpanContext) :
  is_valid sc = true -> truthy_int (Some (span_id sc)) = true.
Proof.
  intros H. apply is_valid_span_id in H. simpl.
  apply negb_true_iff, Z.eqb_neq. lia.
Qed.

Lemma context_parent_truthy (pc : option Context) (p : Z) :
  context_parent pc = Some p -> truthy_int (Some p) = true.
Proof.
  destruct pc as [c|]; simpl; [|done].
  destruct (ctx_current_span c) as [s|]; [|done].
  destruct (is_recording s); simpl; [|done].
  destruct (is_valid (get_span_context s)) eqn:Hv; [|done].
  intros [= <-]. by apply is_valid_truthy.
Qed.

Lemma spec_parent_resolved (span : Span) (pc : option Context) :
  static_parent_wf span -> spec_parent span pc = resolved_parent span pc.
Proof.
  intros Hwf. unfold spec_parent, resolved_parent, valid_static_parent, static_parent.
  destruct (context_parent pc); [done|].
  destruct (parent span) as [sc|] eqn:Hp; [|done].
  by rewrite (Hwf sc Hp).
Qed.

Lemma spec_parent_truthy (span : Span) (pc : option Context) (p : Z) :
  spec_parent span pc = Some p -> truthy_int (Some p) = true.
Proof.
  unfold spec_parent, valid_static_parent.
  destruct (context_parent pc) as [q|] eqn:Hc.
  - intros [= <-]. by eapply context_parent_truthy.
  - destruct (parent span) as [sc|]; [|done].
    destruct (is_valid sc) eqn:Hv; [|done].
    intros [= <-]. by apply is_valid_truthy.
Qed.

(** The two steps of the code compute [resolved_parent] and record it. *)
Lemma resolve_parent_run {P} (record_parent : Z -> Z -> P -> P)
    (span : Span) (pc : option Context) (w : World P) :
  resolve_parent record_parent no_print span pc w =
    (Ok (resolved_parent span pc),
     with_proc (record_opt record_parent (span_id (context span))
                  (resolved_parent span pc)) w).
Proof.
  unfold resolve_parent, resolved_parent, static_parent, bind, no_print.
  destruct pc as [c|]; simpl.
  - unfold get_current_span.
    destruct (ctx_current_span c) as [s|] eqn:Hs; simpl.
    + destruct (is_recording s); simpl.
      * destruct (is_valid (get_span_context s)) eqn:Hv; simpl.
        -- pose proof (is_valid_truthy _ Hv) as Ht. simpl in Ht.
           unfold modify_proc, ret. simpl.
           destruct (parent span); simpl; rewrite ?Ht; simpl; done.
        -- unfold ret. destruct (parent span); simpl; [done|].
           by rewrite with_proc_id.
      * unfold ret. destruct (parent span); simpl; [done|].
        by rewrite with_proc_id.
    + destruct (negb (Nat.eqb (ctx_other_keys c) 0)); simpl;
        unfold ret; destruct (parent span); simpl; try done;
        by rewrite with_proc_id.
  - unfold ret. destruct (parent span); simpl; [done|].
    by rewrite with_proc_id.
Qed.

(** With the [print] of the thread-safe class, the parent is recorded
    before the line is printed; what the [print] raises leaves the
    resolution. *)
Lemma resolve_parent_print {P} (record_parent : Z -> Z -> P -> P)
    (span : Span) (pc : option Context) (w : World P) :
  resolve_parent record_parent print span pc w =
    (match resolution_message span pc with
     | Some text =>
         match stdout w text with
         | Ok _ => Ok (resolved_parent span pc)
         | Raise e => Raise e
         end
     | None => Ok (resolved_parent span pc)
     end,
     with_proc (record_opt record_parent (span_id (context span))
                  (resolved_parent span pc)) w).
Proof.
  unfold resolve_parent, resolution_message, resolved_parent, static_parent, bind, print.
  destruct pc as [c|]; simpl.
  - unfold get_current_span.
    destruct (ctx_current_span c) as [s|] eqn:Hs; simpl.
    + destruct (is_recording s); simpl.
      * destruct (is_valid (get_span_context s)) eqn:Hv; simpl.
        -- pose proof (is_valid_truthy _ Hv) as Ht. simpl in Ht.
           unfold modify_proc, ret. simpl.
           destruct (stdout w _) as [[]|e]; simpl; [|done].
           destruct (parent span); simpl; rewrite ?Ht; simpl; done.
        -- unfold ret, modify_proc. destruct (parent span); simpl.
           ++ by destruct (stdout w _) as [[]|e].
           ++ by rewrite with_proc_id.
      * unfold ret, modify_proc. destruct (parent span); simpl.
        ++ by destruct (stdout w _) as [[]|e].
        ++ by rewrite with_proc_id.
    + destruct (negb (Nat.eqb (ctx_other_keys c) 0)); simpl;
        unfold ret, modify_proc; destruct (parent span); simpl;
        try (by destruct (stdout w _) as [[]|e]); by rewrite with_proc_id.
  - unfold ret, modify_proc. destruct (parent span); simpl.
    + by destruct (stdout w _) as [[]|e].
    + by rewrite with_proc_id.
Qed.

(** When a line is printed, a parent was resolved. *)
Lemma resolution_message_parent (span : Span) (pc : option Context) :
  is_Some (resolution_message span pc) <-> is_Some (resolved_parent span pc).
Proof.
  unfold resolution_message, resolved_parent.
  destruct (context_parent pc); [by split; eauto|].
  destruct (static_parent span); split; intros [? ?]; by eauto.
Qed.

(** ** Renderer selection *)

Lemma first_accepting_run (rs : list SpanRenderer) (span : Span)
    (w : World ThreadSafeSpanProcessor) :
  first_accepting rs span w =
    (match check_interrupt rs span with
     | Some e => Raise e
     | None => Ok (find (accepts span) rs)
     end,
     with_log (check_warnings rs span) w).
Proof.
  revert w. induction rs as [|r rs IH]; intros w; simpl.
  - by rewrite with_log_nil.
  - unfold bind, try_except, call, accepts.
    destruct (can_render r span) as [[|]|e]; simpl.
    + by rewrite with_log_nil.
    + apply IH.
    + destruct (exc_is_exception e); simpl.
      * unfold emit_log, ret. simpl. rewrite IH.
        f_equal. unfold with_log. simpl. by rewrite <- app_assoc.
      * by rewrite with_log_nil.
Qed.

Lemma get_renderer_for_span_run (span : Span) (w : World ThreadSafeSpanProcessor) :
  get_renderer_for_span span w =
    (match check_interrupt (ts_renderers (proc w)) span with
     | Some e => Raise e
     | None => Ok (select_renderer (ts_renderers (proc w)) (ts_renderer (proc w)) span)
     end,
     with_log (check_warnings (ts_renderers (proc w)) span) w).
Proof.
  unfold get_renderer_for_span, bind, get_proc, select_renderer.
  rewrite first_accepting_run.
  destruct (check_interrupt _ _); [done|].
  by destruct (find (accepts span) (ts_renderers (proc w))).
Qed.

Lemma check_interrupt_base (rs : list SpanRenderer) (span : Span) (e : PyExc) :
  check_interrupt rs span = Some e -> exc_is_exception e = false.
Proof.
  induction rs as [|r rs IH]; simpl; [done|].
  destruct (can_render r span) as [[|]|e']; [done|done|].
  destruct (exc_is_exception e') eqn:He; [done|]. by intros [= <-].
Qed.

(** The checks raise nothing but instances of [Exception]. *)
Lemma check_interrupt_none (rs : list SpanRenderer) (span : Span) :
  (forall r, r ∈ rs -> no_base_exception (can_render r span) = true) ->
  check_interrupt rs span = None.
Proof.
  induction rs as [|r rs IH]; intros H; simpl; [done|].
  pose proof (H r (list_elem_of_here _ _)) as Hr.
  assert (check_interrupt rs span = None) as Hrs
    by (apply IH; intros r' Hr'; apply H; by apply list_elem_of_further).
  destruct (can_render r span) as [[|]|e]; simpl in *; [done|done|].
  by rewrite Hr.
Qed.

(** [find] returns the match of least index. *)
Lemma find_first {A} (f : A -> bool) (l : list A) (x : A) :
  find f l = Some x <->
  exists i, l !! i = Some x /\ f x = true /\
            forall j y, (j < i)%nat -> l !! j = Some y -> f y = false.
Proof.
  induction l as [|a l IH]; simpl.
  - split; [done|]. by intros (i & Hi & _).
  - destruct (f a) eqn:Ha.
    + split.
      * intros [= <-]. exists 0%nat. repeat split; [done|]. intros j y Hj. lia.
      * intros (i & Hi & Hx & Hmin). destruct i as [|i]; [by simplify_eq|].
        specialize (Hmin 0%nat a). simpl in Hmin.
        rewrite Hmin in Ha; [done|lia|done].
    + rewrite IH. split.
      * intros (i & Hi & Hx & Hmin). exists (S i). repeat split; [done..|].
        intros [|j] y Hj Hy; simpl in Hy; [by simplify_eq|].
        apply (Hmin j); [lia|done].
      * intros (i & Hi & Hx & Hmin). destruct i as [|i]; simpl in Hi.
        { simplify_eq. congruence. }
        exists i. repeat split; [done..|].
        intros j y Hj Hy. apply (Hmin (S j)); [lia|done].
Qed.

Lemma find_none {A} (f : A -> bool) (l : list A) :
  find f l = None <-> forall x, x ∈ l -> f x = false.
Proof.
  induction l as [|a l IH]; simpl.
  - split; [|done]. intros _ x Hx. by apply elem_of_nil in Hx.
  - destruct (f a) eqn:Ha.
    + split; [done|]. intros H. rewrite (H a) in Ha; [done|]. apply list_elem_of_here.
    + rewrite IH. split.
      * intros H x Hx. apply elem_of_cons in Hx as [->|Hx]; [done|by apply H].
      * intros H x Hx. apply H. by apply list_elem_of_further.
Qed.

(** ** Putting a patch on the queue *)

Lemma put_in_queue_run (data : string) (w : World ThreadSafeSpanProcessor) :
  put_in_queue data w = (Ok tt, ts_after_put data w).
Proof.
  unfold put_in_queue, ts_after_put, try_except, bind, get_proc.
  destruct w as [p l lr s out]. simpl.
  destruct (ts_queue p) as [q|maxsize items|r] eqn:Hq; simpl.
  - unfold try_except_class, bind, get_running_loop. simpl.
    destruct lr; simpl; [|done].
    unfold create_put_task, bind, get_proc. simpl. rewrite Hq. simpl.
    unfold modify_proc, with_proc. simpl. by rewrite Hq.
  - unfold put_nowait, bind, get_proc. simpl. rewrite Hq.
    destruct (queue_full maxsize items); simpl; [done|].
    unfold modify_proc, with_proc. simpl. by rewrite Hq.
  - done.
Qed.

Lemma queue_full_room (maxsize : Z) (items : list string) (n : nat) :
  ((maxsize <=? 0) || (Z.of_nat (length items + S n) <=? maxsize))%Z = true ->
  queue_full maxsize items = false.
Proof.
  unfold queue_full. intros H. apply andb_false_iff.
  apply orb_true_iff in H as [H|H]; apply Z.leb_le in H.
  - left. apply Z.ltb_ge. lia.
  - right. apply Z.leb_gt. lia.
Qed.

Lemma ts_after_put_accepted (n : nat) (data : string) (w : World ThreadSafeSpanProcessor) :
  ts_accepts (S n) w = true ->
  ts_after_put data w = with_proc (fun p => ts_set_queue (queue_append data (ts_queue p)) p) w
  /\ ts_accepts n (ts_after_put data w) = true.
Proof.
  unfold ts_accepts, ts_after_put. destruct w as [p l lr s out]. simpl.
  destruct (ts_queue p) as [q|maxsize items|r] eqn:Hq; simpl; intros H.
  - subst lr. split; [done|]. unfold with_proc. simpl. by rewrite Hq.
  - rewrite (queue_full_room _ _ n H).
    split; [done|]. unfold with_proc. simpl. rewrite Hq. simpl.
    apply orb_true_iff. apply orb_true_iff in H as [H|H]; [by left|right].
    apply Z.leb_le in H. apply Z.leb_le. rewrite length_app. simpl. lia.
  - done.
Qed.

Lemma fh_queue_update_run (html : string) (w : World FastHTMLSpanProcessor) :
  fh_queue_update html w = (Ok tt, fh_after_put html w).
Proof.
  unfold fh_queue_update, fh_after_put, try_except, bind, get_running_loop.
  destruct w as [p l lr s out]. simpl. by destruct lr.
Qed.

(** ** The callbacks, step by step *)

Lemma fh_on_start_run (to_xml : FT -> string) (span : Span) (pc : option Context)
    (w : World FastHTMLSpanProcessor) :
  fh_on_start to_xml span pc w =
    let sid := span_id (context span) in
    let pid := resolved_parent span pc in
    match render_complete_span (fh_renderer (proc w)) span
            (span_children_id (Some sid)) (is_None pid) with
    | Ok html =>
        (Ok tt, fh_after_put
                  (start_patch to_xml html (target_container pid (fh_container_id (proc w))))
                  (fh_tracked span pc w))
    | Raise e =>
        except_exception e (logged [start_error_fh span e]) (fh_tracked span pc w)
    end.
Proof.
  unfold fh_on_start, try_except, bind. simpl.
  rewrite resolve_parent_run. unfold get_proc, call. simpl.
  assert (forall o p, fh_renderer (record_opt fh_record_parent (span_id (context span)) o p)
                      = fh_renderer p) as Hr by (by intros [|] ?).
  assert (forall o p, fh_container_id (record_opt fh_record_parent (span_id (context span)) o p)
                      = fh_container_id p) as Hc by (by intros [|] ?).
  rewrite Hr, Hc. simpl.
  destruct (render_complete_span _ _ _ _) as [html|e]; simpl.
  - by rewrite fh_queue_update_run.
  - unfold except_exception. by destruct (exc_is_exception e).
Qed.

Lemma fh_on_end_run (to_xml : FT -> string) (span : Span) (w : World FastHTMLSpanProcessor) :
  fh_on_end to_xml span w =
    let sid := span_id (context span) in
    let r := fh_renderer (proc w) in
    let w1 := with_proc (fh_set_span sid span) w in
    match render_header r span, render_attributes r span, render_events r span with
    | Ok h, Ok a, Ok ev =>
        (Ok tt, fh_after_put (events_patch to_xml sid ev)
                  (fh_after_put (attributes_patch to_xml sid a)
                     (fh_after_put (header_patch to_xml sid h) w1)))
    | Raise e, _, _ => except_exception e (logged [end_error_fh span e]) w1
    | Ok _, Raise e, _ => except_exception e (logged [end_error_fh span e]) w1
    | Ok _, Ok _, Raise e => except_exception e (logged [end_error_fh span e]) w1
    end.
Proof.
  unfold fh_on_end, try_except, bind, get_proc, call, except_exception. simpl.
  destruct (render_header _ _) as [h|e]; simpl; [|by destruct (exc_is_exception e)].
  destruct (render_attributes _ _) as [a|e]; simpl; [|by destruct (exc_is_exception e)].
  destruct (render_events _ _) as [ev|e]; simpl; [|by destruct (exc_is_exception e)].
  by rewrite !fh_queue_update_run.
Qed.

Lemma handle_start_run (to_xml : FT -> string) (span : Span) (pc : option Context)
    (w : World ThreadSafeSpanProcessor) :
  handle_start to_xml span pc w =
    let sid := span_id (context span) in
    let pid := resolved_parent span pc in
    let r := select_renderer (ts_renderers (proc w)) (ts_renderer (proc w)) span in
    let w0 := with_proc (ts_set_span sid span) w in
    let wt := ts_tracked span pc w in
    let w1 := with_log (check_warnings (ts_renderers (proc w)) span) wt in
    let target := target_container pid (ts_container_id (proc w)) in
    match stdout w (start_message span) with
    | Raise e => except_exception e (ts_start_handler e) w0
    | Ok _ =>
        match print_line w (resolution_message span pc) with
        | Raise e => except_exception e (ts_start_handler e) wt
        | Ok _ =>
            match stdout w (target_message span target) with
            | Raise e => except_exception e (ts_start_handler e) wt
            | Ok _ =>
                match check_interrupt (ts_renderers (proc w)) span with
                | Some e => (Raise e, w1)
                | None =>
                    match render_complete_span r span (span_children_id (Some sid))
                            (is_None pid) with
                    | Ok html => (Ok tt, ts_after_put (start_patch to_xml html target) w1)
                    | Raise e => except_exception e (ts_start_handler e) w1
                    end
                end
            end
        end
    end.
Proof.
  assert (forall o p, ts_renderer (record_opt ts_record_parent (span_id (context span)) o p)
                      = ts_renderer p) as Hr by (by intros [|] ?).
  assert (forall o p, ts_renderers (record_opt ts_record_parent (span_id (context span)) o p)
                      = ts_renderers p) as Hrs by (by intros [|] ?).
  assert (forall o p, ts_container_id (record_opt ts_record_parent (span_id (context span)) o p)
                      = ts_container_id p) as Hc by (by intros [|] ?).
  assert (forall e w', (if exc_is_exception e
                        then (run emit_log LException
                                    ("Error handling span start: " +:+ exc_str e);
                              print ("DEBUG ERROR: " +:+ exc_str e)) w'
                        else (Raise e, w'))
                       = except_exception e (ts_start_handler e) w') as Hh.
  { intros e w'. unfold except_exception. by destruct (exc_is_exception e). }
  unfold handle_start, try_except, bind. cbv zeta. cbn [modify_proc print].
  change (stdout {| proc := ts_set_span (span_id (context span)) span (proc w);
                    log := log w; loop_running := loop_running w;
                    suppressed := suppressed w; stdout := stdout w |}) with (stdout w).
  unfold start_message.
  destruct (stdout w _) as [[]|e]; [|apply Hh].
  rewrite resolve_parent_print. cbn [stdout fst snd].
  change (print_line w (resolution_message span pc))
    with (match resolution_message span pc with
          | Some text => stdout w text
          | None => Ok tt
          end).
  assert (match resolution_message span pc with
          | Some text =>
              match stdout w text with
              | Ok _ => Ok (resolved_parent span pc)
              | Raise e => Raise e
              end
          | None => Ok (resolved_parent span pc)
          end
          = match (match resolution_message span pc with
                   | Some text => stdout w text
                   | None => Ok tt
                   end) with
            | Ok _ => Ok (resolved_parent span pc)
            | Raise e => Raise e
            end) as -> by (destruct (resolution_message span pc); [|done];
                           by destruct (stdout w _)).
  destruct (match resolution_message span pc with
            | Some text => stdout w text
            | None => Ok tt
            end) as [[]|e]; [|apply Hh].
  unfold get_proc. cbn [proc with_proc stdout]. rewrite Hc. cbn [ts_container_id ts_set_span].
  unfold target_message.
  destruct (stdout w _) as [[]|e]; [|apply Hh].
  rewrite get_renderer_for_span_run. cbn [proc with_proc fst snd].
  rewrite Hr, Hrs. cbn [ts_renderer ts_renderers ts_set_span].
  destruct (check_interrupt _ _) as [e|] eqn:Hi.
  { cbn [fst snd]. by rewrite (check_interrupt_base _ _ _ Hi). }
  unfold call. cbn [fst snd].
  destruct (render_complete_span _ _ _ _) as [html|e].
  - by rewrite put_in_queue_run.
  - apply Hh.
Qed.

Lemma handle_end_run (to_xml : FT -> string) (span : Span) (w : World ThreadSafeSpanProcessor) :
  handle_end to_xml span w =
    let sid := span_id (context span) in
    let r := select_renderer (ts_renderers (proc w)) (ts_renderer (proc w)) span in
    let w1 := with_log (check_warnings (ts_renderers (proc w)) span)
                (with_proc (ts_set_span sid span) w) in
    match check_interrupt (ts_renderers (proc w)) span with
    | Some e => (Raise e, w1)
    | None =>
        match render_header r span with
        | Raise e => except_exception e (logged [end_error_ts e]) w1
        | Ok h =>
            let w2 := ts_after_put (header_patch to_xml sid h) w1 in
            match render_attributes r span with
            | Raise e => except_exception e (logged [end_error_ts e]) w2
            | Ok a =>
                let w3 := ts_after_put (attributes_patch to_xml sid a) w2 in
                match render_events r span with
                | Raise e => except_exception e (logged [end_error_ts e]) w3
                | Ok ev => (Ok tt, ts_after_put (events_patch to_xml sid ev) w3)
                end
            end
        end
    end.
Proof.
  unfold handle_end, try_except, bind, except_exception. simpl.
  rewrite get_renderer_for_span_run. unfold call. simpl.
  destruct (check_interrupt _ _) as [e|] eqn:Hi.
  { simpl. by rewrite (check_interrupt_base _ _ _ Hi). }
  destruct (render_header _ _) as [h|e]; simpl; [|by destruct (exc_is_exception e)].
  rewrite put_in_queue_run.
  destruct (render_attributes _ _) as [a|e]; simpl; [|by destruct (exc_is_exception e)].
  rewrite put_in_queue_run.
  destruct (render_events _ _) as [ev|e]; simpl; [|by destruct (exc_is_exception e)].
  by rewrite put_in_queue_run.
Qed.

Lemma suppress_instrumentation_run {A} (func : M ThreadSafeSpanProcessor A)
    (w : World ThreadSafeSpanProcessor) :
  suppress_instrumentation func w =
    (fst (func (set_suppressed true w)),
     set_suppressed (suppressed w) (snd (func (set_suppressed true w)))).
Proof.
  unfold suppress_instrumentation, bind, attach_suppress, try_finally, detach.
  simpl. unfold set_suppressed.
  by destruct (func _) as [r w'].
Qed.
(** ** Effects of the callbacks on the queue and on the tracker *)

Lemma fh_after_put_queue (d : string) (w : World FastHTMLSpanProcessor) :
  fh_queue (proc (fh_after_put d w)) =
    if loop_running w then create_put_task_on d (fh_queue (proc w)) else fh_queue (proc w).
Proof. unfold fh_after_put. by destruct (loop_running w). Qed.

Lemma fh_after_put_all (d : string) (w : World FastHTMLSpanProcessor) :
  aq_all (fh_queue (proc (fh_after_put d w))) =
    aq_all (fh_queue (proc w)) ++ (if loop_running w then [d] else []).
Proof.
  rewrite fh_after_put_queue. unfold aq_all.
  destruct (loop_running w); simpl; [by rewrite app_assoc|by rewrite app_nil_r].
Qed.

Lemma fh_after_put_tracker (d : string) (w : World FastHTMLSpanProcessor) :
  fh_spans (proc (fh_after_put d w)) = fh_spans (proc w)
  /\ fh_parent_child_map (proc (fh_after_put d w)) = fh_parent_child_map (proc w)
  /\ loop_running (fh_after_put d w) = loop_running w.
Proof. unfold fh_after_put. destruct w as [p l lr s out]. simpl. by destruct lr. Qed.

Lemma ts_after_put_all (d : string) (w : World ThreadSafeSpanProcessor) :
  queue_all (ts_queue (proc (ts_after_put d w))) =
    queue_all (ts_queue (proc w)) ++ (if ts_accepts 1 w then [d] else []).
Proof.
  unfold ts_after_put, ts_accepts, queue_all. destruct w as [p l lr s out]. simpl.
  destruct (ts_queue p) as [q|maxsize items|r] eqn:Hq; simpl.
  - destruct lr; simpl; rewrite Hq; simpl; [by rewrite app_assoc|by rewrite app_nil_r].
  - unfold queue_full.
    replace (Z.of_nat (length items + 1)) with (Z.of_nat (length items) + 1)%Z by lia.
    destruct (0 <? maxsize)%Z eqn:H0, (maxsize <=? Z.of_nat (length items))%Z eqn:H1,
             (maxsize <=? 0)%Z eqn:H2, (Z.of_nat (length items) + 1 <=? maxsize)%Z eqn:H3;
      simpl; rewrite ?Hq; simpl; rewrite ?app_nil_r; try done; lia.
  - by rewrite Hq.
Qed.

Lemma ts_after_put_tracker (d : string) (w : World ThreadSafeSpanProcessor) :
  ts_spans (proc (ts_after_put d w)) = ts_spans (proc w)
  /\ ts_parent_child_map (proc (ts_after_put d w)) = ts_parent_child_map (proc w)
  /\ loop_running (ts_after_put d w) = loop_running w.
Proof.
  unfold ts_after_put. destruct w as [p l lr s out]. simpl.
  destruct (ts_queue p) as [q|maxsize items|r]; simpl.
  - by destruct lr.
  - by destruct (queue_full _ _).
  - done.
Qed.

Lemma fh_tracked_proc (span : Span) (pc : option Context) (w : World FastHTMLSpanProcessor) :
  fh_queue (proc (fh_tracked span pc w)) = fh_queue (proc w)
  /\ fh_spans (proc (fh_tracked span pc w)) = <[span_id (context span) := span]> (fh_spans (proc w))
  /\ fh_parent_child_map (proc (fh_tracked span pc w)) =
       match resolved_parent span pc with
       | Some p => <[span_id (context span) := p]> (fh_parent_child_map (proc w))
       | None => fh_parent_child_map (proc w)
       end
  /\ loop_running (fh_tracked span pc w) = loop_running w.
Proof. unfold fh_tracked. by destruct (resolved_parent span pc). Qed.

Lemma ts_tracked_accepts (n : nat) (l : list LogRecord) (span : Span)
    (pc : option Context) (w : World ThreadSafeSpanProcessor) :
  ts_accepts n (with_log l (ts_tracked span pc w)) = ts_accepts n w.
Proof. unfold ts_accepts, ts_tracked. by destruct (resolved_parent span pc). Qed.

Lemma ts_tracked_queue (l : list LogRecord) (span : Span)
    (pc : option Context) (w : World ThreadSafeSpanProcessor) :
  ts_queue (proc (with_log l (ts_tracked span pc w))) = ts_queue (proc w).
Proof. unfold ts_tracked. by destruct (resolved_parent span pc). Qed.

Lemma ts_tracked_proc (span : Span) (pc : option Context) (w : World ThreadSafeSpanProcessor) :
  ts_queue (proc (ts_tracked span pc w)) = ts_queue (proc w)
  /\ ts_spans (proc (ts_tracked span pc w)) = <[span_id (context span) := span]> (ts_spans (proc w))
  /\ ts_parent_child_map (proc (ts_tracked span pc w)) =
       match resolved_parent span pc with
       | Some p => <[span_id (context span) := p]> (ts_parent_child_map (proc w))
       | None => ts_parent_child_map (proc w)
       end
  /\ loop_running (ts_tracked span pc w) = loop_running w.
Proof. unfold ts_tracked. by destruct (resolved_parent span pc). Qed.

(** ** Suppression of instrumentation is transparent

    The flag is set around the handler and restored after it; nothing in the
    handler reads it, so the public callbacks act on the world as the
    handlers do, also when the handler raises. *)

Lemma ts_after_put_suppressed (b : bool) (d : string) (w : World ThreadSafeSpanProcessor) :
  ts_after_put d (set_suppressed b w) = set_suppressed b (ts_after_put d w).
Proof.
  unfold ts_after_put, set_suppressed. destruct w as [p l lr s out]. simpl.
  destruct (ts_queue p) as [q|maxsize items|r]; simpl.
  - by destruct lr.
  - by destruct (queue_full _ _).
  - done.
Qed.

Lemma ts_after_put_keeps_flag (d : string) (w : World ThreadSafeSpanProcessor) :
  suppressed (ts_after_put d w) = suppressed w.
Proof.
  unfold ts_after_put. destruct w as [p l lr s out]. simpl.
  destruct (ts_queue p) as [q|maxsize items|r]; simpl.
  - by destruct lr.
  - by destruct (queue_full _ _).
  - done.
Qed.

Lemma ts_after_put_stdout (d : string) (w : World ThreadSafeSpanProcessor) :
  stdout (ts_after_put d w) = stdout w.
Proof.
  unfold ts_after_put. destruct w as [p l lr s out]. simpl.
  destruct (ts_queue p) as [q|maxsize items|r]; simpl.
  - by destruct lr.
  - by destruct (queue_full _ _).
  - done.
Qed.

Lemma with_log_suppressed {P} (b : bool) (l : list LogRecord) (w : World P) :
  with_log l (set_suppressed b w) = set_suppressed b (with_log l w).
Proof. done. Qed.

Lemma with_proc_suppressed {P} (b : bool) (f : P -> P) (w : World P) :
  with_proc f (set_suppressed b w) = set_suppressed b (with_proc f w).
Proof. done. Qed.

Lemma ts_tracked_suppressed (b : bool) (span : Span) (pc : option Context)
    (w : World ThreadSafeSpanProcessor) :
  ts_tracked span pc (set_suppressed b w) = set_suppressed b (ts_tracked span pc w).
Proof. done. Qed.

Create Rewrite HintDb flag_out.
#[local] Hint Rewrite @with_log_suppressed @with_proc_suppressed
  ts_after_put_suppressed ts_tracked_suppressed : flag_out.

Lemma set_suppressed_same {P} (w : World P) : set_suppressed (suppressed w) w = w.
Proof. by destruct w. Qed.

Lemma set_suppressed_twice {P} (a b : bool) (w : World P) :
  set_suppressed a (set_suppressed b w) = set_suppressed a w.
Proof. done. Qed.

(** The two handlers of [except Exception] commute with the flag. *)
Lemma except_logged_suppressed {P} (b : bool) (e : PyExc) (l : list LogRecord)
    (w : World P) :
  except_exception e (logged l) (set_suppressed b w) =
    (fst (except_exception e (logged l) w),
     set_suppressed b (snd (except_exception e (logged l) w))).
Proof. unfold except_exception, logged, raise. by destruct (exc_is_exception e). Qed.

Lemma except_start_suppressed (b : bool) (e : PyExc) (w : World ThreadSafeSpanProcessor) :
  except_exception e (ts_start_handler e) (set_suppressed b w) =
    (fst (except_exception e (ts_start_handler e) w),
     set_suppressed b (snd (except_exception e (ts_start_handler e) w))).
Proof. unfold except_exception, ts_start_handler, raise. by destruct (exc_is_exception e). Qed.

Lemma except_logged_keeps_flag {P} (e : PyExc) (l : list LogRecord) (w : World P) :
  suppressed (snd (except_exception e (logged l) w)) = suppressed w.
Proof. unfold except_exception, logged, raise. by destruct (exc_is_exception e). Qed.

Lemma except_start_keeps_flag (e : PyExc) (w : World ThreadSafeSpanProcessor) :
  suppressed (snd (except_exception e (ts_start_handler e) w)) = suppressed w.
Proof. unfold except_exception, ts_start_handler, raise. by destruct (exc_is_exception e). Qed.

Lemma handle_start_suppressed (to_xml : FT -> string) (span : Span) (pc : option Context)
    (b : bool) (w : World ThreadSafeSpanProcessor) :
  handle_start to_xml span pc (set_suppressed b w) =
    (fst (handle_start to_xml span pc w),
     set_suppressed b (snd (handle_start to_xml span pc w))).
Proof.
  rewrite !handle_start_run. cbv zeta.
  change (proc (set_suppressed b w)) with (proc w).
  change (stdout (set_suppressed b w)) with (stdout w).
  change (print_line (set_suppressed b w)) with (print_line w).
  autorewrite with flag_out.
  destruct (stdout w (start_message span)); [|apply except_start_suppressed].
  destruct (print_line w _); [|apply except_start_suppressed].
  destruct (stdout w (target_message span _)); [|apply except_start_suppressed].
  destruct (check_interrupt _ _); [done|].
  destruct (render_complete_span _ _ _ _); [|apply except_start_suppressed].
  cbn [fst snd]. by autorewrite with flag_out.
Qed.

Lemma handle_end_suppressed (to_xml : FT -> string) (span : Span)
    (b : bool) (w : World ThreadSafeSpanProcessor) :
  handle_end to_xml span (set_suppressed b w) =
    (fst (handle_end to_xml span w), set_suppressed b (snd (handle_end to_xml span w))).
Proof.
  rewrite !handle_end_run. cbv zeta.
  change (proc (set_suppressed b w)) with (proc w).
  autorewrite with flag_out.
  destruct (check_interrupt _ _); [done|].
  destruct (render_header _ _); [|apply except_logged_suppressed].
  destruct (render_attributes _ _);
    [|autorewrite with flag_out; apply except_logged_suppressed].
  destruct (render_events _ _);
    [|autorewrite with flag_out; apply except_logged_suppressed].
  cbn [fst snd]. by autorewrite with flag_out.
Qed.

Lemma handle_start_keeps_flag (to_xml : FT -> string) (span : Span) (pc : option Context)
    (w : World ThreadSafeSpanProcessor) :
  suppressed (snd (handle_start to_xml span pc w)) = suppressed w.
Proof.
  rewrite handle_start_run. cbv zeta.
  destruct (stdout w (start_message span)); [|by rewrite except_start_keeps_flag].
  destruct (print_line w _); [|by rewrite except_start_keeps_flag].
  destruct (stdout w (target_message span _)); [|by rewrite except_start_keeps_flag].
  destruct (check_interrupt _ _); [done|].
  destruct (render_complete_span _ _ _ _); cbn [snd];
    by rewrite ?except_start_keeps_flag, ?ts_after_put_keeps_flag.
Qed.

Lemma handle_end_keeps_flag (to_xml : FT -> string) (span : Span)
    (w : World ThreadSafeSpanProcessor) :
  suppressed (snd (handle_end to_xml span w)) = suppressed w.
Proof.
  rewrite handle_end_run. cbv zeta.
  destruct (check_interrupt _ _); [done|].
  destruct (render_header _ _); cbn [snd]; [|by rewrite except_logged_keeps_flag].
  destruct (render_attributes _ _); cbn [snd];
    [|by rewrite except_logged_keeps_flag, ?ts_after_put_keeps_flag].
  destruct (render_events _ _); cbn [snd];
    by rewrite ?except_logged_keeps_flag, ?ts_after_put_keeps_flag.
Qed.

Lemma suppress_transparent {A} (func : M ThreadSafeSpanProcessor A)
    (w : World ThreadSafeSpanProcessor) :
  (forall b, func (set_suppressed b w) = (fst (func w), set_suppressed b (snd (func w)))) ->
  suppressed (snd (func w)) = suppressed w ->
  suppress_instrumentation func w = func w.
Proof.
  intros Hb Hk. rewrite suppress_instrumentation_run, Hb. cbn [fst snd].
  rewrite set_suppressed_twice, <- Hk, set_suppressed_same. by destruct (func w).
Qed.

Lemma ts_on_start_handle (to_xml : FT -> string) (span : Span) (pc : option Context)
    (w : World ThreadSafeSpanProcessor) :
  ts_on_start to_xml span pc w = handle_start to_xml span pc w.
Proof.
  apply suppress_transparent;
    [intros b; apply handle_start_suppressed|apply handle_start_keeps_flag].
Qed.

Lemma ts_on_end_handle (to_xml : FT -> string) (span : Span)
    (w : World ThreadSafeSpanProcessor) :
  ts_on_end to_xml span w = handle_end to_xml span w.
Proof.
  apply suppress_transparent;
    [intros b; apply handle_end_suppressed|apply handle_end_keeps_flag].
Qed.

(** With a standard output that takes every line, [_handle_start] is the
    sequence: track, select, render, put. *)
Lemma handle_start_prints (to_xml : FT -> string) (span : Span) (pc : option Context)
    (w : World ThreadSafeSpanProcessor) :
  prints_return w ->
  handle_start to_xml span pc w =
    let sid := span_id (context span) in
    let pid := resolved_parent span pc in
    let r := select_renderer (ts_renderers (proc w)) (ts_renderer (proc w)) span in
    let w1 := with_log (check_warnings (ts_renderers (proc w)) span)
                (ts_tracked span pc w) in
    match check_interrupt (ts_renderers (proc w)) span with
    | Some e => (Raise e, w1)
    | None =>
        match render_complete_span r span (span_children_id (Some sid)) (is_None pid) with
        | Ok html =>
            (Ok tt, ts_after_put
                      (start_patch to_xml html
                         (target_container pid (ts_container_id (proc w)))) w1)
        | Raise e => except_exception e (logged [start_error_ts e]) w1
        end
    end.
Proof.
  intros Hout. rewrite handle_start_run. cbv zeta.
  assert (print_line w (resolution_message span pc) = Ok tt) as ->
    by (unfold print_line; by destruct (resolution_message span pc)).
  rewrite !Hout.
  destruct (check_interrupt _ _); [done|].
  destruct (render_complete_span _ _ _ _) as [html|e]; [done|].
  unfold except_exception, ts_start_handler, logged.
  destruct (exc_is_exception e); [|done].
  f_equal. apply Hout.
Qed.
(** The part of the world that the handlers of [except Exception] leave. *)
Lemma except_logged_world {P} (e : PyExc) (l : list LogRecord) (w : World P) :
  let w' := snd (except_exception e (logged l) w) in
  proc w' = proc w /\ loop_running w' = loop_running w /\ stdout w' = stdout w /\
  log w' = log w ++ (if exc_is_exception e then l else []).
Proof.
  unfold except_exception, logged, raise. destruct (exc_is_exception e); simpl; [done|].
  by rewrite app_nil_r.
Qed.

Lemma except_start_world (e : PyExc) (w : World ThreadSafeSpanProcessor) :
  let w' := snd (except_exception e (ts_start_handler e) w) in
  proc w' = proc w /\ loop_running w' = loop_running w /\ stdout w' = stdout w /\
  log w' = log w ++ (if exc_is_exception e then [start_error_ts e] else []).
Proof.
  unfold except_exception, ts_start_handler, raise. destruct (exc_is_exception e); simpl;
    [done|]. by rewrite app_nil_r.
Qed.

Ltac world_of_except :=
  repeat match goal with
  | |- context [snd (except_exception ?e (logged ?l) ?w)] =>
      let H := fresh in
      destruct (except_logged_world e l w) as (H & _); cbv zeta in H; rewrite H; clear H
  | |- context [snd (except_exception ?e (ts_start_handler ?e) ?w)] =>
      let H := fresh in
      destruct (except_start_world e w) as (H & _); cbv zeta in H; rewrite H; clear H
  end.

Ltac tracker_of_put :=
  repeat match goal with
  | |- context [fh_after_put ?d ?x] =>
      destruct (fh_after_put_tracker d x) as (-> & -> & _)
  | |- context [ts_after_put ?d ?x] =>
      destruct (ts_after_put_tracker d x) as (-> & -> & _)
  end.

Lemma fh_on_start_tracker (to_xml : FT -> string) (span : Span) (pc : option Context)
    (w : World FastHTMLSpanProcessor) :
  fh_spans (proc (snd (fh_on_start to_xml span pc w)))
    = <[span_id (context span) := span]> (fh_spans (proc w)) /\
  fh_parent_child_map (proc (snd (fh_on_start to_xml span pc w))) =
    match resolved_parent span pc with
    | Some p => <[span_id (context span) := p]> (fh_parent_child_map (proc w))
    | None => fh_parent_child_map (proc w)
    end.
Proof.
  rewrite fh_on_start_run. cbv zeta.
  destruct (render_complete_span _ _ _ _); cbn [snd]; world_of_except; tracker_of_put;
    split; apply (fh_tracked_proc span pc w).
Qed.

(** The thread-safe processor stores the span before it prints its first
    line, and records the parent after that line. *)
Lemma ts_on_start_tracker (to_xml : FT -> string) (span : Span) (pc : option Context)
    (w : World ThreadSafeSpanProcessor) :
  ts_spans (proc (snd (ts_on_start to_xml span pc w)))
    = <[span_id (context span) := span]> (ts_spans (proc w)) /\
  ts_parent_child_map (proc (snd (ts_on_start to_xml span pc w))) =
    if returns_normally (stdout w (start_message span)) then
      match resolved_parent span pc with
      | Some p => <[span_id (context span) := p]> (ts_parent_child_map (proc w))
      | None => ts_parent_child_map (proc w)
      end
    else ts_parent_child_map (proc w).
Proof.
  rewrite ts_on_start_handle, handle_start_run. cbv zeta.
  destruct (stdout w (start_message span)); cbn [returns_normally];
    [|by world_of_except].
  destruct (print_line w _);
    [|world_of_except; split; apply (ts_tracked_proc span pc w)].
  destruct (stdout w (target_message span _));
    [|world_of_except; split; apply (ts_tracked_proc span pc w)].
  destruct (check_interrupt _ _);
    [cbn [snd proc with_log]; split; apply (ts_tracked_proc span pc w)|].
  destruct (render_complete_span _ _ _ _); cbn [snd]; world_of_except; tracker_of_put;
    cbn [proc with_log]; split; apply (ts_tracked_proc span pc w).
Qed.

Lemma fh_on_end_tracker (to_xml : FT -> string) (span : Span)
    (w : World FastHTMLSpanProcessor) :
  fh_spans (proc (snd (fh_on_end to_xml span w)))
    = <[span_id (context span) := span]> (fh_spans (proc w)) /\
  fh_parent_child_map (proc (snd (fh_on_end to_xml span w))) = fh_parent_child_map (proc w).
Proof.
  rewrite fh_on_end_run. cbv zeta.
  destruct (render_header _ _); [|by world_of_except].
  destruct (render_attributes _ _); [|by world_of_except].
  destruct (render_events _ _); [|by world_of_except].
  cbn [snd]. by tracker_of_put.
Qed.

Lemma ts_on_end_tracker (to_xml : FT -> string) (span : Span)
    (w : World ThreadSafeSpanProcessor) :
  ts_spans (proc (snd (ts_on_end to_xml span w)))
    = <[span_id (context span) := span]> (ts_spans (proc w)) /\
  ts_parent_child_map (proc (snd (ts_on_end to_xml span w))) = ts_parent_child_map (proc w).
Proof.
  rewrite ts_on_end_handle, handle_end_run. cbv zeta.
  destruct (check_interrupt _ _); [done|].
  destruct (render_header _ _); [|by world_of_except].
  destruct (render_attributes _ _); [|world_of_except; by tracker_of_put].
  destruct (render_events _ _); cbn [snd]; world_of_except; by tracker_of_put.
Qed.

(** ** C1: parent resolution *)

(** A span whose static parent reference is not a valid span context,
    started without a tracing context: neither source yields a valid
    parent, yet both processors record the identity 5 of the reference as
    its parent and render it, not as a root, into the children container
    of 5. *)
Lemma invalid_static_parent_is_used :
  is_valid (mkSpanContext 0 5) = false /\
  spec_parent orphan_span None = None /\
  fh_parent_child_map
    (proc (snd (fh_on_start sample_to_xml orphan_span None (cooperative_world true))))
    !! 2%Z = Some 5%Z /\
  ts_parent_child_map
    (proc (snd (ts_on_start sample_to_xml orphan_span None thread_safe_world)))
    !! 2%Z = Some 5%Z /\
  queue_items
    (ts_queue (proc (snd (ts_on_start sample_to_xml orphan_span None thread_safe_world))))
  = [start_patch sample_to_xml
       (default_render_complete_span sample_format_ms lower_ascii
          (DefaultSpanRenderer_init "base" None) orphan_span "span-children-2" false)
       "span-children-5"].
Proof. repeat split; vm_compute; reflexivity. Qed.

(** C1, amended.  At a span start the parent identity is the one the
    active tracing context yields (a recording span with a valid span
    context); only when the context yields none is the static parent
    reference of the span used, and it is used whenever the span carries
    one: its validity is not tested.  When the context yields none and the
    span carries no static reference, the span is recorded with no parent
    and is rendered as a root into the root container.  Both processors
    record the span under its identity and the resolved parent, if any, in
    the parent/child mapping (the thread-safe one after the first line it
    prints).  For a span as the tracer hands it over (its static parent
    reference, when present, is valid) the resolved parent is the valid
    one of the specification and is a span identity. *)
Theorem parent_resolution (to_xml : FT -> string) (span : Span) (pc : option Context) :
  let sid := span_id (context span) in
  let resolved :=
    match context_parent pc with
    | Some p => Some p
    | None => static_parent span
    end in
  (forall w : World FastHTMLSpanProcessor,
     let w' := snd (fh_on_start to_xml span pc w) in
     fh_spans (proc w') = <[sid := span]> (fh_spans (proc w)) /\
     fh_parent_child_map (proc w') =
       match resolved with
       | Some p => <[sid := p]> (fh_parent_child_map (proc w))
       | None => fh_parent_child_map (proc w)
       end) /\
  (forall w : World ThreadSafeSpanProcessor,
     let w' := snd (ts_on_start to_xml span pc w) in
     ts_spans (proc w') = <[sid := span]> (ts_spans (proc w)) /\
     (returns_normally (stdout w (start_message span)) = true ->
      ts_parent_child_map (proc w') =
        match resolved with
        | Some p => <[sid := p]> (ts_parent_child_map (proc w))
        | None => ts_parent_child_map (proc w)
        end)) /\
  (resolved = None ->
   (forall w : World FastHTMLSpanProcessor,
      fh_on_start to_xml span pc w =
        let w1 := with_proc (fh_set_span sid span) w in
        match render_complete_span (fh_renderer (proc w)) span
                (span_children_id (Some sid)) true with
        | Ok html =>
            (Ok tt, fh_after_put (start_patch to_xml html (fh_container_id (proc w))) w1)
        | Raise e => except_exception e (logged [start_error_fh span e]) w1
        end) /\
   (forall w : World ThreadSafeSpanProcessor,
      prints_return w ->
      ts_on_start to_xml span pc w =
        let w1 := with_log (check_warnings (ts_renderers (proc w)) span)
                    (with_proc (ts_set_span sid span) w) in
        match check_interrupt (ts_renderers (proc w)) span with
        | Some e => (Raise e, w1)
        | None =>
            match render_complete_span
                    (select_renderer (ts_renderers (proc w)) (ts_renderer (proc w)) span)
                    span (span_children_id (Some sid)) true with
            | Ok html =>
                (Ok tt, ts_after_put (start_patch to_xml html (ts_container_id (proc w))) w1)
            | Raise e => except_exception e (logged [start_error_ts e]) w1
            end
        end)) /\
  (static_parent_wf span ->
   resolved = spec_parent span pc /\
   forall p, resolved = Some p -> (0 < p <= 2 ^ 64 - 1)%Z).
Proof.
  intros sid resolved.
  change resolved with (resolved_parent span pc).
  split; [|split; [|split]].
  - intros w. apply fh_on_start_tracker.
  - intros w w'. destruct (ts_on_start_tracker to_xml span pc w) as [Hs Hm].
    split; [done|]. intros Hout. subst w'. by rewrite Hm, Hout.
  - intros Hp. split.
    + intros w. rewrite fh_on_start_run. cbv zeta. unfold fh_tracked. by rewrite Hp.
    + intros w Hout. rewrite ts_on_start_handle, handle_start_prints by done. cbv zeta.
      unfold ts_tracked. by rewrite Hp.
  - intros Hwf. split; [by rewrite spec_parent_resolved|].
    intros p. rewrite <- (spec_parent_resolved span pc Hwf).
    unfold spec_parent, context_parent, valid_static_parent.
    destruct pc as [c|]; [destruct (ctx_current_span c) as [s|]|].
    + destruct (is_recording s); simpl.
      * destruct (is_valid (get_span_context s)) eqn:Hv.
        -- intros [= <-]. by apply is_valid_span_id.
        -- destruct (parent span) as [sc|]; [|done].
           destruct (is_valid sc) eqn:Hs; [|done].
           intros [= <-]. by apply is_valid_span_id.
      * destruct (parent span) as [sc|]; [|done].
        destruct (is_valid sc) eqn:Hs; [|done].
        intros [= <-]. by apply is_valid_span_id.
    + destruct (parent span) as [sc|]; [|done].
      destruct (is_valid sc) eqn:Hs; [|done].
      intros [= <-]. by apply is_valid_span_id.
    + destruct (parent span) as [sc|]; [|done].
      destruct (is_valid sc) eqn:Hs; [|done].
      intros [= <-]. by apply is_valid_span_id.
Qed.

Lemma parent_resolution_witness :
  fh_parent_child_map
    (proc (snd (fh_on_start sample_to_xml child_span context_of_other
                  (cooperative_world true)))) = <[2%Z := 5%Z]> ∅ /\
  ts_parent_child_map
    (proc (snd (ts_on_start sample_to_xml child_span None thread_safe_world)))
    = <[2%Z := 1%Z]> ∅ /\
  ts_parent_child_map
    (proc (snd (ts_on_start sample_to_xml root_span None thread_safe_world))) = ∅ /\
  resolved_parent child_span None = spec_parent child_span None.
Proof.
  assert (static_parent_wf child_span) as Hwf by (intros sc [= <-]; reflexivity).
  split; [|split; [|split]].
  - destruct (parent_resolution sample_to_xml child_span context_of_other) as (Hfh & _).
    destruct (Hfh (cooperative_world true)) as [_ Hm]. exact Hm.
  - destruct (parent_resolution sample_to_xml child_span None) as (_ & Hts & _).
    destruct (Hts thread_safe_world) as [_ Hm]. exact (Hm eq_refl).
  - destruct (parent_resolution sample_to_xml root_span None) as (_ & _ & Hroot & _).
    destruct (Hroot eq_refl) as [_ Hts].
    rewrite (Hts thread_safe_world (fun _ => eq_refl)). reflexivity.
  - destruct (parent_resolution sample_to_xml child_span None) as (_ & _ & _ & Hv).
    exact (proj1 (Hv Hwf)).
Defined.

(** ** C2: the target of the start patch *)



(** ** C3: renderer selection *)


(** ** C4: the three replace patches of a span end *)

Lemma ts_accepts_same (n : nat) (w1 w2 : World ThreadSafeSpanProcessor) :
  ts_queue (proc w1) = ts_queue (proc w2) -> loop_running w1 = loop_running w2 ->
  ts_accepts n w1 = ts_accepts n w2.
Proof. unfold ts_accepts. by intros -> ->. Qed.

Lemma ts_after_put_taken (n : nat) (d : string) (w : World ThreadSafeSpanProcessor) :
  ts_accepts (S n) w = true ->
  ts_queue (proc (ts_after_put d w)) = queue_append d (ts_queue (proc w))
  /\ log (ts_after_put d w) = log w
  /\ ts_accepts n (ts_after_put d w) = true.
Proof.
  intros H. destruct (ts_after_put_accepted n d w H) as [Heq Hn].
  split; [|split; [|done]]; rewrite Heq; by destruct w.
Qed.

(** What the event loop makes of the pending [put] tasks. *)
Lemma run_puts_spec (maxsize : Z) (items puts : list string) :
  run_puts maxsize items puts =
    (items ++ take (free_places maxsize items (length puts)) puts,
     drop (free_places maxsize items (length puts)) puts).
Proof.
  revert items. induction puts as [|item later IH]; intros items.
  - simpl. rewrite take_nil, drop_nil. by rewrite app_nil_r.
  - cbn [run_puts]. unfold queue_full.
    destruct (0 <? maxsize)%Z eqn:H0; cbn [andb].
    + apply Z.ltb_lt in H0.
      destruct (maxsize <=? Z.of_nat (length items))%Z eqn:H1.
      * apply Z.leb_le in H1. unfold free_places.
        assert ((maxsize <=? 0)%Z = false) as -> by (apply Z.leb_gt; lia).
        replace (Z.to_nat (maxsize - Z.of_nat (length items))) with 0%nat by lia.
        rewrite Nat.min_0_r. simpl. by rewrite app_nil_r.
      * apply Z.leb_gt in H1. rewrite IH. unfold free_places.
        assert ((maxsize <=? 0)%Z = false) as -> by (apply Z.leb_gt; lia).
        rewrite length_app. cbn [length].
        replace (Z.to_nat (maxsize - Z.of_nat (length items)))
          with (S (Z.to_nat (maxsize - Z.of_nat (length items + 1)))) by lia.
        rewrite <- Nat.succ_min_distr. cbn [take drop]. by rewrite <- app_assoc.
    + apply Z.ltb_ge in H0. rewrite IH. unfold free_places.
      assert ((maxsize <=? 0)%Z = true) as -> by (apply Z.leb_le; lia).
      cbn [length take drop]. by rewrite <- app_assoc.
Qed.

Lemma fh_on_end_puts (to_xml : FT -> string) (span : Span)
    (w : World FastHTMLSpanProcessor) (h a ev : FT) :
  render_header (fh_renderer (proc w)) span = Ok h ->
  render_attributes (fh_renderer (proc w)) span = Ok a ->
  render_events (fh_renderer (proc w)) span = Ok ev ->
  let sid := span_id (context span) in
  snd (fh_on_end to_xml span w) =
    fh_after_put (events_patch to_xml sid ev)
      (fh_after_put (attributes_patch to_xml sid a)
         (fh_after_put (header_patch to_xml sid h) (with_proc (fh_set_span sid span) w))).
Proof. intros Hh Ha He sid. rewrite fh_on_end_run. cbv zeta. by rewrite Hh, Ha, He. Qed.

Lemma handle_end_puts (to_xml : FT -> string) (span : Span)
    (w : World ThreadSafeSpanProcessor) (h a ev : FT) :
  let r := select_renderer (ts_renderers (proc w)) (ts_renderer (proc w)) span in
  check_interrupt (ts_renderers (proc w)) span = None ->
  render_header r span = Ok h ->
  render_attributes r span = Ok a ->
  render_events r span = Ok ev ->
  let sid := span_id (context span) in
  ts_on_end to_xml span w =
    (Ok tt,
     ts_after_put (events_patch to_xml sid ev)
       (ts_after_put (attributes_patch to_xml sid a)
          (ts_after_put (header_patch to_xml sid h)
             (with_log (check_warnings (ts_renderers (proc w)) span)
                (with_proc (ts_set_span sid span) w))))).
Proof.
  intros r Hi Hh Ha He sid. rewrite ts_on_end_handle, handle_end_run. cbv zeta.
  fold r. by rewrite Hi, Hh, Ha, He.
Qed.

(** With an asyncio queue and no running loop every patch of a span end is
    dropped, although the three render calls return normally. *)
Lemma end_patches_dropped_without_loop :
  let r := fh_renderer (proc (cooperative_world false)) in
  returns_normally (render_header r root_span) = true /\
  returns_normally (render_attributes r root_span) = true /\
  returns_normally (render_events r root_span) = true /\
  fh_queue (proc (snd (fh_on_end sample_to_xml root_span (cooperative_world false))))
    = asyncio_Queue 0 /\
  log (snd (fh_on_end sample_to_xml root_span (cooperative_world false))) =
    [mkLog LException "Error queuing update: no running event loop";
     mkLog LException "Error queuing update: no running event loop";
     mkLog LException "Error queuing update: no running event loop"].
Proof. vm_compute. repeat split. Qed.

(** C4, amended.  For a span end callback in which the three render calls
    of the renderer in use return normally, exactly three replace-contents
    patches are put, targeting in order "span-header-<id>",
    "span-attributes-<id>" and "span-events-<id>", each carrying the
    fragment just rendered, whatever the fragments are (empty ones
    included).  A [queue.Queue] that is unbounded or has room for three
    holds them at once.  For an asyncio queue, with an event loop running,
    three [put] tasks are created in this order: when the loop runs the
    pending tasks, their items enter the queue in the order of creation as
    far as the queue has free places (all of them on an unbounded queue),
    and the other tasks wait.  With an asyncio queue and no running loop
    the three patches are dropped and each drop is logged. *)
Theorem end_patches (to_xml : FT -> string) (span : Span) :
  let sid := span_id (context span) in
  let replace (html : FT) (target : string) :=
    to_xml (Div [html] [("hx_swap_oob", AStr "innerHTML"); ("id", AStr target)]) in
  let patches (h a ev : FT) :=
    [replace h ("span-header-" +:+ pretty sid);
     replace a ("span-attributes-" +:+ pretty sid);
     replace ev ("span-events-" +:+ pretty sid)] in
  (forall (w : World FastHTMLSpanProcessor) (h a ev : FT),
     render_header (fh_renderer (proc w)) span = Ok h ->
     render_attributes (fh_renderer (proc w)) span = Ok a ->
     render_events (fh_renderer (proc w)) span = Ok ev ->
     let w' := snd (fh_on_end to_xml span w) in
     let q := fh_queue (proc w) in
     if loop_running w
     then fh_queue (proc w') = mkAsync (aq_maxsize q) (aq_items q)
                                 (aq_puts q ++ patches h a ev) /\
          log w' = log w
     else fh_queue (proc w') = q /\
          log w' = log w ++ [no_loop_fh; no_loop_fh; no_loop_fh]) /\
  (forall (w : World ThreadSafeSpanProcessor) (h a ev : FT),
     let r := select_renderer (ts_renderers (proc w)) (ts_renderer (proc w)) span in
     let warnings := check_warnings (ts_renderers (proc w)) span in
     let w' := snd (ts_on_end to_xml span w) in
     check_interrupt (ts_renderers (proc w)) span = None ->
     render_header r span = Ok h ->
     render_attributes r span = Ok a ->
     render_events r span = Ok ev ->
     (forall maxsize items,
        ts_queue (proc w) = SyncQueue maxsize items -> ts_accepts 3 w = true ->
        ts_queue (proc w') = SyncQueue maxsize (items ++ patches h a ev) /\
        log w' = log w ++ warnings) /\
     (forall q,
        ts_queue (proc w) = AsyncioQueue q ->
        if loop_running w
        then ts_queue (proc w') =
               AsyncioQueue (mkAsync (aq_maxsize q) (aq_items q)
                               (aq_puts q ++ patches h a ev)) /\
             log w' = log w ++ warnings
        else ts_queue (proc w') = AsyncioQueue q /\
             log w' = log w ++ warnings ++ [no_loop_ts; no_loop_ts; no_loop_ts])) /\
  (forall q : AsyncQueue,
     let done := free_places (aq_maxsize q) (aq_items q) (length (aq_puts q)) in
     loop_runs_puts q =
       mkAsync (aq_maxsize q) (aq_items q ++ take done (aq_puts q))
               (drop done (aq_puts q)) /\
     (aq_room (length (aq_puts q)) q = true ->
      loop_runs_puts q = mkAsync (aq_maxsize q) (aq_items q ++ aq_puts q) [])).
Proof.
  intros sid replace patches. split; [|split].
  - intros w h a ev Hh Ha He w' q. subst w'.
    rewrite (fh_on_end_puts to_xml span w h a ev Hh Ha He). cbv zeta.
    subst q. clear Hh Ha He. destruct w as [p l lr s out]. unfold fh_after_put.
    destruct lr; cbn [loop_running with_proc with_log proc log fh_queue
                      fh_put fh_set_span create_put_task_on aq_maxsize
                      aq_items aq_puts].
    + split; [|done]. unfold create_put_task_on. cbn [aq_maxsize aq_items aq_puts].
      by rewrite <- !app_assoc.
    + split; [done|]. by rewrite <- !app_assoc.
  - intros w h a ev r warnings w' Hi Hh Ha He. subst w'.
    rewrite (handle_end_puts to_xml span w h a ev Hi Hh Ha He). cbv zeta. cbn [snd].
    split.
    + intros maxsize items Hq Hacc.
      set (w1 := with_log _ (with_proc _ w)).
      assert (ts_accepts 3 w1 = true) as H3 by (by rewrite (ts_accepts_same 3 w1 w)).
      destruct (ts_after_put_taken 2 (header_patch to_xml (span_id (context span)) h) w1 H3)
        as (Q1 & L1 & H2).
      destruct (ts_after_put_taken 1 (attributes_patch to_xml (span_id (context span)) a)
                  _ H2) as (Q2 & L2 & H1).
      destruct (ts_after_put_taken 0 (events_patch to_xml (span_id (context span)) ev)
                  _ H1) as (Q3 & L3 & _).
      rewrite Q3, Q2, Q1, L3, L2, L1. subst w1.
      cbn [proc log with_log with_proc ts_set_span ts_queue]. rewrite Hq.
      cbn [queue_append]. by rewrite <- !app_assoc.
    + intros q Hq. clear Hi Hh Ha He. destruct w as [p l lr s out].
      cbn [proc] in Hq. unfold ts_after_put.
      destruct lr;
        repeat (cbn [loop_running with_proc with_log proc log ts_queue ts_set_queue
                     ts_set_span queue_append create_put_task_on aq_maxsize aq_items
                     aq_puts]; rewrite ?Hq).
      * split; [|done]. unfold create_put_task_on. cbn [aq_maxsize aq_items aq_puts].
        by rewrite <- !app_assoc.
      * split; [done|]. by rewrite <- !app_assoc.
  - intros q done. split.
    + unfold loop_runs_puts. by rewrite run_puts_spec.
    + intros Hroom. unfold loop_runs_puts. rewrite run_puts_spec.
      assert (free_places (aq_maxsize q) (aq_items q) (length (aq_puts q))
              = length (aq_puts q)) as ->.
      { unfold free_places, aq_room in *.
        destruct (aq_maxsize q <=? 0)%Z; [done|]. simpl in Hroom.
        apply Z.leb_le in Hroom. lia. }
      cbn [fst snd]. by rewrite take_ge, drop_ge by lia.
Qed.

Lemma end_patches_witness :
  ts_queue (proc (snd (ts_on_end sample_to_xml child_span thread_safe_world))) =
    SyncQueue 0
      [sample_to_xml
         (Div [default_render_header sample_format_ms (DefaultSpanRenderer_init "base" None)
                 child_span]
              [("hx_swap_oob", AStr "innerHTML"); ("id", AStr "span-header-2")]);
       sample_to_xml
         (Div [Div [] []]
              [("hx_swap_oob", AStr "innerHTML"); ("id", AStr "span-attributes-2")]);
       sample_to_xml
         (Div [Div [] []] [("hx_swap_oob", AStr "innerHTML"); ("id", AStr "span-events-2")])]
  /\ loop_runs_puts (mkAsync 1 [] ["header"; "attributes"; "events"])
     = mkAsync 1 ["header"] ["attributes"; "events"].
Proof.
  destruct (end_patches sample_to_xml child_span) as (_ & Hts & Hloop).
  split.
  - destruct (Hts thread_safe_world _ _ _ eq_refl eq_refl eq_refl eq_refl) as [Hsync _].
    destruct (Hsync 0%Z [] eq_refl eq_refl) as [Hq _]. rewrite Hq.
    vm_compute. reflexivity.
  - destruct (Hloop (mkAsync 1 [] ["header"; "attributes"; "events"])) as [H _].
    rewrite H. reflexivity.
Defined.
(** ** C5: a render call that raises at span end *)

Lemma ts_after_put_log (d : string) (w : World ThreadSafeSpanProcessor) :
  log (ts_after_put d w) =
    log w ++ (if ts_accepts 1 w then [] else [drop_record (ts_queue (proc w))]).
Proof.
  unfold ts_after_put, ts_accepts. destruct w as [p l lr s out]. simpl.
  destruct (ts_queue p) as [q|maxsize items|r] eqn:Hq; simpl.
  - destruct lr; simpl; [by rewrite app_nil_r|done].
  - unfold queue_full.
    replace (Z.of_nat (length items + 1)) with (Z.of_nat (length items) + 1)%Z by lia.
    destruct (0 <? maxsize)%Z eqn:H0, (maxsize <=? Z.of_nat (length items))%Z eqn:H1,
             (maxsize <=? 0)%Z eqn:H2, (Z.of_nat (length items) + 1 <=? maxsize)%Z eqn:H3;
      simpl; rewrite ?app_nil_r; try done; lia.
  - done.
Qed.

Lemma ts_accepts_after_put (n : nat) (d : string) (w : World ThreadSafeSpanProcessor) :
  ts_accepts n (ts_after_put d w) =
    if ts_accepts 1 w then ts_accepts (S n) w else ts_accepts n w.
Proof.
  unfold ts_after_put, ts_accepts. destruct w as [p l lr s out]. simpl.
  destruct (ts_queue p) as [q|maxsize items|r] eqn:Hq; simpl.
  - destruct lr; simpl; by rewrite Hq.
  - unfold queue_full.
    replace (Z.of_nat (length items + 1)) with (Z.of_nat (length items) + 1)%Z by lia.
    destruct (0 <? maxsize)%Z eqn:H0, (maxsize <=? Z.of_nat (length items))%Z eqn:H1,
             (maxsize <=? 0)%Z eqn:H2, (Z.of_nat (length items) + 1 <=? maxsize)%Z eqn:H3;
      simpl; rewrite ?Hq; simpl; rewrite ?H2; simpl; try done; try lia.
    all: rewrite length_app; simpl; f_equal; f_equal; lia.
  - by rewrite Hq.
Qed.

Lemma ts_accepts_less (n : nat) (w : World ThreadSafeSpanProcessor) :
  ts_accepts (S n) w = true -> ts_accepts n w = true.
Proof.
  unfold ts_accepts. destruct (ts_queue (proc w)) as [q|maxsize items|r]; [done| |done].
  intros H. apply orb_true_iff. apply orb_true_iff in H as [H|H]; [by left|right].
  apply Z.leb_le in H. apply Z.leb_le. lia.
Qed.

Lemma drop_record_after_put (d : string) (w : World ThreadSafeSpanProcessor) :
  drop_record (ts_queue (proc (ts_after_put d w))) = drop_record (ts_queue (proc w)).
Proof.
  unfold ts_after_put. destruct w as [p l lr s out]. simpl.
  destruct (ts_queue p) as [q|maxsize items|r] eqn:Hq; simpl.
  - destruct lr; simpl; by rewrite Hq.
  - destruct (queue_full maxsize items); simpl; by rewrite Hq.
  - by rewrite Hq.
Qed.

(** Two patches put one after the other. *)
Lemma ts_after_two_puts (d1 d2 : string) (w : World ThreadSafeSpanProcessor) :
  let w' := ts_after_put d2 (ts_after_put d1 w) in
  let dropped := drop_record (ts_queue (proc w)) in
  queue_all (ts_queue (proc w')) =
    queue_all (ts_queue (proc w))
      ++ (if ts_accepts 2 w then [d1; d2] else if ts_accepts 1 w then [d1] else []) /\
  log w' =
    log w ++ (if ts_accepts 2 w then []
              else if ts_accepts 1 w then [dropped] else [dropped; dropped]).
Proof.
  cbv zeta. rewrite !ts_after_put_all, !ts_after_put_log, drop_record_after_put.
  rewrite ts_accepts_after_put.
  destruct (ts_accepts 2 w) eqn:H2.
  - rewrite (ts_accepts_less 1 w H2). by rewrite <- !app_assoc, ?app_nil_r.
  - destruct (ts_accepts 1 w) eqn:H1; by rewrite <- !app_assoc, ?app_nil_r.
Qed.

(** When [render_header] raises, neither processor enqueues the patches of
    the attributes and of the events, although those render calls would
    return. *)
Lemma header_failure_suppresses_the_rest :
  returns_normally (render_attributes header_raises child_span) = true /\
  returns_normally (render_events header_raises child_span) = true /\
  queue_all
    (ts_queue (proc (snd (ts_on_end sample_to_xml child_span
                            (world_with_renderers [header_raises]))))) = [] /\
  aq_all (fh_queue (proc (snd (fh_on_end sample_to_xml child_span header_raises_world))))
    = [].
Proof. vm_compute. repeat split. Qed.

(** C5, amended.  When one of the three render calls of a span end raises
    an error, the error is caught and logged, the callback returns
    normally, and the render calls after the failing one are not made: no
    patch for the failing fragment or a later one is put.  The thread-safe
    processor has by then put the patches of the calls that returned, each
    of them enqueued where the queue takes it and dropped with a log record
    where it does not; the cooperative processor, which renders all three
    before it enqueues, enqueues none. *)
Theorem render_failure_ends_callback (to_xml : FT -> string) (span : Span) :
  let sid := span_id (context span) in
  (forall (w : World FastHTMLSpanProcessor) (e : PyExc),
     end_render_failure (fh_renderer (proc w)) span = Some e ->
     exc_is_exception e = true ->
     fst (fh_on_end to_xml span w) = Ok tt /\
     fh_queue (proc (snd (fh_on_end to_xml span w))) = fh_queue (proc w) /\
     log (snd (fh_on_end to_xml span w)) = log w ++ [end_error_fh span e]) /\
  (forall (w : World ThreadSafeSpanProcessor) (e : PyExc),
     let r := select_renderer (ts_renderers (proc w)) (ts_renderer (proc w)) span in
     let w' := snd (ts_on_end to_xml span w) in
     let warnings := check_warnings (ts_renderers (proc w)) span in
     let dropped := drop_record (ts_queue (proc w)) in
     check_interrupt (ts_renderers (proc w)) span = None ->
     exc_is_exception e = true ->
     (render_header r span = Raise e ->
        fst (ts_on_end to_xml span w) = Ok tt /\
        ts_queue (proc w') = ts_queue (proc w) /\
        log w' = log w ++ warnings ++ [end_error_ts e]) /\
     (forall h, render_header r span = Ok h -> render_attributes r span = Raise e ->
        fst (ts_on_end to_xml span w) = Ok tt /\
        queue_all (ts_queue (proc w')) =
          queue_all (ts_queue (proc w))
            ++ (if ts_accepts 1 w then [header_patch to_xml sid h] else []) /\
        log w' = log w ++ warnings
                   ++ (if ts_accepts 1 w then [] else [dropped])
                   ++ [end_error_ts e]) /\
     (forall h a, render_header r span = Ok h -> render_attributes r span = Ok a ->
        render_events r span = Raise e ->
        fst (ts_on_end to_xml span w) = Ok tt /\
        queue_all (ts_queue (proc w')) =
          queue_all (ts_queue (proc w))
            ++ (if ts_accepts 2 w
                then [header_patch to_xml sid h; attributes_patch to_xml sid a]
                else if ts_accepts 1 w then [header_patch to_xml sid h] else []) /\
        log w' = log w ++ warnings
                   ++ (if ts_accepts 2 w then []
                       else if ts_accepts 1 w then [dropped] else [dropped; dropped])
                   ++ [end_error_ts e])).
Proof.
  intros sid. split.
  - intros w e Hfail He. rewrite fh_on_end_run. cbv zeta.
    unfold end_render_failure in Hfail.
    destruct (render_header _ span) as [h|e1].
    2:{ injection Hfail as ->. unfold except_exception. rewrite He.
        unfold logged. cbn [fst snd]. destruct w; done. }
    destruct (render_attributes _ span) as [a|e1].
    2:{ injection Hfail as ->. unfold except_exception. rewrite He.
        unfold logged. cbn [fst snd]. destruct w; done. }
    destruct (render_events _ span) as [ev|e1]; [done|].
    injection Hfail as ->. unfold except_exception. rewrite He.
    unfold logged. cbn [fst snd]. destruct w; done.
  - intros w e r w' warnings dropped Hi He. subst w'.
    rewrite ts_on_end_handle, handle_end_run. cbv zeta. fold r warnings sid.
    rewrite Hi.
    set (w1 := with_log warnings (with_proc (ts_set_span sid span) w)).
    assert (forall n, ts_accepts n w1 = ts_accepts n w) as Hacc
      by (intros n; by apply ts_accepts_same).
    assert (ts_queue (proc w1) = ts_queue (proc w)) as Hq by done.
    assert (log w1 = log w ++ warnings) as Hl by done.
    split; [|split].
    + intros ->. unfold except_exception. rewrite He. unfold logged. cbn [fst snd proc log with_log]. rewrite Hq, Hl.
      by rewrite <- app_assoc.
    + intros h -> ->. unfold except_exception. rewrite He. unfold logged. cbn [fst snd proc log with_log].
      rewrite ts_after_put_all, ts_after_put_log, Hacc, Hq, Hl.
      by rewrite <- !app_assoc.
    + intros h a -> -> ->. unfold except_exception. rewrite He. unfold logged. cbn [fst snd proc log with_log].
      destruct (ts_after_two_puts (header_patch to_xml sid h)
                  (attributes_patch to_xml sid a) w1) as [Q L].
      rewrite Q, L, !Hacc, Hq, Hl. by rewrite <- !app_assoc.
Qed.

Lemma render_failure_ends_callback_witness :
  queue_items
    (ts_queue (proc (snd (ts_on_end sample_to_xml child_span
                            (world_with_renderers [header_raises]))))) = [] /\
  log (snd (ts_on_end sample_to_xml child_span (world_with_renderers [header_raises])))
    = [mkLog LException "Error handling span end: no header"].
Proof.
  destruct (render_failure_ends_callback sample_to_xml child_span) as [_ Hts].
  destruct (Hts (world_with_renderers [header_raises]) (mkExc "ValueError" "no header")
              eq_refl eq_refl) as (Hh & _).
  destruct (Hh eq_refl) as (_ & Hq & Hl). rewrite Hq, Hl. by vm_compute.
Defined.
(** ** C6: what the callbacks raise to the caller *)

Lemma ts_after_put_prefix (d : string) (w : World ThreadSafeSpanProcessor) :
  log w `prefix_of` log (ts_after_put d w).
Proof. rewrite ts_after_put_log. by apply prefix_app_r. Qed.

Lemma fh_after_put_prefix (d : string) (w : World FastHTMLSpanProcessor) :
  log w `prefix_of` log (fh_after_put d w).
Proof.
  unfold fh_after_put. destruct w as [p l lr s out]. simpl.
  destruct lr; simpl; [done|by apply prefix_app_r].
Qed.

Lemma with_log_prefix {P} (l : list LogRecord) (w : World P) :
  log w `prefix_of` log (with_log l w).
Proof. by apply prefix_app_r. Qed.

Lemma except_logged_prefix {P} (e : PyExc) (l : list LogRecord) (w : World P) :
  log w `prefix_of` log (snd (except_exception e (logged l) w)).
Proof.
  destruct (except_logged_world e l w) as (_ & _ & _ & ->). by apply prefix_app_r.
Qed.

Lemma except_start_prefix (e : PyExc) (w : World ThreadSafeSpanProcessor) :
  log w `prefix_of` log (snd (except_exception e (ts_start_handler e) w)).
Proof.
  destruct (except_start_world e w) as (_ & _ & _ & ->). by apply prefix_app_r.
Qed.

Lemma handle_start_log (to_xml : FT -> string) (span : Span) (pc : option Context)
    (w : World ThreadSafeSpanProcessor) :
  log w `prefix_of` log (snd (handle_start to_xml span pc w)).
Proof.
  rewrite handle_start_run. cbv zeta.
  assert (log w `prefix_of`
          log (with_log (check_warnings (ts_renderers (proc w)) span) (ts_tracked span pc w)))
    as H0 by (by apply prefix_app_r).
  destruct (stdout w (start_message span)); [|by (etrans; [|apply except_start_prefix])].
  destruct (print_line w _); [|by (etrans; [|apply except_start_prefix])].
  destruct (stdout w (target_message span _)); [|by (etrans; [|apply except_start_prefix])].
  destruct (check_interrupt _ _); [exact H0|].
  destruct (render_complete_span _ _ _ _); cbn [snd].
  - etrans; [exact H0|apply ts_after_put_prefix].
  - etrans; [exact H0|apply except_start_prefix].
Qed.

Lemma handle_end_log (to_xml : FT -> string) (span : Span)
    (w : World ThreadSafeSpanProcessor) :
  log w `prefix_of` log (snd (handle_end to_xml span w)).
Proof.
  rewrite handle_end_run. cbv zeta.
  set (w1 := with_log _ (with_proc _ w)).
  assert (log w `prefix_of` log w1) as H0 by (by apply prefix_app_r).
  destruct (check_interrupt _ _); [exact H0|].
  destruct (render_header _ _); cbn [snd];
    [|etrans; [exact H0|apply except_logged_prefix]].
  destruct (render_attributes _ _); cbn [snd];
    [|etrans; [exact H0|]; etrans; [apply ts_after_put_prefix|apply except_logged_prefix]].
  destruct (render_events _ _); cbn [snd].
  - etrans; [exact H0|]. etrans; [apply ts_after_put_prefix|].
    etrans; [apply ts_after_put_prefix|]. apply ts_after_put_prefix.
  - etrans; [exact H0|]. etrans; [apply ts_after_put_prefix|].
    etrans; [apply ts_after_put_prefix|]. apply except_logged_prefix.
Qed.

Lemma fh_on_start_log (to_xml : FT -> string) (span : Span) (pc : option Context)
    (w : World FastHTMLSpanProcessor) :
  log w `prefix_of` log (snd (fh_on_start to_xml span pc w)).
Proof.
  rewrite fh_on_start_run. cbv zeta.
  assert (log w `prefix_of` log (fh_tracked span pc w)) as H0 by done.
  destruct (render_complete_span _ _ _ _); cbn [snd].
  - etrans; [exact H0|apply fh_after_put_prefix].
  - etrans; [exact H0|apply except_logged_prefix].
Qed.

Lemma fh_on_end_log (to_xml : FT -> string) (span : Span)
    (w : World FastHTMLSpanProcessor) :
  log w `prefix_of` log (snd (fh_on_end to_xml span w)).
Proof.
  rewrite fh_on_end_run. cbv zeta.
  set (w1 := with_proc _ w).
  assert (log w `prefix_of` log w1) as H0 by done.
  destruct (render_header _ _); [|etrans; [exact H0|apply except_logged_prefix]].
  destruct (render_attributes _ _); [|etrans; [exact H0|apply except_logged_prefix]].
  destruct (render_events _ _); [|etrans; [exact H0|apply except_logged_prefix]].
  cbn [snd]. etrans; [exact H0|]. etrans; [apply fh_after_put_prefix|].
  etrans; [apply fh_after_put_prefix|]. apply fh_after_put_prefix.
Qed.

(** The result of the end callbacks, from the first failing call. *)
Lemma fh_on_end_result (to_xml : FT -> string) (span : Span)
    (w : World FastHTMLSpanProcessor) :
  fst (fh_on_end to_xml span w) =
    match end_render_failure (fh_renderer (proc w)) span with
    | Some e => if exc_is_exception e then Ok tt else Raise e
    | None => Ok tt
    end.
Proof.
  rewrite fh_on_end_run. cbv zeta. unfold end_render_failure, except_exception.
  destruct (render_header _ _) as [h|e]; [|by destruct (exc_is_exception e)].
  destruct (render_attributes _ _) as [a|e]; [|by destruct (exc_is_exception e)].
  destruct (render_events _ _) as [ev|e]; [done|by destruct (exc_is_exception e)].
Qed.

Lemma handle_end_result (to_xml : FT -> string) (span : Span)
    (w : World ThreadSafeSpanProcessor) :
  fst (handle_end to_xml span w) =
    match check_interrupt (ts_renderers (proc w)) span with
    | Some e => Raise e
    | None =>
        match end_render_failure
                (select_renderer (ts_renderers (proc w)) (ts_renderer (proc w)) span)
                span with
        | Some e => if exc_is_exception e then Ok tt else Raise e
        | None => Ok tt
        end
    end.
Proof.
  rewrite handle_end_run. cbv zeta. unfold end_render_failure, except_exception.
  destruct (check_interrupt _ _); [done|].
  destruct (render_header _ _) as [h|e]; [|by destruct (exc_is_exception e)].
  destruct (render_attributes _ _) as [a|e]; [|by destruct (exc_is_exception e)].
  destruct (render_events _ _) as [ev|e]; [done|by destruct (exc_is_exception e)].
Qed.

(** A render call that is cancelled reaches the caller of [on_end], of
    either processor, and nothing is logged. *)
Lemma cancelled_render_reaches_caller :
  fst (fh_on_end sample_to_xml child_span (cooperative_world_with header_cancelled true))
    = Raise (mkBaseExc "CancelledError" EmptyString) /\
  log (snd (fh_on_end sample_to_xml child_span
              (cooperative_world_with header_cancelled true))) = [] /\
  fst (ts_on_end sample_to_xml child_span (world_with_renderers [header_cancelled]))
    = Raise (mkBaseExc "CancelledError" EmptyString) /\
  log (snd (ts_on_end sample_to_xml child_span (world_with_renderers [header_cancelled])))
    = [].
Proof. vm_compute. repeat split. Qed.

(** C6, amended.  For every span and every input (renderer strategies whose
    render or can_render calls raise an error, that is an instance of
    [Exception]; any queue; a running event loop or none), [on_start] and
    [on_end] of the cooperative processor and [on_end] of the thread-safe
    processor return normally, and so does [on_start] of the thread-safe
    processor when its debug prints return normally: these errors are
    caught and logged.  An exception that is not an instance of [Exception]
    ([CancelledError], [KeyboardInterrupt]) raised by a render or
    can_render call is raised to the caller.  In every case the log is only
    extended and the suppression flag is restored. *)
Theorem callbacks_never_raise (to_xml : FT -> string) (span : Span) (pc : option Context) :
  let cid := span_children_id (Some (span_id (context span))) in
  let is_root := is_None (resolved_parent span pc) in
  (forall w : World ThreadSafeSpanProcessor,
     let r := select_renderer (ts_renderers (proc w)) (ts_renderer (proc w)) span in
     let interrupt := check_interrupt (ts_renderers (proc w)) span in
     (prints_return w -> interrupt = None ->
      no_base_exception (render_complete_span r span cid is_root) = true ->
      fst (ts_on_start to_xml span pc w) = Ok tt) /\
     (interrupt = None -> only_errors (end_render_failure r span) = true ->
      fst (ts_on_end to_xml span w) = Ok tt) /\
     (forall e, prints_return w ->
        interrupt = Some e \/
        (interrupt = None /\ render_complete_span r span cid is_root = Raise e /\
         exc_is_exception e = false) ->
        fst (ts_on_start to_xml span pc w) = Raise e) /\
     (forall e,
        interrupt = Some e \/
        (interrupt = None /\ end_render_failure r span = Some e /\
         exc_is_exception e = false) ->
        fst (ts_on_end to_xml span w) = Raise e) /\
     (forall e, prints_return w -> interrupt = None ->
        render_complete_span r span cid is_root = Raise e -> exc_is_exception e = true ->
        log (snd (ts_on_start to_xml span pc w)) =
          log w ++ check_warnings (ts_renderers (proc w)) span ++ [start_error_ts e]) /\
     (exists l, log (snd (ts_on_start to_xml span pc w)) = log w ++ l) /\
     (exists l, log (snd (ts_on_end to_xml span w)) = log w ++ l) /\
     suppressed (snd (ts_on_start to_xml span pc w)) = suppressed w /\
     suppressed (snd (ts_on_end to_xml span w)) = suppressed w) /\
  (forall w : World FastHTMLSpanProcessor,
     let r := fh_renderer (proc w) in
     (no_base_exception (render_complete_span r span cid is_root) = true ->
      fst (fh_on_start to_xml span pc w) = Ok tt) /\
     (only_errors (end_render_failure r span) = true ->
      fst (fh_on_end to_xml span w) = Ok tt) /\
     (forall e, render_complete_span r span cid is_root = Raise e ->
        exc_is_exception e = false ->
        fst (fh_on_start to_xml span pc w) = Raise e) /\
     (forall e, end_render_failure r span = Some e -> exc_is_exception e = false ->
        fst (fh_on_end to_xml span w) = Raise e) /\
     (forall e, render_complete_span r span cid is_root = Raise e ->
        exc_is_exception e = true ->
        log (snd (fh_on_start to_xml span pc w)) = log w ++ [start_error_fh span e]) /\
     (exists l, log (snd (fh_on_start to_xml span pc w)) = log w ++ l) /\
     (exists l, log (snd (fh_on_end to_xml span w)) = log w ++ l)).
Proof.
  intros cid is_root. split.
  - intros w r interrupt. rewrite ts_on_start_handle, ts_on_end_handle.
    repeat split.
    + intros Hout Hi Hr. rewrite (handle_start_prints _ _ _ _ Hout). cbv zeta.
      fold interrupt r cid is_root. rewrite Hi.
      destruct (render_complete_span r span cid is_root) as [html|e]; [done|].
      simpl in Hr. unfold except_exception. by rewrite Hr.
    + intros Hi Hr. rewrite handle_end_result. fold interrupt r. rewrite Hi.
      destruct (end_render_failure r span) as [e|]; [|done]. simpl in Hr. by rewrite Hr.
    + intros e Hout [Hi|(Hi & Hr & He)]; rewrite (handle_start_prints _ _ _ _ Hout);
        cbv zeta; fold interrupt r cid is_root; rewrite Hi; [done|].
      rewrite Hr. unfold except_exception. by rewrite He.
    + intros e [Hi|(Hi & Hr & He)]; rewrite handle_end_result; fold interrupt r;
        rewrite Hi; [done|]. by rewrite Hr, He.
    + intros e Hout Hi Hr He. rewrite (handle_start_prints _ _ _ _ Hout). cbv zeta.
      fold interrupt r cid is_root. rewrite Hi, Hr.
      unfold except_exception, logged. rewrite He.
      cbn [snd log with_log]. by rewrite <- app_assoc.
    + apply handle_start_log.
    + apply handle_end_log.
    + apply handle_start_keeps_flag.
    + apply handle_end_keeps_flag.
  - intros w r. repeat split.
    + intros Hr. rewrite fh_on_start_run. cbv zeta. fold r cid is_root.
      destruct (render_complete_span r span cid is_root) as [html|e]; [done|].
      simpl in Hr. unfold except_exception. by rewrite Hr.
    + intros Hr. rewrite fh_on_end_result. fold r.
      destruct (end_render_failure r span) as [e|]; [|done]. simpl in Hr. by rewrite Hr.
    + intros e Hr He. rewrite fh_on_start_run. cbv zeta. fold r cid is_root.
      rewrite Hr. unfold except_exception. by rewrite He.
    + intros e Hr He. rewrite fh_on_end_result. fold r. by rewrite Hr, He.
    + intros e Hr He. rewrite fh_on_start_run. cbv zeta. fold r cid is_root.
      rewrite Hr. unfold except_exception, logged. rewrite He.
      cbn [snd log with_log]. by destruct w.
    + apply fh_on_start_log.
    + apply fh_on_end_log.
Qed.

Lemma callbacks_never_raise_witness :
  fst (ts_on_start sample_to_xml root_span None (world_with_renderers [start_raises]))
    = Ok tt /\
  log (snd (ts_on_start sample_to_xml root_span None (world_with_renderers [start_raises])))
    = [mkLog LException "Error handling span start: no span"] /\
  fst (ts_on_end sample_to_xml child_span (world_with_renderers [header_raises])) = Ok tt /\
  fst (fh_on_end sample_to_xml child_span (cooperative_world_with header_raises false))
    = Ok tt.
Proof.
  destruct (callbacks_never_raise sample_to_xml root_span None) as (Hts & _).
  destruct (Hts (world_with_renderers [start_raises])) as (Hstart & _ & _ & _ & Hlog & _).
  destruct (callbacks_never_raise sample_to_xml child_span None) as (Hts2 & Hfh).
  destruct (Hts2 (world_with_renderers [header_raises])) as (_ & Hend & _).
  destruct (Hfh (cooperative_world_with header_raises false)) as (_ & Hfend & _).
  split; [exact (Hstart (fun _ => eq_refl) eq_refl eq_refl)|].
  split; [exact (Hlog _ (fun _ => eq_refl) eq_refl eq_refl eq_refl)|].
  split; [exact (Hend eq_refl eq_refl)|exact (Hfend eq_refl)].
Defined.
(** ** C7: the consumer loop *)

Lemma timed_iteration_run (u : bool) (now : Z) (pending : list (Z * string)) :
  timed_iteration u now pending =
    match pending with
    | (s, m) :: rest =>
        if (s <? now + BOUNDED_WAIT)%Z
        then ((Z.max now s, telemetry_event m), (Z.max now s, rest))
        else ((now + BOUNDED_WAIT, heartbeat_event),
              (now + BOUNDED_WAIT + HEARTBEAT_PAUSE, pending))%Z
    | [] => ((now + BOUNDED_WAIT, heartbeat_event),
             (now + BOUNDED_WAIT + HEARTBEAT_PAUSE, []))%Z
    end.
Proof.
  unfold timed_iteration, timed_get.
  destruct u, pending as [|[s m] rest]; try done;
    by destruct (s <? now + BOUNDED_WAIT)%Z.
Qed.

Lemma timed_generator_app (u : bool) (n k : nat) (now : Z) (pending : list (Z * string)) :
  timed_generator u (n + k) now pending =
    timed_generator u n now pending
    ++ timed_generator u k (fst (timed_state u n now pending))
         (snd (timed_state u n now pending)).
Proof.
  revert now pending. induction n as [|n IH]; intros now pending; [done|].
  cbn [Nat.add timed_generator timed_state].
  destruct (timed_iteration u now pending) as [ev [now' pending']].
  by rewrite IH.
Qed.

Lemma timed_state_app (u : bool) (n k : nat) (now : Z) (pending : list (Z * string)) :
  timed_state u (n + k) now pending =
    timed_state u k (fst (timed_state u n now pending))
      (snd (timed_state u n now pending)).
Proof.
  revert now pending. induction n as [|n IH]; intros now pending; [done|].
  cbn [Nat.add timed_state].
  destruct (timed_iteration u now pending) as [ev [now' pending']].
  by rewrite IH.
Qed.

Lemma delivered_app (a b : list SSEEvent) : delivered (a ++ b) = delivered a ++ delivered b.
Proof. unfold delivered. by rewrite filter_app, map_app. Qed.

(** The loop delivers the oldest patch, after the heartbeats of the waits
    that time out before it is put, and within one pause of its being put. *)
Lemma deliver_head (u : bool) (k : nat) :
  forall (now s : Z) (m : string) (rest : list (Z * string)),
    (now <= s + HEARTBEAT_PAUSE)%Z ->
    (s < now + BOUNDED_WAIT + (BOUNDED_WAIT + HEARTBEAT_PAUSE) * Z.of_nat k)%Z ->
    exists (n : nat) (evs : list (Z * SSEEvent)) (t : Z),
      timed_generator u n now ((s, m) :: rest) = evs /\
      timed_state u n now ((s, m) :: rest) = (t, rest) /\
      delivered (map snd evs) = [m] /\
      (s <= t <= s + HEARTBEAT_PAUSE)%Z.
Proof.
  unfold BOUNDED_WAIT, HEARTBEAT_PAUSE.
  induction k as [|k IH]; intros now s m rest Hup Hk.
  - exists 1%nat, [(Z.max now s, telemetry_event m)], (Z.max now s).
    cbn [timed_generator timed_state]. rewrite timed_iteration_run.
    unfold BOUNDED_WAIT.
    assert ((s <? now + 1000)%Z = true) as -> by (apply Z.ltb_lt; lia).
    repeat split; lia.
  - destruct (s <? now + 1000)%Z eqn:Hs.
    + exists 1%nat, [(Z.max now s, telemetry_event m)], (Z.max now s).
      cbn [timed_generator timed_state]. rewrite timed_iteration_run.
      unfold BOUNDED_WAIT. rewrite Hs.
      apply Z.ltb_lt in Hs. repeat split; lia.
    + apply Z.ltb_ge in Hs.
      destruct (IH (now + 1000 + 1000)%Z s m rest) as (n & evs & t & Hg & Hst & Hd & Ht);
        [lia|lia|].
      exists (S n), ((now + 1000, heartbeat_event)%Z :: evs), t.
      cbn [timed_generator timed_state]. rewrite timed_iteration_run.
      unfold BOUNDED_WAIT, HEARTBEAT_PAUSE.
      assert ((s <? now + 1000)%Z = false) as -> by (apply Z.ltb_ge; lia).
      rewrite Hg, Hst. repeat split; try lia. exact Hd.
Qed.

Lemma put_in_order_tail (x : Z * string) (pending : list (Z * string)) :
  put_in_order (x :: pending) = true -> put_in_order pending = true.
Proof.
  destruct x as [s m]. cbn [put_in_order].
  destruct pending as [|[s' m'] rest]; [done|]. intros H.
  by apply andb_true_iff in H as [_ H].
Qed.

Lemma loop_keeps_up_next (t s : Z) (m : string) (pending : list (Z * string)) :
  put_in_order ((s, m) :: pending) = true -> (t <= s + HEARTBEAT_PAUSE)%Z ->
  loop_keeps_up t pending = true.
Proof.
  cbn [put_in_order]. destruct pending as [|[s' m'] rest]; [done|]. intros H Ht.
  apply andb_true_iff in H as [H _]. apply Z.leb_le in H. apply Z.leb_le. lia.
Qed.

(** The loop delivers the patches in the order in which they were put, each
    within one pause of its being put. *)
Lemma deliver_all (u : bool) (before : list (Z * string)) :
  forall (now s : Z) (m : string) (rest : list (Z * string)),
    put_in_order (before ++ (s, m) :: rest) = true ->
    loop_keeps_up now (before ++ (s, m) :: rest) = true ->
    exists (n : nat) (evs : list (Z * SSEEvent)) (t : Z),
      timed_generator u n now (before ++ (s, m) :: rest) = evs /\
      timed_state u n now (before ++ (s, m) :: rest) = (t, rest) /\
      delivered (map snd evs) = map snd before ++ [m] /\
      (s <= t <= s + HEARTBEAT_PAUSE)%Z.
Proof.
  assert (forall now s : Z,
            (s < now + BOUNDED_WAIT
                 + (BOUNDED_WAIT + HEARTBEAT_PAUSE) * Z.of_nat (Z.to_nat (s - now)))%Z)
    as Hfuel by (intros; unfold BOUNDED_WAIT, HEARTBEAT_PAUSE; lia).
  induction before as [|[s0 m0] before IH]; intros now s m rest Hord Hup.
  - cbn [app] in *. apply Z.leb_le in Hup.
    exact (deliver_head u _ now s m rest Hup (Hfuel now s)).
  - cbn [app] in *. assert (now <= s0 + HEARTBEAT_PAUSE)%Z as Hup0 by (by apply Z.leb_le).
    destruct (deliver_head u _ now s0 m0 (before ++ (s, m) :: rest) Hup0 (Hfuel now s0))
      as (n0 & evs0 & t0 & Hg0 & Hst0 & Hd0 & Ht0).
    destruct (IH t0 s m rest (put_in_order_tail _ _ Hord)
                (loop_keeps_up_next t0 s0 m0 _ Hord (proj2 Ht0)))
      as (n & evs & t & Hg & Hst & Hd & Ht).
    exists (n0 + n)%nat, (evs0 ++ evs), t.
    rewrite timed_generator_app, timed_state_app, Hst0. cbn [fst snd].
    rewrite Hg0, Hg, Hst, map_app, delivered_app, Hd0, Hd. done.
Qed.

(** A telemetry event is never emitted before its patch is put. *)
Lemma telemetry_after_put (u : bool) (n : nat) :
  forall (now : Z) (pending : list (Z * string)),
    Forall (fun ev => snd ev = heartbeat_event \/
                      exists s m, (s, m) ∈ pending /\ snd ev = telemetry_event m /\
                                  (s <= fst ev)%Z)
           (timed_generator u n now pending).
Proof.
  induction n as [|n IH]; intros now pending; [by constructor|].
  cbn [timed_generator]. rewrite timed_iteration_run.
  destruct pending as [|[s m] rest].
  - constructor; [by left|apply IH].
  - destruct (s <? now + BOUNDED_WAIT)%Z.
    + constructor.
      * right. exists s, m. cbn [fst snd]. split; [apply list_elem_of_here|]. split; [done|lia].
      * eapply Forall_impl; [apply IH|]. intros ev [H|(s1 & m1 & Hin & H)]; [by left|].
        right. exists s1, m1. split; [by apply list_elem_of_further|done].
    + constructor; [by left|apply IH].
Qed.

(** A dequeued patch is sent under the event name "TelemetryEvent", not
    "telemetry"; and with patches put 1550 ms apart, at 1050 ms and at
    2600 ms of a loop started at 0, no heartbeat is emitted between the two
    puts: the loop sends its heartbeat at 1000 ms, pauses until 2000 ms and
    then delivers the two patches at 2000 ms and at 2600 ms. *)
Lemma no_heartbeat_in_idle_period :
  event (snd (fst (timed_iteration true 0 [(0%Z, "<div>patch</div>")]))) <> "telemetry" /\
  event (snd (fst (timed_iteration false 0 [(0%Z, "<div>patch</div>")]))) <> "telemetry" /\
  (forall u,
     timed_generator u 3 0 [(1050%Z, "p1"); (2600%Z, "p2")] =
       [(1000%Z, heartbeat_event); (2000%Z, telemetry_event "p1");
        (2600%Z, telemetry_event "p2")] /\
     heartbeat_within 1050 2600 (timed_generator u 3 0 [(1050%Z, "p1"); (2600%Z, "p2")])
       = false) /\
  (BOUNDED_WAIT < 2600 - 1050)%Z.
Proof.
  split; [discriminate|]. split; [discriminate|]. split; [|done].
  intros []; split; reflexivity.
Qed.

(** C7, amended.  In every iteration of the consumer loop: when a patch is
    dequeued within the bounded wait (one second), the loop emits an event
    named "TelemetryEvent" whose payload is the serialized patch; when the
    bounded wait times out with no patch available, the loop emits an
    event named "heartbeat" with an empty payload and then pauses for one
    second, so that during any idle period longer than the bounded wait
    plus this pause (two seconds) at least one heartbeat event is emitted
    before the telemetry event of the next patch. *)
Theorem consumer_loop_events (use_thread_safe_queue : bool) :
  (forall (now s : Z) (m : string) (rest : list (Z * string)),
     (s < now + BOUNDED_WAIT)%Z ->
     timed_iteration use_thread_safe_queue now ((s, m) :: rest) =
       ((Z.max now s, telemetry_event m), (Z.max now s, rest))) /\
  (forall (now : Z) (pending : list (Z * string)),
     wait_times_out now pending = true ->
     timed_iteration use_thread_safe_queue now pending =
       ((now + BOUNDED_WAIT, heartbeat_event),
        (now + BOUNDED_WAIT + HEARTBEAT_PAUSE, pending))%Z) /\
  (forall (n : nat) (now : Z) (pending : list (Z * string)),
     Forall (fun ev => snd ev = heartbeat_event \/
                       exists s m, (s, m) ∈ pending /\ snd ev = telemetry_event m /\
                                   (s <= fst ev)%Z)
            (timed_generator use_thread_safe_queue n now pending)) /\
  (forall (now s s' : Z) (m m' : string) (before later : list (Z * string)),
     let pending := before ++ (s, m) :: (s', m') :: later in
     put_in_order pending = true ->
     loop_keeps_up now pending = true ->
     (s + (BOUNDED_WAIT + HEARTBEAT_PAUSE) < s')%Z ->
     exists (n : nat) (evs : list (Z * SSEEvent)) (h : Z),
       timed_generator use_thread_safe_queue n now pending = evs ++ [(h, heartbeat_event)] /\
       delivered (map snd evs) = map snd before ++ [m] /\
       (s < h < s')%Z /\
       forall k : nat,
         timed_generator use_thread_safe_queue (n + k) now pending =
           (evs ++ [(h, heartbeat_event)])
           ++ timed_generator use_thread_safe_queue k (h + HEARTBEAT_PAUSE)
                ((s', m') :: later)).
Proof.
  split; [|split; [|split]].
  - intros now s m rest Hs. rewrite timed_iteration_run.
    by apply Z.ltb_lt in Hs as ->.
  - intros now pending Hout. rewrite timed_iteration_run.
    destruct pending as [|[s m] rest]; [done|]. cbn [wait_times_out] in Hout.
    apply Z.leb_le in Hout.
    by assert ((s <? now + BOUNDED_WAIT)%Z = false) as -> by (apply Z.ltb_ge; lia).
  - intros n now pending. apply telemetry_after_put.
  - intros now s s' m m' before later pending Hord Hup Hidle.
    destruct (deliver_all use_thread_safe_queue before now s m ((s', m') :: later)
                Hord Hup) as (n & evs & t & Hg & Hst & Hd & Ht).
    assert (timed_iteration use_thread_safe_queue t ((s', m') :: later) =
              ((t + BOUNDED_WAIT, heartbeat_event),
               (t + BOUNDED_WAIT + HEARTBEAT_PAUSE, (s', m') :: later))%Z) as Hit.
    { rewrite timed_iteration_run.
      by assert ((s' <? t + BOUNDED_WAIT)%Z = false) as -> by (apply Z.ltb_ge; lia). }
    assert (timed_generator use_thread_safe_queue (n + 1) now pending
            = evs ++ [((t + BOUNDED_WAIT)%Z, heartbeat_event)]) as Hrun.
    { rewrite timed_generator_app. fold pending in Hg, Hst. rewrite Hg, Hst.
      cbn [fst snd timed_generator]. by rewrite Hit. }
    exists (n + 1)%nat, evs, (t + BOUNDED_WAIT)%Z.
    split; [exact Hrun|]. split; [exact Hd|].
    split; [unfold BOUNDED_WAIT, HEARTBEAT_PAUSE in *; lia|].
    intros k. rewrite timed_generator_app, Hrun. f_equal.
    rewrite timed_state_app. fold pending in Hst. rewrite Hst.
    cbn [fst snd timed_state]. by rewrite Hit.
Qed.

Lemma consumer_loop_events_witness :
  timed_iteration true 0 [(400%Z, "<div>1</div>")] =
    ((400%Z, telemetry_event "<div>1</div>"), (400%Z, [])) /\
  timed_iteration false 0 [(1400%Z, "<div>1</div>")] =
    ((1000%Z, heartbeat_event), (2000%Z, [(1400%Z, "<div>1</div>")])) /\
  exists (n : nat) (evs : list (Z * SSEEvent)) (h : Z),
    timed_generator true n 0 [(1050%Z, "p1"); (3100%Z, "p2")] = evs ++ [(h, heartbeat_event)] /\
    delivered (map snd evs) = ["p1"] /\ (1050 < h < 3100)%Z.
Proof.
  destruct (consumer_loop_events true) as (Hget & _ & _ & Hidle).
  destruct (consumer_loop_events false) as (_ & Hout & _).
  split; [exact (Hget 0%Z 400%Z _ [] eq_refl)|].
  split; [exact (Hout 0%Z [(1400%Z, "<div>1</div>")] eq_refl)|].
  destruct (Hidle 0%Z 1050%Z 3100%Z "p1" "p2" [] [] eq_refl eq_refl eq_refl)
    as (n & evs & h & Hg & Hd & Hh & _).
  exists n, evs, h. split; [exact Hg|]. split; [exact Hd|exact Hh].
Defined.
(** ** C8: the initial state of a rendered span *)

Lemma starts_with_spec (a b : string) :
  starts_with a b = true <-> exists post, b = a +:+ post.
Proof.
  revert b. induction a as [|c a IH]; intros b; simpl.
  - split; [intros _; by exists b|done].
  - destruct b as [|d b]; simpl.
    + split; [done|]. by intros [post H].
    + rewrite andb_true_iff, IH. split.
      * intros [Hc [post ->]]. apply Ascii.eqb_eq in Hc as ->. by exists post.
      * intros [post [= -> ->]]. split; [apply Ascii.eqb_refl|by exists post].
Qed.

Lemma str_in_spec (a b : string) :
  str_in a b = true <-> substring_of a b.
Proof.
  unfold substring_of. induction b as [|d b IH]; simpl.
  - rewrite orb_false_r, starts_with_spec. split.
    + intros [post H]. by exists EmptyString, post.
    + intros (pre & post & H). destruct pre; simpl in H; [by exists post|done].
  - rewrite orb_true_iff, starts_with_spec, IH. split.
    + intros [[post H]|(pre & post & ->)].
      * by exists EmptyString, post.
      * by exists (String d pre), post.
    + intros (pre & post & H). destruct pre as [|c pre]; simpl in H.
      * left. by exists post.
      * right. injection H as -> ->. by exists pre, post.
Qed.

(** Two characters are the same, case ignored, when [ascii_lower] maps them
    to the same character. *)
Lemma ascii_lower_same (a b : ascii) :
  same_ignoring_case a b <-> ascii_lower a = ascii_lower b.
Proof.
  unfold same_ignoring_case, ascii_lower.
  pose proof (nat_ascii_bounded a) as Ba. pose proof (nat_ascii_bounded b) as Bb.
  destruct ((65 <=? nat_of_ascii a)%nat && (nat_of_ascii a <=? 90)%nat) eqn:Ua;
    destruct ((65 <=? nat_of_ascii b)%nat && (nat_of_ascii b <=? 90)%nat) eqn:Ub.
  all: try (apply andb_true_iff in Ua as [Ua1 Ua2];
            apply Nat.leb_le in Ua1; apply Nat.leb_le in Ua2).
  all: try (apply andb_true_iff in Ub as [Ub1 Ub2];
            apply Nat.leb_le in Ub1; apply Nat.leb_le in Ub2).
  all: try (apply andb_false_iff in Ua;
            rewrite !Nat.leb_gt in Ua).
  all: try (apply andb_false_iff in Ub;
            rewrite !Nat.leb_gt in Ub).
  all: split.
  - intros [->|[[_ H]|[_ H]]]; [done|lia|lia].
  - intros H. left. apply (f_equal nat_of_ascii) in H.
    rewrite !nat_ascii_embedding in H by lia.
    rewrite <- (ascii_nat_embedding a), <- (ascii_nat_embedding b). f_equal. lia.
  - intros [->|[[_ H]|[H _]]]; [lia| |lia].
    rewrite <- H. by rewrite ascii_nat_embedding.
  - intros H. right. left. split; [lia|]. rewrite <- H.
    rewrite nat_ascii_embedding; lia.
  - intros [->|[[H _]|[_ H]]]; [lia|lia|].
    rewrite <- H. by rewrite ascii_nat_embedding.
  - intros H. right. right. split; [lia|]. rewrite H.
    rewrite nat_ascii_embedding; lia.
  - intros [->|[[H _]|[H _]]]; [done|lia|lia].
  - intros ->. by left.
Qed.

Lemma lower_ascii_equal (s t : string) :
  equal_ignoring_case s t <-> lower_ascii s = lower_ascii t.
Proof.
  split.
  - induction 1 as [|a b s t Hab _ IH]; [done|]. simpl.
    apply ascii_lower_same in Hab. by rewrite Hab, IH.
  - revert t. induction s as [|a s IH]; intros [|b t]; simpl; try done.
    + intros _. constructor.
    + intros [= Hab Hst]. constructor; [by apply ascii_lower_same|by apply IH].
Qed.

Lemma lower_ascii_app (a b : string) :
  lower_ascii (a +:+ b) = lower_ascii a +:+ lower_ascii b.
Proof. induction a as [|c a IH]; simpl; [done|by rewrite IH]. Qed.

Lemma lower_ascii_split (s x y : string) :
  lower_ascii s = x +:+ y ->
  exists a b, s = a +:+ b /\ lower_ascii a = x /\ lower_ascii b = y.
Proof.
  revert s. induction x as [|c x IH]; intros s; simpl.
  - intros H. by exists EmptyString, s.
  - destruct s as [|d s]; simpl; [done|].
    intros [= Hc H]. destruct (IH s H) as (a & b & -> & Ha & Hb).
    exists (String d a), b. simpl. by rewrite Hc, Ha.
Qed.

(** On ASCII text the test of the code is the containment, case ignored. *)
Lemma lower_in_lower (pattern span_name : string) :
  str_in (lower_ascii pattern) (lower_ascii span_name) = true <->
  contains_ignoring_case pattern span_name.
Proof.
  rewrite str_in_spec. unfold substring_of, contains_ignoring_case. split.
  - intros (pre' & post' & H).
    apply lower_ascii_split in H as (pre & rest & -> & _ & H).
    apply lower_ascii_split in H as (mid & post & -> & Hm & _).
    exists pre, mid, post. split; [done|]. by apply lower_ascii_equal.
  - intros (pre & mid & post & -> & Hm). apply lower_ascii_equal in Hm.
    exists (lower_ascii pre), (lower_ascii post). by rewrite !lower_ascii_app, Hm.
Qed.

(** The loop over the patterns, with its [break]. *)
Lemma expand_loop_spec (str_lower : string -> string) (patterns : list string)
    (span_name : string) (is_root : bool) :
  expand_loop str_lower patterns span_name is_root = true <->
  is_root = true \/
  exists p, p ∈ patterns /\ str_in (str_lower p) (str_lower span_name) = true.
Proof.
  induction patterns as [|q patterns IH]; simpl.
  - split; [by left|]. intros [H|(p & Hp & _)]; [done|]. by apply elem_of_nil in Hp.
  - destruct (str_in (str_lower q) (str_lower span_name)) eqn:Hq.
    + split; [|done]. intros _. right. exists q. split; [apply list_elem_of_here|done].
    + rewrite IH. split.
      * intros [H|(p & Hp & Hc)]; [by left|]. right. exists p.
        split; [by apply list_elem_of_further|done].
      * intros [H|(p & Hp & Hc)]; [by left|].
        apply elem_of_cons in Hp as [->|Hp]; [congruence|]. right. by exists p.
Qed.

Lemma expand_loop_substring (str_lower : string -> string) (patterns : list string)
    (span_name : string) (is_root : bool) :
  expand_loop str_lower patterns span_name is_root = true <->
  is_root = true \/
  exists p, p ∈ patterns /\ substring_of (str_lower p) (str_lower span_name).
Proof.
  rewrite expand_loop_spec. split.
  - intros [H|(p & Hp & Hc)]; [by left|]. right. exists p. split; [done|].
    by apply str_in_spec.
  - intros [H|(p & Hp & Hc)]; [by left|]. right. exists p. split; [done|].
    by apply str_in_spec.
Qed.

Lemma expand_loop_ascii (str_lower : string -> string) (patterns : list string)
    (span_name : string) (is_root : bool) :
  lowers_ascii str_lower -> is_ascii span_name = true ->
  forallb is_ascii patterns = true ->
  expand_loop str_lower patterns span_name is_root = true <->
  is_root = true \/ exists p, p ∈ patterns /\ contains_ignoring_case p span_name.
Proof.
  intros Hlow Hname Hpatterns. rewrite expand_loop_spec, (Hlow _ Hname).
  rewrite forallb_forall in Hpatterns. split.
  - intros [H|(p & Hp & Hc)]; [by left|]. right. exists p. split; [done|].
    rewrite Hlow in Hc by (apply Hpatterns; by apply list_elem_of_In).
    by apply lower_in_lower.
  - intros [H|(p & Hp & Hc)]; [by left|]. right. exists p. split; [done|].
    rewrite Hlow by (apply Hpatterns; by apply list_elem_of_In).
    by apply lower_in_lower.
Qed.

Lemma decided_by (b : bool) (P : Prop) :
  (b = true <-> P) -> (Some b = Some true <-> P) /\ (Some b = Some false <-> ~ P).
Proof.
  intros H. destruct b.
  - assert P as HP by (by apply H).
    split; split; [done|done|intros [=]|intros Hn; contradiction].
  - assert (~ P) as Hn by (intros HP; by apply H in HP).
    split; split; [intros [=]|intros HP; contradiction|done|done].
Qed.


(** ** C9: the recorded parent is stable *)

(** C9.  The end callback of either processor replaces the stored snapshot
    of the span under its identity and leaves the whole parent/child
    mapping as it was; and over any later callbacks, ends of any span and
    starts of other spans, the parent recorded for an identity stays the
    same. *)
Theorem recorded_parent_is_stable (to_xml : FT -> string) :
  (forall (span : Span) (w : World FastHTMLSpanProcessor),
     let w' := snd (fh_on_end to_xml span w) in
     fh_parent_child_map (proc w') = fh_parent_child_map (proc w) /\
     fh_spans (proc w') = <[span_id (context span) := span]> (fh_spans (proc w))) /\
  (forall (span : Span) (w : World ThreadSafeSpanProcessor),
     let w' := snd (ts_on_end to_xml span w) in
     ts_parent_child_map (proc w') = ts_parent_child_map (proc w) /\
     ts_spans (proc w') = <[span_id (context span) := span]> (ts_spans (proc w))) /\
  (forall (sid : Z) (later : list Callback) (w : World FastHTMLSpanProcessor),
     (forall c, c ∈ later -> started_id c <> Some sid) ->
     fh_parent_child_map (proc (run_callbacks (fh_callback to_xml) later w)) !! sid
       = fh_parent_child_map (proc w) !! sid) /\
  (forall (sid : Z) (later : list Callback) (w : World ThreadSafeSpanProcessor),
     (forall c, c ∈ later -> started_id c <> Some sid) ->
     ts_parent_child_map (proc (run_callbacks (ts_callback to_xml) later w)) !! sid
       = ts_parent_child_map (proc w) !! sid).
Proof.
  split; [|split; [|split]].
  - intros span w. cbv zeta. by destruct (fh_on_end_tracker to_xml span w) as [-> ->].
  - intros span w. cbv zeta. by destruct (ts_on_end_tracker to_xml span w) as [-> ->].
  - intros sid later. induction later as [|c later IH]; intros w Hl; simpl; [done|].
    rewrite IH by (intros c' Hc'; by apply Hl, list_elem_of_further).
    assert (started_id c <> Some sid) as Hc by apply Hl, list_elem_of_here.
    destruct c as [span pc|span]; simpl in *.
    + destruct (fh_on_start_tracker to_xml span pc w) as [_ ->].
      destruct (resolved_parent span pc); [|done].
      apply lookup_insert_ne. congruence.
    + by destruct (fh_on_end_tracker to_xml span w) as [_ ->].
  - intros sid later. induction later as [|c later IH]; intros w Hl; simpl; [done|].
    rewrite IH by (intros c' Hc'; by apply Hl, list_elem_of_further).
    assert (started_id c <> Some sid) as Hc by apply Hl, list_elem_of_here.
    destruct c as [span pc|span]; simpl in *.
    + destruct (ts_on_start_tracker to_xml span pc w) as [_ ->].
      destruct (returns_normally _); [|done].
      destruct (resolved_parent span pc); [|done].
      apply lookup_insert_ne. congruence.
    + by destruct (ts_on_end_tracker to_xml span w) as [_ ->].
Qed.

Lemma recorded_parent_is_stable_witness :
  ts_parent_child_map
    (proc (run_callbacks (ts_callback sample_to_xml)
             [OnEnd child_span; OnStart root_span None; OnEnd root_span]
             (snd (ts_on_start sample_to_xml child_span context_of_root
                     thread_safe_world)))) !! 2%Z
  = Some 1%Z.
Proof.
  destruct (recorded_parent_is_stable sample_to_xml) as (_ & _ & _ & H).
  rewrite H.
  - destruct (ts_on_start_tracker sample_to_xml child_span context_of_root
                thread_safe_world) as [_ ->].
    reflexivity.
  - intros c Hc. repeat (apply elem_of_cons in Hc as [->|Hc]); try discriminate.
    by apply elem_of_nil in Hc.
Defined.

(** ** C10: the cooperative processor and the registered strategies *)

Ltac except_case e :=
  unfold except_exception, logged, raise; destruct (exc_is_exception e); done.

Lemma fh_after_put_filters (fs : list ((Span -> bool) * SpanRenderer)) (d : string)
    (w : World FastHTMLSpanProcessor) :
  fh_after_put d (with_proc (fh_set_filters fs) w)
    = with_proc (fh_set_filters fs) (fh_after_put d w).
Proof. unfold fh_after_put. destruct w as [p l lr s out]. simpl. by destruct lr. Qed.

Lemma fh_tracked_filters (fs : list ((Span -> bool) * SpanRenderer)) (span : Span)
    (pc : option Context) (w : World FastHTMLSpanProcessor) :
  fh_tracked span pc (with_proc (fh_set_filters fs) w)
    = with_proc (fh_set_filters fs) (fh_tracked span pc w).
Proof. unfold fh_tracked. by destruct (resolved_parent span pc). Qed.

(** C10.  The cooperative-queue processor renders at start and at end with
    the one renderer it was constructed with: whatever its list
    [renderer_filters] holds, the callbacks return the same result, put the
    same patches and leave the same world, the list itself and the renderer
    untouched; and [OTelStreamer.add_renderer] leaves a cooperative
    processor as it is, so the strategies registered on a streamer built
    with [use_thread_safe_queue = False] never reach it. *)
Theorem cooperative_ignores_strategies (to_xml : FT -> string) :
  (forall (span : Span) (pc : option Context) (w : World FastHTMLSpanProcessor)
          (fs : list ((Span -> bool) * SpanRenderer)),
     fh_on_start to_xml span pc (with_proc (fh_set_filters fs) w) =
       (fst (fh_on_start to_xml span pc w),
        with_proc (fh_set_filters fs) (snd (fh_on_start to_xml span pc w)))) /\
  (forall (span : Span) (w : World FastHTMLSpanProcessor)
          (fs : list ((Span -> bool) * SpanRenderer)),
     fh_on_end to_xml span (with_proc (fh_set_filters fs) w) =
       (fst (fh_on_end to_xml span w),
        with_proc (fh_set_filters fs) (snd (fh_on_end to_xml span w)))) /\
  (forall (span : Span) (pc : option Context) (w : World FastHTMLSpanProcessor),
     fh_renderer (proc (snd (fh_on_start to_xml span pc w))) = fh_renderer (proc w) /\
     fh_renderer (proc (snd (fh_on_end to_xml span w))) = fh_renderer (proc w)) /\
  (forall (format_ms : Z -> string) (str_lower : string -> string)
          (container_id endpoint : string)
          (renderer : option SpanRenderer) (registered : list SpanRenderer),
     let streamer := OTelStreamer_init format_ms str_lower container_id endpoint renderer false in
     os_processor (fold_left (fun s r => add_renderer r s) registered streamer)
       = os_processor streamer /\
     os_processor streamer =
       Cooperative (FastHTMLSpanProcessor_init format_ms str_lower (asyncio_Queue 0)
                      (Some (renderer_or_default format_ms str_lower renderer)) container_id)).
Proof.
  split; [|split; [|split]].
  - intros span pc w fs. rewrite !fh_on_start_run. cbv zeta.
    change (proc (with_proc (fh_set_filters fs) w)) with (fh_set_filters fs (proc w)).
    cbn [fh_set_filters fh_renderer fh_container_id].
    destruct (render_complete_span _ _ _ _) as [html|e]; cbn [fst snd].
    + by rewrite fh_tracked_filters, fh_after_put_filters.
    + rewrite fh_tracked_filters. except_case e.
  - intros span w fs. rewrite !fh_on_end_run. cbv zeta.
    change (proc (with_proc (fh_set_filters fs) w)) with (fh_set_filters fs (proc w)).
    cbn [fh_set_filters fh_renderer].
    destruct (render_header _ _) as [h|e]; [|except_case e].
    destruct (render_attributes _ _) as [a|e]; [|except_case e].
    destruct (render_events _ _) as [ev|e]; [|except_case e].
    cbn [fst snd].
    change (with_proc (fh_set_span (span_id (context span)) span)
              (with_proc (fh_set_filters fs) w))
      with (with_proc (fh_set_filters fs)
              (with_proc (fh_set_span (span_id (context span)) span) w)).
    by rewrite !fh_after_put_filters.
  - intros span pc w. split.
    + rewrite fh_on_start_run. cbv zeta. unfold fh_tracked, fh_after_put.
      destruct w as [p l lr s out].
      destruct (render_complete_span _ _ _ _) as [html|e], (resolved_parent span pc), lr;
        try done; except_case e.
    + rewrite fh_on_end_run. cbv zeta. unfold fh_after_put.
      destruct w as [p l lr s out].
      destruct (render_header _ _) as [h|e]; [|except_case e].
      destruct (render_attributes _ _) as [a|e]; [|except_case e].
      destruct (render_events _ _) as [ev|e]; [|except_case e].
      by destruct lr.
  - intros format_ms str_lower container_id endpoint renderer registered streamer.
    split; [|done].
    assert (forall s, hasattr_renderers (os_processor s) = false ->
              os_processor (fold_left (fun s r => add_renderer r s) registered s)
              = os_processor s) as H.
    { induction registered as [|r rs IH]; intros s Hs; simpl; [done|].
      rewrite IH; unfold add_renderer; simpl; by rewrite Hs. }
    by apply H.
Qed.

(** ** The consumer loop delivers the queue in order *)

Lemma generator_iteration_conserves (u : bool) (queue : list string) (arrived : Arrivals) :
  delivered [fst (generator_iteration u queue arrived)]
    ++ snd (generator_iteration u queue arrived) = queue ++ arrived.
Proof.
  unfold generator_iteration, delivered.
  destruct u; destruct (queue ++ arrived) as [|msg rest]; simpl; done.
Qed.

Lemma delivered_cons (ev : SSEEvent) (events : list SSEEvent) :
  delivered (ev :: events) = delivered [ev] ++ delivered events.
Proof.
  unfold delivered. simpl. rewrite !filter_cons, filter_nil.
  by destruct (decide (event ev = "TelemetryEvent")).
Qed.

Lemma telemetry_generator_conserves (use_thread_safe_queue : bool)
    (queue : list string) (iterations : list Arrivals) :
  delivered (telemetry_generator use_thread_safe_queue queue iterations)
    ++ queue_after use_thread_safe_queue queue iterations
  = queue ++ concat iterations /\
  Forall (fun ev => event ev = "TelemetryEvent" \/
                    ev = {| event := "heartbeat"; data := EmptyString |})
         (telemetry_generator use_thread_safe_queue queue iterations).
Proof.
  revert queue. induction iterations as [|arrived later IH]; intros queue; simpl.
  - split; [|done]. unfold delivered. simpl. by rewrite app_nil_r.
  - pose proof (generator_iteration_conserves use_thread_safe_queue queue arrived) as Hc.
    destruct (generator_iteration use_thread_safe_queue queue arrived) as [ev queue'] eqn:Hi.
    simpl in *. destruct (IH queue') as [IH1 IH2]. split.
    + rewrite delivered_cons, <- app_assoc, IH1, app_assoc, Hc, <- app_assoc. done.
    + constructor; [|done].
      unfold generator_iteration in Hi.
      destruct use_thread_safe_queue, (queue ++ arrived);
        simpl in Hi; injection Hi as <- _; auto.
Qed.

(** The loop in time is the loop of the iterations: erasing the times of a
    run leaves the run of the iterations in which the patch that ends a
    bounded wait is the one that arrives. *)
Lemma timed_generator_erased (u : bool) (n : nat) :
  forall (now : Z) (pending : list (Z * string)),
    map snd (timed_generator u n now pending)
      = telemetry_generator u [] (timed_arrivals u n now pending).
Proof.
  induction n as [|n IH]; intros now pending; [done|].
  cbn [timed_generator timed_arrivals].
  rewrite timed_iteration_run. unfold timed_get.
  destruct pending as [|[s m] rest].
  - cbn [fst map telemetry_generator snd]. unfold generator_iteration. cbn [app bounded_get].
    rewrite IH. by destruct u.
  - destruct (s <? now + BOUNDED_WAIT)%Z; cbn [fst map telemetry_generator snd];
      unfold generator_iteration; cbn [app bounded_get]; rewrite IH; by destruct u.
Qed.


(** X2.  Left alone (no patch arrives), the consumer loop first delivers
    the queued patches one per iteration, oldest first, and from then on
    emits heartbeats only. *)
Theorem consumer_loop_drains_then_idles (use_thread_safe_queue : bool)
    (queue : list string) (idle : nat) :
  telemetry_generator use_thread_safe_queue queue (replicate (length queue + idle) [])
  = map (fun msg => {| event := "TelemetryEvent"; data := msg |}) queue
    ++ replicate idle {| event := "heartbeat"; data := EmptyString |}.
Proof.
  induction queue as [|msg rest IH]; simpl.
  - induction idle as [|n IHn]; simpl; [done|].
    unfold generator_iteration. simpl.
    destruct use_thread_safe_queue; simpl; by rewrite IHn.
  - unfold generator_iteration. rewrite app_nil_r. simpl.
    destruct use_thread_safe_queue; simpl; by rewrite IH.
Qed.
(** ** What a sequence of callbacks does to the processor *)

Lemma ts_reach_trans (w1 w2 w3 : World ThreadSafeSpanProcessor) :
  ts_reach w1 w2 -> ts_reach w2 w3 -> ts_reach w1 w3.
Proof. intros H12 H23. induction H23; eauto using ts_reach. Qed.

Lemma fh_reach_trans (w1 w2 w3 : World FastHTMLSpanProcessor) :
  fh_reach w1 w2 -> fh_reach w2 w3 -> fh_reach w1 w3.
Proof. intros H12 H23. induction H23; eauto using fh_reach. Qed.

Lemma ts_tracked_reach (span : Span) (pc : option Context)
    (w : World ThreadSafeSpanProcessor) :
  ts_reach w (ts_tracked span pc w).
Proof.
  unfold ts_tracked. destruct (resolved_parent span pc) as [p|]; simpl.
  - apply (ts_reach_parent w (with_proc (ts_set_span (span_id (context span)) span) w)).
    + apply ts_reach_span, ts_reach_refl.
    + simpl. rewrite lookup_insert_eq. by eexists.
  - apply ts_reach_span, ts_reach_refl.
Qed.

Lemma fh_tracked_reach (span : Span) (pc : option Context)
    (w : World FastHTMLSpanProcessor) :
  fh_reach w (fh_tracked span pc w).
Proof.
  unfold fh_tracked. destruct (resolved_parent span pc) as [p|]; simpl.
  - apply (fh_reach_parent w (with_proc (fh_set_span (span_id (context span)) span) w)).
    + apply fh_reach_span, fh_reach_refl.
    + simpl. rewrite lookup_insert_eq. by eexists.
  - apply fh_reach_span, fh_reach_refl.
Qed.

Lemma ts_except_logged_reach (e : PyExc) (l : list LogRecord)
    (w w' : World ThreadSafeSpanProcessor) :
  ts_reach w w' -> ts_reach w (snd (except_exception e (logged l) w')).
Proof.
  intros H. unfold except_exception, logged, raise.
  destruct (exc_is_exception e); cbn [snd]; eauto using ts_reach.
Qed.

Lemma ts_except_start_reach (e : PyExc) (w w' : World ThreadSafeSpanProcessor) :
  ts_reach w w' -> ts_reach w (snd (except_exception e (ts_start_handler e) w')).
Proof.
  intros H. unfold except_exception, ts_start_handler, raise.
  destruct (exc_is_exception e); cbn [snd]; eauto using ts_reach.
Qed.

Lemma fh_except_logged_reach (e : PyExc) (l : list LogRecord)
    (w w' : World FastHTMLSpanProcessor) :
  fh_reach w w' -> fh_reach w (snd (except_exception e (logged l) w')).
Proof.
  intros H. unfold except_exception, logged, raise.
  destruct (exc_is_exception e); cbn [snd]; eauto using fh_reach.
Qed.

Lemma ts_callback_reach (to_xml : FT -> string) (c : Callback)
    (w : World ThreadSafeSpanProcessor) :
  ts_reach w (snd (ts_callback to_xml c w)).
Proof.
  destruct c as [span pc|span]; simpl.
  - rewrite ts_on_start_handle, handle_start_run. cbv zeta.
    destruct (stdout w (start_message span));
      [|apply ts_except_start_reach; eauto using ts_reach].
    destruct (print_line w _);
      [|apply ts_except_start_reach; eauto using ts_tracked_reach].
    destruct (stdout w (target_message span _));
      [|apply ts_except_start_reach; eauto using ts_tracked_reach].
    destruct (check_interrupt _ _); cbn [snd];
      [eauto using ts_reach, ts_tracked_reach|].
    destruct (render_complete_span _ _ _ _); cbn [snd];
      [eauto using ts_reach, ts_tracked_reach|].
    apply ts_except_start_reach. eauto using ts_reach, ts_tracked_reach.
  - rewrite ts_on_end_handle, handle_end_run. cbv zeta.
    destruct (check_interrupt _ _); cbn [snd]; [eauto using ts_reach|].
    destruct (render_header _ _); cbn [snd];
      [|apply ts_except_logged_reach; eauto using ts_reach].
    destruct (render_attributes _ _); cbn [snd];
      [|apply ts_except_logged_reach; eauto 6 using ts_reach].
    destruct (render_events _ _); cbn [snd];
      [|apply ts_except_logged_reach]; eauto 8 using ts_reach.
Qed.

Lemma fh_callback_reach (to_xml : FT -> string) (c : Callback)
    (w : World FastHTMLSpanProcessor) :
  fh_reach w (snd (fh_callback to_xml c w)).
Proof.
  destruct c as [span pc|span]; simpl.
  - rewrite fh_on_start_run. cbv zeta.
    destruct (render_complete_span _ _ _ _); cbn [snd];
      [|apply fh_except_logged_reach]; eauto using fh_reach, fh_tracked_reach.
  - rewrite fh_on_end_run. cbv zeta.
    destruct (render_header _ _); cbn [snd];
      [|apply fh_except_logged_reach; eauto using fh_reach].
    destruct (render_attributes _ _); cbn [snd];
      [|apply fh_except_logged_reach; eauto using fh_reach].
    destruct (render_events _ _); cbn [snd];
      [|apply fh_except_logged_reach]; eauto 8 using fh_reach.
Qed.

Lemma ts_run_reach (to_xml : FT -> string) (cs : list Callback)
    (w : World ThreadSafeSpanProcessor) :
  ts_reach w (run_callbacks (ts_callback to_xml) cs w).
Proof.
  revert w. induction cs as [|c cs IH]; intros w; simpl; [apply ts_reach_refl|].
  eapply ts_reach_trans; [apply ts_callback_reach|apply IH].
Qed.

Lemma fh_run_reach (to_xml : FT -> string) (cs : list Callback)
    (w : World FastHTMLSpanProcessor) :
  fh_reach w (run_callbacks (fh_callback to_xml) cs w).
Proof.
  revert w. induction cs as [|c cs IH]; intros w; simpl; [apply fh_reach_refl|].
  eapply fh_reach_trans; [apply fh_callback_reach|apply IH].
Qed.

Lemma ts_after_put_config (d : string) (w : World ThreadSafeSpanProcessor) :
  ts_config (ts_after_put d w) = ts_config w.
Proof.
  unfold ts_config, ts_after_put. destruct w as [p l lr s out]. simpl.
  destruct (ts_queue p) as [q|maxsize items|r] eqn:Hq; simpl.
  - destruct lr; simpl; by rewrite Hq.
  - destruct (queue_full _ _); simpl; by rewrite Hq.
  - by rewrite Hq.
Qed.

Lemma fh_after_put_config (d : string) (w : World FastHTMLSpanProcessor) :
  fh_config (fh_after_put d w) = fh_config w.
Proof. unfold fh_config, fh_after_put. destruct w as [p l lr s out]. simpl. by destruct lr. Qed.

Lemma ts_after_put_capacity (d : string) (w : World ThreadSafeSpanProcessor) :
  within_capacity (ts_queue (proc w)) ->
  within_capacity (ts_queue (proc (ts_after_put d w))).
Proof.
  unfold ts_after_put. destruct w as [p l lr s out]. simpl.
  destruct (ts_queue p) as [q|maxsize items|r] eqn:Hq; simpl.
  - destruct lr; simpl; by rewrite Hq.
  - unfold queue_full.
    destruct ((0 <? maxsize)%Z && (maxsize <=? Z.of_nat (length items))%Z) eqn:Hfull;
      simpl; rewrite Hq; simpl; [done|].
    intros Hcap Hpos. specialize (Hcap Hpos).
    apply andb_false_iff in Hfull as [H|H].
    + apply Z.ltb_ge in H. lia.
    + apply Z.leb_gt in H. rewrite length_app. simpl. lia.
  - by rewrite Hq.
Qed.

Lemma ts_after_put_parts (d : string) (w : World ThreadSafeSpanProcessor) :
  queue_items (ts_queue (proc w)) `prefix_of` queue_items (ts_queue (proc (ts_after_put d w)))
  /\ queue_puts (ts_queue (proc w)) `prefix_of`
       queue_puts (ts_queue (proc (ts_after_put d w))).
Proof.
  unfold ts_after_put. destruct w as [p l lr s out]. simpl.
  destruct (ts_queue p) as [q|maxsize items|r] eqn:Hq; simpl.
  - destruct lr; simpl; rewrite Hq; simpl; [|done]. split; [done|by apply prefix_app_r].
  - destruct (queue_full _ _); simpl; rewrite Hq; simpl; [done|].
    split; [by apply prefix_app_r|done].
  - by rewrite Hq.
Qed.

Lemma ts_reach_invariants (w w' : World ThreadSafeSpanProcessor) :
  ts_reach w w' ->
  ts_config w' = ts_config w /\
  queue_items (ts_queue (proc w)) `prefix_of` queue_items (ts_queue (proc w')) /\
  queue_puts (ts_queue (proc w)) `prefix_of` queue_puts (ts_queue (proc w')) /\
  log w `prefix_of` log w' /\
  (within_capacity (ts_queue (proc w)) -> within_capacity (ts_queue (proc w'))) /\
  dom (ts_spans (proc w)) ⊆ dom (ts_spans (proc w')) /\
  dom (ts_parent_child_map (proc w)) ⊆ dom (ts_parent_child_map (proc w')) /\
  (dom (ts_parent_child_map (proc w)) ⊆ dom (ts_spans (proc w)) ->
   dom (ts_parent_child_map (proc w')) ⊆ dom (ts_spans (proc w'))).
Proof.
  induction 1 as [|w' l H IH|w' d H IH|w' k v H IH|w' k v H IH Hk].
  - done.
  - destruct IH as (? & ? & ? & ? & ? & ? & ? & ?). repeat split; try done.
    etrans; [done|apply with_log_prefix].
  - destruct IH as (Hc & Hq & Hu & Hl & Hcap & Hs & Hp & Hps).
    destruct (ts_after_put_tracker d w') as (Es & Ep & _).
    destruct (ts_after_put_parts d w') as (Hi' & Hu').
    rewrite Es, Ep, ts_after_put_config. repeat split; try done.
    + by etrans.
    + by etrans.
    + etrans; [done|apply ts_after_put_prefix].
    + intros Hw. by apply ts_after_put_capacity, Hcap.
  - destruct IH as (Hc & Hq & Hu & Hl & Hcap & Hs & Hp & Hps). simpl.
    repeat split; try done.
    + etrans; [done|]. rewrite dom_insert_L. set_solver.
    + intros Hw. specialize (Hps Hw). rewrite dom_insert_L. set_solver.
  - destruct IH as (Hc & Hq & Hu & Hl & Hcap & Hs & Hp & Hps). simpl.
    repeat split; try done.
    + etrans; [done|]. rewrite dom_insert_L. set_solver.
    + intros Hw. specialize (Hps Hw). rewrite dom_insert_L.
      apply elem_of_dom in Hk. set_solver.
Qed.

Lemma fh_reach_invariants (w w' : World FastHTMLSpanProcessor) :
  fh_reach w w' ->
  fh_config w' = fh_config w /\
  aq_items (fh_queue (proc w')) = aq_items (fh_queue (proc w)) /\
  aq_puts (fh_queue (proc w)) `prefix_of` aq_puts (fh_queue (proc w')) /\
  log w `prefix_of` log w' /\
  dom (fh_spans (proc w)) ⊆ dom (fh_spans (proc w')) /\
  dom (fh_parent_child_map (proc w)) ⊆ dom (fh_parent_child_map (proc w')) /\
  (dom (fh_parent_child_map (proc w)) ⊆ dom (fh_spans (proc w)) ->
   dom (fh_parent_child_map (proc w')) ⊆ dom (fh_spans (proc w'))).
Proof.
  induction 1 as [|w' l H IH|w' d H IH|w' k v H IH|w' k v H IH Hk].
  - done.
  - destruct IH as (? & ? & ? & ? & ? & ? & ?). repeat split; try done.
    etrans; [done|apply with_log_prefix].
  - destruct IH as (Hc & Hq & Hu & Hl & Hs & Hp & Hps).
    destruct (fh_after_put_tracker d w') as (Es & Ep & _).
    rewrite Es, Ep, fh_after_put_config, fh_after_put_queue. repeat split; try done.
    + by destruct (loop_running w').
    + etrans; [done|]. destruct (loop_running w'); [|done]. by apply prefix_app_r.
    + etrans; [done|apply fh_after_put_prefix].
  - destruct IH as (Hc & Hq & Hu & Hl & Hs & Hp & Hps). simpl.
    repeat split; try done.
    + etrans; [done|]. rewrite dom_insert_L. set_solver.
    + intros Hw. specialize (Hps Hw). rewrite dom_insert_L. set_solver.
  - destruct IH as (Hc & Hq & Hu & Hl & Hs & Hp & Hps). simpl.
    repeat split; try done.
    + etrans; [done|]. rewrite dom_insert_L. set_solver.
    + intros Hw. specialize (Hps Hw). rewrite dom_insert_L.
      apply elem_of_dom in Hk. set_solver.
Qed.

(** X3.  The span callbacks are producers only: over any sequence of start
    and end callbacks, whatever the renderers and the prints do, the items
    already on the queue stay where they are and new items are only
    appended behind them, the [put] tasks already created on an asyncio
    queue stay and new ones are only created behind them, and the log is
    only extended.  For both processors; the cooperative processor never
    changes the items of its queue itself, it only creates [put] tasks. *)
Theorem callbacks_only_append (to_xml : FT -> string) (cs : list Callback) :
  (forall w : World ThreadSafeSpanProcessor,
     let w' := run_callbacks (ts_callback to_xml) cs w in
     queue_items (ts_queue (proc w)) `prefix_of` queue_items (ts_queue (proc w')) /\
     queue_puts (ts_queue (proc w)) `prefix_of` queue_puts (ts_queue (proc w')) /\
     log w `prefix_of` log w') /\
  (forall w : World FastHTMLSpanProcessor,
     let w' := run_callbacks (fh_callback to_xml) cs w in
     aq_items (fh_queue (proc w')) = aq_items (fh_queue (proc w)) /\
     aq_puts (fh_queue (proc w)) `prefix_of` aq_puts (fh_queue (proc w')) /\
     log w `prefix_of` log w').
Proof.
  split; intros w w'.
  - destruct (ts_reach_invariants w w' (ts_run_reach to_xml cs w))
      as (_ & ? & ? & ? & _).
    done.
  - destruct (fh_reach_invariants w w' (fh_run_reach to_xml cs w))
      as (_ & ? & ? & ? & _).
    done.
Qed.

(** X4.  No callback writes the configuration of its processor: after any
    sequence of callbacks the renderer, the container id, the registered
    strategies and the class and [maxsize] of the queue are the same; for
    the cooperative processor so are [renderer_filters] and
    [pending_updates], which therefore stay empty after the constructor. *)
Theorem callbacks_keep_configuration (to_xml : FT -> string) (cs : list Callback) :
  (forall w : World ThreadSafeSpanProcessor,
     let w' := run_callbacks (ts_callback to_xml) cs w in
     ts_renderer (proc w') = ts_renderer (proc w) /\
     ts_container_id (proc w') = ts_container_id (proc w) /\
     ts_renderers (proc w') = ts_renderers (proc w) /\
     queue_shape (ts_queue (proc w')) = queue_shape (ts_queue (proc w))) /\
  (forall w : World FastHTMLSpanProcessor,
     let w' := run_callbacks (fh_callback to_xml) cs w in
     fh_renderer (proc w') = fh_renderer (proc w) /\
     fh_container_id (proc w') = fh_container_id (proc w) /\
     fh_renderer_filters (proc w') = fh_renderer_filters (proc w) /\
     fh_pending_updates (proc w') = fh_pending_updates (proc w)) /\
  (forall (format_ms : Z -> string) (str_lower : string -> string) (queue : AsyncQueue)
          (renderer : option SpanRenderer) (container_id : string) (l : list LogRecord)
          (loop flag : bool) (out : string -> Result unit),
     let w' := run_callbacks (fh_callback to_xml) cs
                 (mkWorld (FastHTMLSpanProcessor_init format_ms str_lower queue renderer
                             container_id)
                          l loop flag out) in
     fh_renderer_filters (proc w') = [] /\ fh_pending_updates (proc w') = ∅).
Proof.
  split; [|split].
  - intros w w'.
    destruct (ts_reach_invariants w w' (ts_run_reach to_xml cs w)) as (Hc & _).
    unfold ts_config in Hc. by simplify_eq.
  - intros w w'.
    destruct (fh_reach_invariants w w' (fh_run_reach to_xml cs w)) as (Hc & _).
    unfold fh_config in Hc. by simplify_eq.
  - intros format_ms str_lower queue renderer container_id l loop flag out w'.
    destruct (fh_reach_invariants _ w' (fh_run_reach to_xml cs _)) as (Hc & _).
    unfold fh_config in Hc. by simplify_eq.
Qed.

(** X5.  A bounded [queue.Queue] is never overfilled by the thread-safe
    processor: if it holds at most [maxsize] items, it still does after any
    sequence of callbacks (a put on a full queue raises [Full], which is
    caught, and the patch is dropped). *)
Theorem bounded_queue_stays_within_capacity (to_xml : FT -> string)
    (cs : list Callback) (w : World ThreadSafeSpanProcessor)
    (maxsize : Z) (items : list string) :
  ts_queue (proc w) = SyncQueue maxsize items ->
  (0 < maxsize)%Z ->
  (Z.of_nat (length items) <= maxsize)%Z ->
  exists items',
    ts_queue (proc (run_callbacks (ts_callback to_xml) cs w)) = SyncQueue maxsize items' /\
    items `prefix_of` items' /\
    (Z.of_nat (length items') <= maxsize)%Z.
Proof.
  intros Hq Hpos Hlen.
  destruct (ts_reach_invariants w _ (ts_run_reach to_xml cs w))
    as (Hc & Hpre & _ & _ & Hcap & _).
  unfold ts_config in Hc. injection Hc as _ _ _ _ Hshape _.
  rewrite Hq in Hpre, Hcap, Hshape. simpl in *.
  destruct (ts_queue (proc (run_callbacks (ts_callback to_xml) cs w)))
    as [|maxsize' items'|]; simpl in Hshape; try discriminate.
  injection Hshape as ->. exists items'. repeat split; [done|].
  by apply Hcap.
Qed.

Lemma bounded_queue_stays_within_capacity_witness :
  exists items',
    ts_queue (proc (run_callbacks (ts_callback sample_to_xml)
                      [OnStart root_span None; OnEnd root_span]
                      (with_proc (ts_set_queue (SyncQueue 2 [])) thread_safe_world)))
      = SyncQueue 2 items' /\
    [] `prefix_of` items' /\
    (Z.of_nat (length items') <= 2)%Z.
Proof.
  apply (bounded_queue_stays_within_capacity sample_to_xml
           [OnStart root_span None; OnEnd root_span]
           (with_proc (ts_set_queue (SyncQueue 2 [])) thread_safe_world) 2 []);
    [reflexivity|lia|simpl; lia].
Defined.

Lemma ts_callback_tracks (to_xml : FT -> string) (c : Callback)
    (w : World ThreadSafeSpanProcessor) :
  callback_id c ∈ dom (ts_spans (proc (snd (ts_callback to_xml c w)))).
Proof.
  destruct c as [span pc|span]; simpl.
  - destruct (ts_on_start_tracker to_xml span pc w) as [-> _].
    rewrite dom_insert_L. set_solver.
  - destruct (ts_on_end_tracker to_xml span w) as [-> _].
    rewrite dom_insert_L. set_solver.
Qed.

Lemma fh_callback_tracks (to_xml : FT -> string) (c : Callback)
    (w : World FastHTMLSpanProcessor) :
  callback_id c ∈ dom (fh_spans (proc (snd (fh_callback to_xml c w)))).
Proof.
  destruct c as [span pc|span]; simpl.
  - destruct (fh_on_start_tracker to_xml span pc w) as [-> _].
    rewrite dom_insert_L. set_solver.
  - destruct (fh_on_end_tracker to_xml span w) as [-> _].
    rewrite dom_insert_L. set_solver.
Qed.

(** X6.  The tracker only grows: over any sequence of callbacks no span
    snapshot and no parent entry is ever removed, the span of every
    callback made is tracked afterwards, and every identity that has a
    recorded parent is itself tracked, provided this held before (as it
    does for a new processor, whose two dicts are empty). *)
Theorem tracker_only_grows (to_xml : FT -> string) (cs : list Callback) :
  (forall w : World ThreadSafeSpanProcessor,
     let w' := run_callbacks (ts_callback to_xml) cs w in
     dom (ts_spans (proc w)) ⊆ dom (ts_spans (proc w')) /\
     dom (ts_parent_child_map (proc w)) ⊆ dom (ts_parent_child_map (proc w')) /\
     (forall c, c ∈ cs -> callback_id c ∈ dom (ts_spans (proc w'))) /\
     (dom (ts_parent_child_map (proc w)) ⊆ dom (ts_spans (proc w)) ->
      dom (ts_parent_child_map (proc w')) ⊆ dom (ts_spans (proc w')))) /\
  (forall w : World FastHTMLSpanProcessor,
     let w' := run_callbacks (fh_callback to_xml) cs w in
     dom (fh_spans (proc w)) ⊆ dom (fh_spans (proc w')) /\
     dom (fh_parent_child_map (proc w)) ⊆ dom (fh_parent_child_map (proc w')) /\
     (forall c, c ∈ cs -> callback_id c ∈ dom (fh_spans (proc w'))) /\
     (dom (fh_parent_child_map (proc w)) ⊆ dom (fh_spans (proc w)) ->
      dom (fh_parent_child_map (proc w')) ⊆ dom (fh_spans (proc w')))).
Proof.
  split; intros w w'.
  - destruct (ts_reach_invariants w w' (ts_run_reach to_xml cs w))
      as (_ & _ & _ & _ & _ & Hs & Hp & Hps).
    repeat split; try done.
    subst w'. clear. revert w. induction cs as [|c0 cs IH]; intros w c Hc.
    + by apply elem_of_nil in Hc.
    + simpl. apply elem_of_cons in Hc as [->|Hc]; [|by apply IH].
      destruct (ts_reach_invariants _ _
                  (ts_run_reach to_xml cs (snd (ts_callback to_xml c0 w))))
        as (_ & _ & _ & _ & _ & Hs & _).
      apply Hs, ts_callback_tracks.
  - destruct (fh_reach_invariants w w' (fh_run_reach to_xml cs w))
      as (_ & _ & _ & _ & Hs & Hp & Hps).
    repeat split; try done.
    subst w'. clear. revert w. induction cs as [|c0 cs IH]; intros w c Hc.
    + by apply elem_of_nil in Hc.
    + simpl. apply elem_of_cons in Hc as [->|Hc]; [|by apply IH].
      destruct (fh_reach_invariants _ _
                  (fh_run_reach to_xml cs (snd (fh_callback to_xml c0 w))))
        as (_ & _ & _ & _ & Hs & _).
      apply Hs, fh_callback_tracks.
Qed.

Lemma tracker_only_grows_witness :
  let w' := run_callbacks (ts_callback sample_to_xml)
              [OnStart root_span None; OnStart child_span context_of_root;
               OnEnd child_span] thread_safe_world in
  2%Z ∈ dom (ts_spans (proc w')) /\
  dom (ts_parent_child_map (proc w')) ⊆ dom (ts_spans (proc w')).
Proof.
  destruct (tracker_only_grows sample_to_xml
              [OnStart root_span None; OnStart child_span context_of_root;
               OnEnd child_span]) as [Hts _].
  destruct (Hts thread_safe_world) as (_ & _ & Hc & Hinv).
  split.
  - apply (Hc (OnEnd child_span)). set_solver.
  - apply Hinv. simpl. set_solver.
Defined.

(** ** Counting the patches *)

Lemma select_renderer_in (rs : list SpanRenderer) (fallback : SpanRenderer) (span : Span) :
  select_renderer rs fallback span = fallback \/ select_renderer rs fallback span ∈ rs.
Proof.
  unfold select_renderer. destruct (find (accepts span) rs) as [r|] eqn:Hf; [|by left].
  right. apply find_some in Hf as [Hin _]. by apply list_elem_of_In.
Qed.

Lemma ts_unbounded_accepts (n : nat) (w : World ThreadSafeSpanProcessor) :
  ts_unbounded w = true -> ts_accepts n w = true.
Proof.
  unfold ts_unbounded, ts_accepts. destruct (ts_queue (proc w)); [done| |done].
  intros ->. done.
Qed.

Lemma ts_reach_unbounded (w w' : World ThreadSafeSpanProcessor) :
  ts_reach w w' -> ts_unbounded w' = ts_unbounded w.
Proof.
  intros H. destruct (ts_reach_invariants w w' H) as (Hc & _).
  unfold ts_config in Hc. injection Hc as _ _ _ Hl Hs _.
  unfold ts_unbounded. rewrite Hl.
  destruct (ts_queue (proc w)), (ts_queue (proc w')); simpl in Hs; by simplify_eq.
Qed.

Lemma ts_callback_count (to_xml : FT -> string) (c : Callback)
    (w : World ThreadSafeSpanProcessor) :
  prints_return w ->
  ts_unbounded w = true ->
  always_renders (ts_renderer (proc w)) ->
  Forall always_renders (ts_renderers (proc w)) ->
  (forall span, check_interrupt (ts_renderers (proc w)) span = None) ->
  length (queue_all (ts_queue (proc (snd (ts_callback to_xml c w)))))
    = length (queue_all (ts_queue (proc w))) + patches_of c.
Proof.
  intros Hout Hu Hfb Hrs Hi.
  assert (forall span, always_renders
            (select_renderer (ts_renderers (proc w)) (ts_renderer (proc w)) span)) as Hsel.
  { intros span. destruct (select_renderer_in (ts_renderers (proc w))
                             (ts_renderer (proc w)) span) as [->|Hin]; [done|].
    by apply (proj1 (Forall_forall _ _) Hrs). }
  destruct c as [span pc|span]; simpl.
  - rewrite ts_on_start_handle, (handle_start_prints _ _ _ _ Hout). cbv zeta.
    rewrite Hi.
    destruct (Hsel span span (span_children_id (Some (span_id (context span))))
                (is_None (resolved_parent span pc))) as (_ & _ & _ & Hc).
    destruct (render_complete_span _ _ _ _) as [html|]; [|done]. cbn [snd].
    rewrite ts_after_put_all, ts_tracked_accepts, ts_tracked_queue.
    rewrite (ts_unbounded_accepts 1 w Hu), length_app. done.
  - rewrite ts_on_end_handle, handle_end_run. cbv zeta. rewrite Hi.
    destruct (Hsel span span EmptyString true) as (Hh & Ha & He & _).
    destruct (render_header _ _) as [h|]; [|done].
    destruct (render_attributes _ _) as [a|]; [|done].
    destruct (render_events _ _) as [ev|]; [|done]. cbn [snd].
    set (w1 := with_log _ (with_proc _ w)).
    assert (forall n, ts_accepts n w1 = true) as Hacc.
    { intros n. rewrite (ts_accepts_same n w1 w) by done. by apply ts_unbounded_accepts. }
    rewrite !ts_after_put_all, !ts_accepts_after_put, !Hacc, !length_app.
    subst w1. simpl. lia.
Qed.

Lemma fh_callback_count (to_xml : FT -> string) (c : Callback)
    (w : World FastHTMLSpanProcessor) :
  loop_running w = true ->
  always_renders (fh_renderer (proc w)) ->
  length (aq_all (fh_queue (proc (snd (fh_callback to_xml c w)))))
    = length (aq_all (fh_queue (proc w))) + patches_of c.
Proof.
  intros Hl Hr. destruct c as [span pc|span]; simpl.
  - rewrite fh_on_start_run. cbv zeta.
    destruct (Hr span (span_children_id (Some (span_id (context span))))
                (is_None (resolved_parent span pc))) as (_ & _ & _ & Hc).
    destruct (render_complete_span _ _ _ _) as [html|]; [|done]. cbn [snd].
    rewrite fh_after_put_all.
    destruct (fh_tracked_proc span pc w) as (-> & _ & _ & ->).
    rewrite Hl, length_app. done.
  - rewrite fh_on_end_run. cbv zeta.
    destruct (Hr span EmptyString true) as (Hh & Ha & He & _).
    destruct (render_header _ _) as [h|]; [|done].
    destruct (render_attributes _ _) as [a|]; [|done].
    destruct (render_events _ _) as [ev|]; [|done]. cbn [snd].
    rewrite !fh_after_put_all.
    repeat match goal with |- context [loop_running (fh_after_put ?d ?x)] =>
      destruct (fh_after_put_tracker d x) as (_ & _ & ->) end.
    cbn [loop_running with_proc proc]. rewrite Hl, !length_app. simpl. lia.
Qed.

Lemma loop_runs_puts_all (q : AsyncQueue) : aq_all (loop_runs_puts q) = aq_all q.
Proof.
  unfold loop_runs_puts, aq_all. rewrite run_puts_spec. cbn [fst snd aq_items aq_puts].
  by rewrite <- app_assoc, take_drop.
Qed.

(** X7.  With renderers whose calls always return (and whose capability
    checks raise nothing but errors), debug prints that succeed and a queue
    that takes every put (an unbounded [queue.Queue], or an asyncio queue
    with a running loop), a sequence of callbacks puts exactly one patch
    for each start and three for each end, whatever the spans and their
    order: on a [queue.Queue] as items, on an asyncio queue as [put]
    tasks.  When the event loop runs the [put] tasks none is lost, and on
    an unbounded asyncio queue all of them complete. *)
Theorem patches_per_callback (to_xml : FT -> string) (cs : list Callback) :
  (forall w : World ThreadSafeSpanProcessor,
     prints_return w ->
     ts_unbounded w = true ->
     always_renders (ts_renderer (proc w)) ->
     Forall always_renders (ts_renderers (proc w)) ->
     (forall span, check_interrupt (ts_renderers (proc w)) span = None) ->
     length (queue_all (ts_queue (proc (run_callbacks (ts_callback to_xml) cs w))))
       = length (queue_all (ts_queue (proc w))) + sum_list (patches_of <$> cs)) /\
  (forall w : World FastHTMLSpanProcessor,
     loop_running w = true ->
     always_renders (fh_renderer (proc w)) ->
     length (aq_all (fh_queue (proc (run_callbacks (fh_callback to_xml) cs w))))
       = length (aq_all (fh_queue (proc w))) + sum_list (patches_of <$> cs)) /\
  (forall q : AsyncQueue,
     aq_all (loop_runs_puts q) = aq_all q /\
     ((aq_maxsize q <= 0)%Z -> aq_puts (loop_runs_puts q) = [])).
Proof.
  split; [|split].
  - induction cs as [|c cs IH]; intros w Hout Hu Hfb Hrs Hi; [simpl; lia|].
    cbn [run_callbacks].
    change (sum_list (patches_of <$> c :: cs))
      with (patches_of c + sum_list (patches_of <$> cs)).
    pose proof (ts_callback_reach to_xml c w) as Hreach.
    destruct (ts_reach_invariants _ _ Hreach) as (Hc & _).
    unfold ts_config in Hc. injection Hc as Hr _ Hrs' _ _ Hout'.
    rewrite IH.
    + rewrite ts_callback_count by done. lia.
    + intros text. by rewrite Hout'.
    + by rewrite (ts_reach_unbounded _ _ Hreach).
    + by rewrite Hr.
    + by rewrite Hrs'.
    + by rewrite Hrs'.
  - induction cs as [|c cs IH]; intros w Hl Hr; [simpl; lia|].
    cbn [run_callbacks].
    change (sum_list (patches_of <$> c :: cs))
      with (patches_of c + sum_list (patches_of <$> cs)).
    pose proof (fh_callback_reach to_xml c w) as Hreach.
    destruct (fh_reach_invariants _ _ Hreach) as (Hc & _).
    unfold fh_config in Hc. injection Hc as Hr' _ _ _ Hl' _.
    rewrite IH.
    + rewrite fh_callback_count by done. lia.
    + by rewrite Hl'.
    + by rewrite Hr'.
  - intros q. split; [apply loop_runs_puts_all|].
    intros Hmax. unfold loop_runs_puts. rewrite run_puts_spec. cbn [aq_puts snd].
    unfold free_places.
    assert ((aq_maxsize q <=? 0)%Z = true) as -> by (by apply Z.leb_le).
    by rewrite drop_all.
Qed.

Lemma patches_per_callback_witness :
  length (queue_items
            (ts_queue (proc (run_callbacks (ts_callback sample_to_xml)
                               [OnStart root_span None; OnStart child_span context_of_root;
                                OnEnd child_span; OnEnd root_span] thread_safe_world))))
  = 8 /\
  length (aq_all
            (fh_queue (proc (run_callbacks (fh_callback sample_to_xml)
                               [OnStart root_span None; OnEnd root_span]
                               (cooperative_world true)))))
  = 4.
Proof.
  destruct (patches_per_callback sample_to_xml
              [OnStart root_span None; OnStart child_span context_of_root;
               OnEnd child_span; OnEnd root_span]) as (Hts & _).
  destruct (patches_per_callback sample_to_xml
              [OnStart root_span None; OnEnd root_span]) as (_ & Hfh & _).
  split.
  - assert (forall q, queue_puts q = [] -> queue_items q = queue_all q) as Hsync
      by (intros q Hq; unfold queue_all; by rewrite Hq, app_nil_r).
    rewrite Hsync by reflexivity.
    rewrite (Hts thread_safe_world); [reflexivity|by intros text|reflexivity| |constructor|done].
    intros span cid is_root. repeat split.
  - rewrite (Hfh (cooperative_world true)); [reflexivity|reflexivity|].
    intros span cid is_root. repeat split.
Defined.
(** ** Identifiers *)

Lemma pretty_N_char_digit (x : N) :
  (48 <= nat_of_ascii (pretty_N_char x) <= 57)%nat.
Proof. unfold pretty_N_char. repeat case_match; vm_compute; lia. Qed.

Lemma pretty_N_go_head (x : N) (s : string) :
  (0 < x)%N -> starts_like_int (pretty_N_go x s).
Proof.
  revert s. induction (N.lt_wf_0 x) as [x _ IH]; intros s Hx.
  rewrite pretty_N_go_step by done.
  destruct (N.eq_0_gt_0_cases (x `div` 10)) as [->|Hd].
  - rewrite pretty_N_go_0. simpl. right. apply pretty_N_char_digit.
  - apply IH; [|done]. by apply N.div_lt.
Qed.

Lemma pretty_N_head (x : N) : starts_like_int (pretty x).
Proof.
  unfold pretty, pretty_N. case_decide as Hx.
  - simpl. right. vm_compute. lia.
  - apply pretty_N_go_head. lia.
Qed.

Lemma pretty_Z_head (z : Z) : starts_like_int (pretty z).
Proof.
  destruct z as [|p|p]; unfold pretty, pretty_Z.
  - simpl. right. vm_compute. lia.
  - apply pretty_N_head.
  - simpl. by left.
Qed.

Lemma pretty_Z_not_letter (z : Z) (c : ascii) (s : string) :
  (97 <= nat_of_ascii c)%nat -> pretty z <> String c s.
Proof.
  intros Hc Heq. pose proof (pretty_Z_head z) as H. rewrite Heq in H.
  simpl in H. destruct H as [->|H]; [vm_compute in Hc|]; lia.
Qed.

Lemma string_app_cons (c : ascii) (s t : string) :
  String c s +:+ t = String c (s +:+ t).
Proof. done. Qed.

Lemma string_app_nil (t : string) : EmptyString +:+ t = t.
Proof. done. Qed.

Ltac peel_strings :=
  repeat match goal with
         | H : context [String _ _ +:+ _] |- _ => rewrite string_app_cons in H
         | H : context [EmptyString +:+ _] |- _ => rewrite string_app_nil in H
         end.

Lemma role_id_inj (r1 r2 : Role) (n1 n2 : Z) :
  role_id r1 n1 = role_id r2 n2 -> r1 = r2 /\ n1 = n2.
Proof.
  intros H.
  destruct r1, r2; unfold role_id, span_children_id, span_header_id,
    span_attributes_id, span_events_id, format_int in H; peel_strings;
    try discriminate H;
    try (split; [done|]; simplify_eq; by apply (inj pretty)).
  all: exfalso; simplify_eq; peel_strings.
  all: match goal with
       | H : pretty _ = String _ _ |- _ =>
           by apply pretty_Z_not_letter in H; [|vm_compute; lia]
       | H : String _ _ = pretty _ |- _ =>
           symmetry in H; by apply pretty_Z_not_letter in H; [|vm_compute; lia]
       end.
Qed.

(** X8.  The identifiers derived from span identities never collide: two
    of them are equal only for the same role and the same identity.  So a
    patch addressed to the header, attributes, events or children container
    of one span can never reach an element of another span or of another
    role. *)
Theorem target_ids_are_injective (r1 r2 : Role) (n1 n2 : Z) :
  role_id r1 n1 = role_id r2 n2 -> r1 = r2 /\ n1 = n2.
Proof. apply role_id_inj. Qed.

Lemma target_ids_are_injective_witness :
  RoleChildren = RoleChildren /\ 12%Z = 12%Z.
Proof. apply (target_ids_are_injective RoleChildren RoleChildren 12 12). reflexivity. Defined.

(** ** The identifiers inside a rendered span *)

Lemma ids_of_elem (tag : string) (children : list FT) (attrs : list (string * AttrVal)) :
  ids_of (Elem tag children attrs) =
    match attr_lookup "id" attrs with
    | Some (AStr i) => [i]
    | _ => []
    end ++ concat (ids_of <$> children).
Proof.
  simpl. f_equal. induction children as [|c rest IH]; simpl; [done|by rewrite IH].
Qed.

Lemma ids_of_attribute_items (items : list (string * string)) :
  concat (ids_of <$>
    map (fun kv : string * string =>
           Li [ Span_ [Text (fst kv)] [("cls", AStr "text-neutral-content/70 mr-1")];
                Span_ [Text (snd kv)]
                  [("cls", AStr "font-mono text-xs text-base-content/80 break-all")] ]
              [("cls", AStr "flex text-xs py-[1px]")]) items) = [].
Proof. induction items as [|kv items IH]; simpl; [done|exact IH]. Qed.

Lemma ids_of_event_items (evs : list Event) :
  concat (ids_of <$>
    map (fun ev : Event =>
           Div [ Span_ [Text (event_name ev)] [("cls", AStr "font-medium text-xs")];
                 Span_ [Text (" @ " +:+ pretty (event_timestamp ev))]
                   [("cls", AStr "text-xs opacity-60")] ]
               [("cls", AStr "border-l-2 border-info pl-2 py-1")]) evs) = [].
Proof. induction evs as [|ev evs IH]; simpl; [done|exact IH]. Qed.

Lemma ids_of_default_attributes (self : DefaultSpanRenderer) (span : Span) :
  ids_of (default_render_attributes self span) =
    match attributes span with
    | [] => []
    | _ => [role_id RoleAttributes (span_id (context span))]
    end.
Proof.
  unfold default_render_attributes. destruct (attributes span) as [|kv items] eqn:Ha.
  - done.
  - unfold Ul. rewrite ids_of_elem, ids_of_attribute_items. done.
Qed.

Lemma ids_of_default_events (self : DefaultSpanRenderer) (span : Span) :
  ids_of (default_render_events self span) =
    match events span with
    | [] => []
    | _ => [role_id RoleEvents (span_id (context span))]
    end.
Proof.
  unfold default_render_events. destruct (events span) as [|ev evs] eqn:He.
  - done.
  - unfold Div at 1. rewrite ids_of_elem, ids_of_event_items. done.
Qed.

Lemma ids_of_default_complete (format_ms : Z -> string) (str_lower : string -> string)
    (self : DefaultSpanRenderer) (span : Span) (cid : string) (is_root : bool) :
  ids_of (default_render_complete_span format_ms str_lower self span cid is_root) =
    [role_id RoleSpan (span_id (context span));
     role_id RoleCheckbox (span_id (context span));
     role_id RoleHeader (span_id (context span));
     role_id RoleDetails (span_id (context span))]
    ++ ids_of (default_render_attributes self span)
    ++ ids_of (default_render_events self span)
    ++ [cid].
Proof.
  unfold default_render_complete_span, default_render_header, Div, Input, Label.
  rewrite !ids_of_elem. cbn [fmap list_fmap concat].
  rewrite !ids_of_elem. cbn [fmap list_fmap concat].
  rewrite !ids_of_elem. cbn [fmap list_fmap concat].
  unfold Span_. rewrite !ids_of_elem.
  cbn [fmap list_fmap concat ids_of attr_lookup find fst snd String.eqb Ascii.eqb
       Bool.eqb app].
  rewrite ?app_nil_r, <- app_assoc. done.
Qed.

(** X9.  In the fragment that the default renderer builds at a span start
    (with the children container id the processors pass), the element ids
    are pairwise distinct and are, in document order, those of the span,
    its checkbox, header and details, then the attributes and events lists
    and last the children container.  The children container and the
    header are always there; an element named "span-attributes-<id>"
    (resp. "span-events-<id>") is there only if the span has attributes
    (resp. events) when it starts: for a span that starts without them the
    fragment holds no element with the id that the end patch targets. *)
Theorem default_fragment_ids (format_ms : Z -> string) (str_lower : string -> string)
    (self : DefaultSpanRenderer) (span : Span) (is_root : bool) :
  let sid := span_id (context span) in
  let fragment :=
    default_render_complete_span format_ms str_lower self span
      (span_children_id (Some sid)) is_root in
  NoDup (ids_of fragment) /\
  span_children_id (Some sid) ∈ ids_of fragment /\
  span_header_id sid ∈ ids_of fragment /\
  (span_attributes_id sid ∈ ids_of fragment <-> attributes span <> []) /\
  (span_events_id sid ∈ ids_of fragment <-> events span <> []).
Proof.
  intros sid fragment. subst fragment.
  rewrite ids_of_default_complete, ids_of_default_attributes, ids_of_default_events.
  fold sid.
  change (span_children_id (Some sid)) with (role_id RoleChildren sid).
  change (span_header_id sid) with (role_id RoleHeader sid).
  change (span_attributes_id sid) with (role_id RoleAttributes sid).
  change (span_events_id sid) with (role_id RoleEvents sid).
  assert (forall r1 r2, role_id r1 sid = role_id r2 sid -> r1 = r2) as Hinj
    by (intros r1 r2 H; by apply role_id_inj in H as [? _]).
  assert (forall (r : Role) (rs : list Role),
            role_id r sid ∈ (fun r => role_id r sid) <$> rs <-> r ∈ rs) as Hin.
  { intros r rs. rewrite list_elem_of_fmap. split.
    - intros (r' & Heq & Hr'). by rewrite (Hinj r r' Heq).
    - intros Hr. by exists r. }
  set (rs := [RoleSpan; RoleCheckbox; RoleHeader; RoleDetails]
             ++ match attributes span with [] => [] | _ => [RoleAttributes] end
             ++ match events span with [] => [] | _ => [RoleEvents] end
             ++ [RoleChildren]).
  match goal with |- NoDup ?l /\ _ =>
    assert (l = (fun r => role_id r sid) <$> rs) as ->
      by (subst rs; by destruct (attributes span), (events span)) end.
  rewrite !Hin. subst rs. split; [|repeat split].
  - apply NoDup_fmap_2; [intros r1 r2; apply Hinj|].
    destruct (attributes span), (events span); simpl;
      repeat (apply NoDup_cons; split; [set_solver|]); apply NoDup_nil_2.
  - set_solver.
  - set_solver.
  - destruct (attributes span), (events span); set_solver.
  - destruct (attributes span), (events span); set_solver.
  - destruct (attributes span), (events span); set_solver.
  - destruct (attributes span), (events span); set_solver.
Qed.

(** ** A put enqueues or logs *)

(** X10.  [_put_in_queue] and [_queue_update] never raise and never drop a
    patch silently: either the patch is put and nothing is logged, or the
    queue is left as it is and exactly one record is logged.  A patch put
    on a [queue.Queue] is appended to its items; for a patch put on an
    asyncio queue a [put] task is created behind those already there.  The
    thread-safe processor puts exactly when its queue takes one more item
    (a [queue.Queue] that is not full, an asyncio queue with a running
    loop), the cooperative one exactly when an event loop is running.  When
    the event loop runs the [put] tasks of an asyncio queue, the item of a
    task enters the queue where there is room; on a full queue the tasks
    wait, and nothing is logged. *)
Theorem put_enqueues_or_logs :
  (forall (data : string) (w : World ThreadSafeSpanProcessor),
     let w' := snd (put_in_queue data w) in
     fst (put_in_queue data w) = Ok tt /\
     if ts_accepts 1 w
     then ts_queue (proc w') =
            match ts_queue (proc w) with
            | SyncQueue maxsize items => SyncQueue maxsize (items ++ [data])
            | AsyncioQueue q =>
                AsyncioQueue (mkAsync (aq_maxsize q) (aq_items q) (aq_puts q ++ [data]))
            | OtherQueue r => OtherQueue r
            end
          /\ log w' = log w
     else ts_queue (proc w') = ts_queue (proc w)
          /\ log w' = log w ++ [drop_record (ts_queue (proc w))]) /\
  (forall (html : string) (w : World FastHTMLSpanProcessor),
     let w' := snd (fh_queue_update html w) in
     let q := fh_queue (proc w) in
     fst (fh_queue_update html w) = Ok tt /\
     if loop_running w
     then fh_queue (proc w') = mkAsync (aq_maxsize q) (aq_items q) (aq_puts q ++ [html])
          /\ log w' = log w
     else fh_queue (proc w') = q /\ log w' = log w ++ [no_loop_fh]) /\
  (forall (q : AsyncQueue) (data : string),
     aq_puts q = [] ->
     loop_runs_puts (mkAsync (aq_maxsize q) (aq_items q) (aq_puts q ++ [data])) =
       if queue_full (aq_maxsize q) (aq_items q)
       then mkAsync (aq_maxsize q) (aq_items q) [data]
       else mkAsync (aq_maxsize q) (aq_items q ++ [data]) []).
Proof.
  split; [|split].
  - intros data w. rewrite put_in_queue_run. cbn [fst snd]. split; [done|].
    pose proof (ts_after_put_log data w) as Hl.
    unfold ts_after_put, ts_accepts in *. destruct w as [p l lr s out]. simpl in *.
    destruct (ts_queue p) as [q|maxsize items|r] eqn:Hq; simpl in *.
    + destruct lr; simpl; rewrite Hq; simpl; eauto.
    + unfold queue_full in *.
      replace (Z.of_nat (length items + 1)) with (Z.of_nat (length items) + 1)%Z in * by lia.
      destruct (0 <? maxsize)%Z eqn:H0, (maxsize <=? Z.of_nat (length items))%Z eqn:H1,
               (maxsize <=? 0)%Z eqn:H2, (Z.of_nat (length items) + 1 <=? maxsize)%Z eqn:H3;
        simpl; rewrite ?Hq; simpl; eauto; lia.
    + rewrite Hq. eauto.
  - intros html w. rewrite fh_queue_update_run. cbn [fst snd]. split; [done|].
    unfold fh_after_put. destruct w as [p l lr s out]. simpl.
    destruct lr; simpl; eauto.
  - intros q data Hq. rewrite Hq. unfold loop_runs_puts.
    cbn [aq_maxsize aq_items aq_puts app run_puts].
    by destruct (queue_full _ _).
Qed.

Lemma put_enqueues_or_logs_witness :
  loop_runs_puts (mkAsync 1 ["first"] ["second"]) = mkAsync 1 ["first"] ["second"] /\
  loop_runs_puts (mkAsync 2 ["first"] ["second"]) = mkAsync 2 ["first"; "second"] [].
Proof.
  destruct put_enqueues_or_logs as (_ & _ & Hloop).
  split.
  - exact (Hloop (mkAsync 1 ["first"] []) "second" eq_refl).
  - exact (Hloop (mkAsync 2 ["first"] []) "second" eq_refl).
Defined.

(** ** [CompactSpanRenderer] with the processors *)

(** X11.  With [CompactSpanRenderer] as the renderer in use, a span start
    never produces a patch: the call of [render_complete_span] with the
    keyword [is_root] raises [TypeError], which is logged, and the queue is
    left as it is, for every span, context and world (for the thread-safe
    processor, every world whose debug prints succeed); the span is tracked
    all the same, and its end still puts the three replace patches. *)
Theorem compact_renderer_never_displays (to_xml : FT -> string) (span : Span)
    (pc : option Context) (keyword_error : string) :
  (forall w : World FastHTMLSpanProcessor,
     fh_renderer (proc w) = compact_renderer keyword_error ->
     let w' := snd (fh_on_start to_xml span pc w) in
     fh_queue (proc w') = fh_queue (proc w) /\
     (exists e, exc_class e = "TypeError" /\ exc_str e = keyword_error /\
                log w' = log w ++ [start_error_fh span e]) /\
     fh_spans (proc w') !! span_id (context span) = Some span) /\
  (forall w : World ThreadSafeSpanProcessor,
     ts_renderer (proc w) = compact_renderer keyword_error -> ts_renderers (proc w) = [] ->
     prints_return w ->
     let w' := snd (ts_on_start to_xml span pc w) in
     ts_queue (proc w') = ts_queue (proc w) /\
     (exists e, exc_class e = "TypeError" /\ exc_str e = keyword_error /\
                log w' = log w ++ [start_error_ts e]) /\
     ts_spans (proc w') !! span_id (context span) = Some span) /\
  (forall w : World FastHTMLSpanProcessor,
     fh_renderer (proc w) = compact_renderer keyword_error -> loop_running w = true ->
     let q := fh_queue (proc w) in
     fh_queue (proc (snd (fh_on_end to_xml span w))) =
       mkAsync (aq_maxsize q) (aq_items q)
         (aq_puts q
          ++ [header_patch to_xml (span_id (context span)) (compact_render_header span);
              attributes_patch to_xml (span_id (context span)) (Div [] []);
              events_patch to_xml (span_id (context span)) (Div [] [])])).
Proof.
  split; [|split].
  - intros w Hr w'. subst w'. rewrite fh_on_start_run. cbv zeta. rewrite Hr.
    cbn [render_complete_span compact_renderer snd].
    unfold except_exception, logged. cbn [exc_is_exception mkExc snd].
    destruct (fh_tracked_proc span pc w) as (Hq & Hs & _).
    cbn [proc log with_log]. rewrite Hq, Hs, lookup_insert_eq.
    assert (log (fh_tracked span pc w) = log w) as ->
      by (unfold fh_tracked; by destruct (resolved_parent span pc)).
    split; [done|split; [|done]]. eexists. split; [|split; [|reflexivity]]; done.
  - intros w Hr Hrs Hout w'. subst w'.
    rewrite ts_on_start_handle, (handle_start_prints _ _ _ _ Hout).
    cbv zeta. rewrite Hr, Hrs.
    cbn [select_renderer find render_complete_span compact_renderer snd check_warnings
         check_interrupt].
    unfold except_exception, logged. cbn [exc_is_exception mkExc snd].
    destruct (ts_tracked_proc span pc w) as (Hq & Hs & _).
    cbn [proc log with_log]. rewrite Hq, Hs, lookup_insert_eq, app_nil_r.
    assert (log (ts_tracked span pc w) = log w) as ->
      by (unfold ts_tracked; by destruct (resolved_parent span pc)).
    split; [done|split; [|done]]. eexists. split; [|split; [|reflexivity]]; done.
  - intros w Hr Hl q. rewrite fh_on_end_run. cbv zeta. rewrite Hr.
    cbn [render_header render_attributes render_events compact_renderer snd].
    rewrite !fh_after_put_queue.
    repeat match goal with |- context [loop_running (fh_after_put ?d ?x)] =>
      destruct (fh_after_put_tracker d x) as (_ & _ & ->) end.
    cbn [loop_running with_proc proc]. rewrite Hl. unfold create_put_task_on.
    cbn [aq_maxsize aq_items aq_puts fh_queue fh_set_span]. by rewrite <- !app_assoc.
Qed.

Lemma compact_renderer_never_displays_witness :
  ts_queue (proc (snd (ts_on_start sample_to_xml root_span None
                         (with_proc (fun p => mkTS (ts_queue p)
                                       (compact_renderer "unexpected keyword argument")
                                       (ts_container_id p) (ts_spans p)
                                       (ts_parent_child_map p) (ts_renderers p))
                            thread_safe_world))))
  = SyncQueue 0 [].
Proof.
  destruct (compact_renderer_never_displays sample_to_xml root_span None
              "unexpected keyword argument") as (_ & Hts & _).
  exact (proj1 (Hts (with_proc (fun p => mkTS (ts_queue p)
                                   (compact_renderer "unexpected keyword argument")
                                   (ts_container_id p) (ts_spans p)
                                   (ts_parent_child_map p) (ts_renderers p))
                        thread_safe_world) eq_refl eq_refl (fun _ => eq_refl))).
Defined.
(** ** Registering strategies on a streamer *)

(** X12.  On a streamer built with the thread-safe queue, the strategies
    registered with [add_renderer] reach the processor in the order of
    registration: after the calls, [custom_renderers] and the processor's
    [renderers] are the list of the registered strategies, and queue,
    renderer, container id and tracker of the processor are as built. *)
Theorem add_renderer_keeps_order (format_ms : Z -> string) (str_lower : string -> string)
    (container_id endpoint : string)
    (renderer : option SpanRenderer) (registered : list SpanRenderer) :
  let streamer :=
    fold_left (fun s r => add_renderer r s) registered
      (OTelStreamer_init format_ms str_lower container_id endpoint renderer true) in
  os_custom_renderers streamer = registered /\
  os_processor streamer =
    ThreadSafe (mkTS (SyncQueue 0 []) (renderer_or_default format_ms str_lower renderer)
                  container_id ∅ ∅ registered) /\
  os_renderer streamer = renderer_or_default format_ms str_lower renderer /\
  os_container_id streamer = container_id.
Proof.
  intros streamer. subst streamer.
  assert (forall (rs : list SpanRenderer) (s : OTelStreamer) (p : ThreadSafeSpanProcessor),
            os_processor s = ThreadSafe p -> ts_renderers p = os_custom_renderers s ->
            let s' := fold_left (fun s r => add_renderer r s) rs s in
            os_custom_renderers s' = os_custom_renderers s ++ rs /\
            os_processor s' =
              ThreadSafe (mkTS (ts_queue p) (ts_renderer p) (ts_container_id p)
                            (ts_spans p) (ts_parent_child_map p)
                            (os_custom_renderers s ++ rs)) /\
            os_renderer s' = os_renderer s /\
            os_container_id s' = os_container_id s) as H.
  { induction rs as [|r rs IH]; intros s p Hp Hrs; simpl.
    - rewrite app_nil_r, Hp, <- Hrs. by destruct p.
    - edestruct (IH (add_renderer r s)) as (H1 & H2 & H3 & H4).
      + unfold add_renderer. simpl. rewrite Hp. simpl. reflexivity.
      + done.
      + rewrite H1, H2, H3, H4. simpl. by rewrite <- !app_assoc. }
  destruct (H registered
              (OTelStreamer_init format_ms str_lower container_id endpoint renderer true)
              _ eq_refl eq_refl) as (H1 & H2 & H3 & H4).
  done.
Qed.

(** ** The container and the stream agree *)

Lemma fold_add_renderer_fields (rs : list SpanRenderer) (s : OTelStreamer) :
  let s' := fold_left (fun s r => add_renderer r s) rs s in
  os_container_id s' = os_container_id s /\
  os_endpoint s' = os_endpoint s /\
  os_renderer s' = os_renderer s /\
  os_use_thread_safe_queue s' = os_use_thread_safe_queue s /\
  processor_container_id (os_processor s') = processor_container_id (os_processor s) /\
  processor_renderer (os_processor s') = processor_renderer (os_processor s).
Proof.
  revert s. induction rs as [|r rs IH]; intros s; simpl; [done|].
  destruct (IH (add_renderer r s)) as (-> & -> & -> & -> & -> & ->).
  unfold add_renderer. simpl. by destruct (os_processor s).
Qed.

(** X13.  The container that [create_container] builds and the rest of the
    streamer agree, whatever the arguments and the strategies registered:
    its [id] is the container id of the processor, which is the target of
    the patch of a root span; its [sse_connect] is the endpoint; and every
    event of the consumer loop that is not a heartbeat carries the name
    that its [sse_swap] subscribes to. *)
Theorem container_matches_stream (format_ms : Z -> string) (str_lower : string -> string)
    (container_id endpoint : string)
    (renderer : option SpanRenderer) (use_thread_safe_queue : bool)
    (registered : list SpanRenderer) (title cls : string) :
  let streamer :=
    fold_left (fun s r => add_renderer r s) registered
      (OTelStreamer_init format_ms str_lower container_id endpoint renderer use_thread_safe_queue) in
  let container := telemetry_div streamer cls in
  create_container streamer title cls !! 1%nat = Some (Some container) /\
  attr_lookup "id" (attrs_of container)
    = Some (AStr (processor_container_id (os_processor streamer))) /\
  target_container None (processor_container_id (os_processor streamer)) = container_id /\
  attr_lookup "sse_connect" (attrs_of container) = Some (AStr endpoint) /\
  (forall (queue : list string) (iterations : list Arrivals) (ev : SSEEvent),
     ev ∈ telemetry_generator (os_use_thread_safe_queue streamer) queue iterations ->
     ev = {| event := "heartbeat"; data := EmptyString |} \/
     attr_lookup "sse_swap" (attrs_of container) = Some (AStr (event ev))).
Proof.
  intros streamer container.
  destruct (fold_add_renderer_fields registered
              (OTelStreamer_init format_ms str_lower container_id endpoint renderer
                 use_thread_safe_queue)) as (Hc & He & _ & _ & Hp & _).
  fold streamer in Hc, He, Hp.
  assert (processor_container_id (os_processor streamer) = container_id) as Hpc.
  { rewrite Hp. simpl. by destruct use_thread_safe_queue. }
  split; [done|]. split.
  { subst container. unfold telemetry_div. simpl. by rewrite Hpc, Hc. }
  split; [by rewrite Hpc|]. split.
  { subst container. unfold telemetry_div. simpl. by rewrite He. }
  intros queue iterations ev Hev.
  destruct (telemetry_generator_conserves
              (os_use_thread_safe_queue streamer) queue iterations) as [_ Hall].
  rewrite Forall_forall in Hall. destruct (Hall ev Hev) as [Hn|Hh]; [right|by left].
  subst container. unfold telemetry_div. simpl. by rewrite Hn.
Qed.

Lemma container_matches_stream_witness :
  attr_lookup "sse_swap"
    (attrs_of (telemetry_div
                 (OTelStreamer_init sample_format_ms lower_ascii "telemetry-container"
                    "/telemetry" None true)
                 "box"))
  = Some (AStr "TelemetryEvent").
Proof.
  destruct (container_matches_stream sample_format_ms lower_ascii "telemetry-container"
              "/telemetry" None true [] "Traces" "box") as (_ & _ & _ & _ & H).
  destruct (H ["patch"] [[]] {| event := "TelemetryEvent"; data := "patch" |}) as [H1|H1].
  - simpl. left.
  - discriminate H1.
  - exact H1.
Defined.

(** ** [configure] *)

(** X14.  [configure] uses [auto_expand_patterns] only when no renderer is
    passed: with a renderer the patterns are ignored; without one the
    fallback renderer of the streamer and of its processor is a default
    renderer whose fragments start expanded exactly for root spans and for
    spans whose name, put by [str.lower], contains one of the patterns, put
    by [str.lower]; for ASCII names and patterns, exactly for root spans
    and spans whose name contains a pattern up to the case of the letters.
    The strategies in [renderers] are registered in the order given (an
    empty list is as none), and reach the processor only with the
    thread-safe queue. *)
Theorem configure_builds (format_ms : Z -> string) (str_lower : string -> string)
    (container_id endpoint : string)
    (use_thread_safe_queue : bool) :
  (forall (r : SpanRenderer) (patterns : option (list string))
          (renderers : option (list SpanRenderer)),
     configure format_ms str_lower container_id endpoint (Some r) use_thread_safe_queue
       patterns renderers
     = configure format_ms str_lower container_id endpoint (Some r) use_thread_safe_queue
         None renderers) /\
  (forall (patterns : list string) (renderers : option (list SpanRenderer))
          (span : Span) (cid : string) (is_root : bool),
     let streamer :=
       configure format_ms str_lower container_id endpoint None use_thread_safe_queue
         (Some patterns) renderers in
     os_renderer streamer = processor_renderer (os_processor streamer) /\
     exists fragment,
       render_complete_span (os_renderer streamer) span cid is_root = Ok fragment /\
       (initial_expanded fragment = Some true <->
        is_root = true \/
        exists p, p ∈ patterns /\ substring_of (str_lower p) (str_lower (name span))) /\
       (lowers_ascii str_lower -> is_ascii (name span) = true ->
        forallb is_ascii patterns = true ->
        (initial_expanded fragment = Some true <->
         is_root = true \/
         exists p, p ∈ patterns /\ contains_ignoring_case p (name span)))) /\
  (forall (renderer : option SpanRenderer) (patterns : option (list string))
          (renderers : option (list SpanRenderer)),
     let streamer :=
       configure format_ms str_lower container_id endpoint renderer use_thread_safe_queue
         patterns renderers in
     os_custom_renderers streamer = default [] renderers /\
     processor_renderers (os_processor streamer)
       = if use_thread_safe_queue then default [] renderers else []).
Proof.
  split; [done|split].
  - intros patterns renderers span cid is_root streamer.
    assert (os_renderer streamer
            = default_renderer format_ms str_lower (DefaultSpanRenderer_init "base" (Some patterns))
            /\ processor_renderer (os_processor streamer) = os_renderer streamer)
      as [Hr Hp].
    { subst streamer. unfold configure.
      set (s0 := OTelStreamer_init _ _ _ _ _ _).
      assert (os_renderer s0
              = default_renderer format_ms str_lower (DefaultSpanRenderer_init "base" (Some patterns))
              /\ processor_renderer (os_processor s0) = os_renderer s0) as [H0 H1].
      { subst s0. simpl. by destruct use_thread_safe_queue. }
      destruct renderers as [[|r rs]|]; [done| |done].
      destruct (fold_add_renderer_fields (r :: rs) s0) as (_ & _ & -> & _ & _ & ->).
      done. }
    split; [done|]. rewrite Hr. eexists. split; [reflexivity|].
    change (initial_expanded _)
      with (Some (expand_loop str_lower
                    (auto_expand_patterns
                       (DefaultSpanRenderer_init "base" (Some patterns)))
                    (name span) is_root)).
    assert (auto_expand_patterns (DefaultSpanRenderer_init "base" (Some patterns))
            = patterns) as -> by (by destruct patterns).
    split.
    + rewrite <- expand_loop_substring. split; [by intros [= ->]|by intros ->].
    + intros Hlow Hname Hpatterns.
      rewrite <- (expand_loop_ascii str_lower patterns (name span) is_root Hlow Hname
                    Hpatterns).
      split; [by intros [= ->]|by intros ->].
  - intros renderer patterns renderers streamer. subst streamer. unfold configure.
    set (s0 := OTelStreamer_init _ _ _ _ _ _).
    assert (os_custom_renderers s0 = []
            /\ processor_renderers (os_processor s0) = []) as [H0 H1].
    { subst s0. simpl. by destruct use_thread_safe_queue. }
    destruct renderers as [[|r rs]|]; simpl default;
      [by destruct use_thread_safe_queue|
      |by destruct use_thread_safe_queue].
    assert (forall (l : list SpanRenderer) (s : OTelStreamer),
              processor_renderers (os_processor s)
                = (if hasattr_renderers (os_processor s)
                   then os_custom_renderers s else []) ->
              let s' := fold_left (fun s c => add_renderer c s) l s in
              os_custom_renderers s' = os_custom_renderers s ++ l /\
              hasattr_renderers (os_processor s') = hasattr_renderers (os_processor s) /\
              processor_renderers (os_processor s')
                = (if hasattr_renderers (os_processor s)
                   then os_custom_renderers s ++ l else [])) as Hfold.
    { induction l as [|x l IH]; intros s Hs; simpl.
      - by rewrite app_nil_r.
      - destruct (IH (add_renderer x s)) as (E1 & E2 & E3).
        + unfold add_renderer. simpl. by destruct (os_processor s).
        + rewrite E1, E2, E3. unfold add_renderer. simpl.
          rewrite <- !app_assoc. by destruct (os_processor s). }
    destruct (Hfold (r :: rs) s0) as (E1 & _ & E3).
    { rewrite H0, H1. by destruct (hasattr_renderers _). }
    rewrite E1, E3, H0. subst s0. simpl. by destruct use_thread_safe_queue.
Qed.


Lemma configure_builds_witness :
  exists fragment,
    render_complete_span
      (os_renderer (configure sample_format_ms lower_ascii "telemetry-container"
                      "/telemetry" None true (Some ["tool:"]) None))
      shouting_span "span-children-5" false = Ok fragment /\
    initial_expanded fragment = Some true.
Proof.
  destruct (configure_builds sample_format_ms lower_ascii "telemetry-container"
              "/telemetry" true) as (_ & H & _).
  destruct (H ["tool:"] None shouting_span "span-children-5" false)
    as (_ & fragment & Hf & _ & Hascii).
  exists fragment. split; [exact Hf|].
  apply (Hascii (fun s _ => eq_refl) eq_refl eq_refl). right. exists "tool:".
  split; [apply list_elem_of_here|].
  exists EmptyString, "TOOL:", " ROLL A DIE". split; [reflexivity|].
  apply lower_ascii_equal. reflexivity.
Defined.
(** ** [register_attribute_renderer] *)

Lemma copy_public_cons (renderer : PyObject) (n : string) (names : list string)
    (d : gmap string PyAttr) :
  copy_public renderer (n :: names) d
  = copy_public renderer names
      (if starts_with "_" n then d
       else match getattr renderer n with
            | Some a => <[n := a]> d
            | None => d
            end).
Proof. reflexivity. Qed.

Lemma copy_public_keeps (renderer : PyObject) (names : list string)
    (d : gmap string PyAttr) (attr_name : string) (a : PyAttr) :
  getattr renderer attr_name = Some a ->
  d !! attr_name = Some a ->
  copy_public renderer names d !! attr_name = Some a.
Proof.
  intros Hg. revert d. induction names as [|n names IH]; intros d Hd; [done|].
  rewrite copy_public_cons. apply IH. destruct (starts_with "_" n); [done|].
  destruct (getattr renderer n) as [b|] eqn:Hn; [|done].
  destruct (decide (n = attr_name)) as [->|Hne].
  - rewrite lookup_insert_eq. congruence.
  - by rewrite lookup_insert_ne.
Qed.

Lemma copy_public_copies (renderer : PyObject) (names : list string)
    (d : gmap string PyAttr) (attr_name : string) (a : PyAttr) :
  attr_name ∈ names ->
  starts_with "_" attr_name = false ->
  getattr renderer attr_name = Some a ->
  copy_public renderer names d !! attr_name = Some a.
Proof.
  intros Hin Hpub Hg. revert d. induction names as [|n names IH]; intros d.
  - by apply elem_of_nil in Hin.
  - apply elem_of_cons in Hin as [<-|Hin].
    + rewrite copy_public_cons, Hpub, Hg. apply copy_public_keeps; [done|].
      apply lookup_insert_eq.
    + rewrite copy_public_cons. by apply IH.
Qed.

Lemma getattr_in_dir (obj : PyObject) (attr_name : string) (a : PyAttr) :
  getattr obj attr_name = Some a -> attr_name ∈ dir obj.
Proof.
  unfold getattr, dir. intros H. apply elem_of_elements, elem_of_union.
  destruct (instance_dict obj !! attr_name) eqn:Hi.
  - left. apply elem_of_dom. by eexists.
  - right. apply elem_of_dom. by eexists.
Qed.

Lemma attribute_renderer_getattr (attribute_key : string) (renderer : PyObject)
    (attr_name : string) (a : PyAttr) :
  starts_with "_" attr_name = false ->
  getattr renderer attr_name = Some a ->
  getattr (AttributeRenderer attribute_key renderer) attr_name = Some a.
Proof.
  intros Hpub Hg. unfold getattr at 1. simpl.
  rewrite (copy_public_copies renderer (dir renderer) ∅ attr_name a); [done| |done..].
  by eapply getattr_in_dir.
Qed.

(** X15.  The renderer that [register_attribute_renderer] registers does
    not filter on [attribute_key]: the constructor copies every public
    attribute of the wrapped renderer, [can_render] included, into the new
    object, where it hides the [can_render] of the class.  The registered
    strategy answers [can_render] and the four render calls exactly as the
    wrapped renderer does, for every key; wrapped around a
    [DefaultSpanRenderer] it accepts every span, with or without the
    attribute. *)
Theorem attribute_renderer_ignores_key (attribute_key : string) (renderer : PyObject) :
  (forall (attr_name : string) (a : PyAttr),
     starts_with "_" attr_name = false ->
     getattr renderer attr_name = Some a ->
     getattr (AttributeRenderer attribute_key renderer) attr_name = Some a) /\
  (is_Some (getattr renderer "can_render") ->
   can_render (as_renderer (AttributeRenderer attribute_key renderer))
     = can_render (as_renderer renderer)) /\
  (is_Some (getattr renderer "render_header") ->
   is_Some (getattr renderer "render_attributes") ->
   is_Some (getattr renderer "render_events") ->
   is_Some (getattr renderer "render_complete_span") ->
   render_header (as_renderer (AttributeRenderer attribute_key renderer))
     = render_header (as_renderer renderer) /\
   render_attributes (as_renderer (AttributeRenderer attribute_key renderer))
     = render_attributes (as_renderer renderer) /\
   render_events (as_renderer (AttributeRenderer attribute_key renderer))
     = render_events (as_renderer renderer) /\
   render_complete_span (as_renderer (AttributeRenderer attribute_key renderer))
     = render_complete_span (as_renderer renderer)) /\
  (forall (format_ms : Z -> string) (str_lower : string -> string)
          (self : DefaultSpanRenderer) (span : Span),
     can_render
       (as_renderer (AttributeRenderer attribute_key (default_renderer_object format_ms str_lower self)))
       span = Ok true).
Proof.
  split; [|split; [|split]].
  - intros attr_name a. apply attribute_renderer_getattr.
  - intros [a Ha]. simpl. unfold call_can_render.
    by rewrite (attribute_renderer_getattr attribute_key renderer "can_render" a), Ha.
  - intros [a1 H1] [a2 H2] [a3 H3] [a4 H4]. simpl.
    unfold call_render, call_render_complete.
    rewrite (attribute_renderer_getattr attribute_key renderer "render_header" a1),
      (attribute_renderer_getattr attribute_key renderer "render_attributes" a2),
      (attribute_renderer_getattr attribute_key renderer "render_events" a3),
      (attribute_renderer_getattr attribute_key renderer "render_complete_span" a4)
      by done.
    by rewrite H1, H2, H3, H4.
  - intros format_ms str_lower self span. simpl. unfold call_can_render.
    by rewrite (attribute_renderer_getattr attribute_key
                  (default_renderer_object format_ms str_lower self) "can_render"
                  (CanRender (fun _ => Ok true))).
Qed.

Lemma attribute_renderer_ignores_key_witness :
  can_render
    (as_renderer (AttributeRenderer "gen_ai.operation.name"
                    (default_renderer_object sample_format_ms lower_ascii
                       (DefaultSpanRenderer_init "base" None))))
  = can_render (as_renderer (default_renderer_object sample_format_ms lower_ascii
                               (DefaultSpanRenderer_init "base" None))).
Proof.
  destruct (attribute_renderer_ignores_key "gen_ai.operation.name"
              (default_renderer_object sample_format_ms lower_ascii
                 (DefaultSpanRenderer_init "base" None))) as (_ & H & _).
  apply H. eexists. reflexivity.
Defined.

(** ** [_header_exists] *)

Lemma string_app_empty_r (s : string) : s +:+ EmptyString = s.
Proof. induction s as [|c s IH]; [done|]. by rewrite string_app_cons, IH. Qed.

(** X16.  [_header_exists] answers [True] exactly when the text of some
    existing header occurs in the text of the header or the text of the
    header occurs in that of some existing header.  So it is [True] for a
    header already in the list, [False] for an empty list, and [True] for
    every header as soon as one existing header has an empty text. *)
Theorem header_exists_spec (header_str : string) (existing_headers : list string) :
  (header_exists header_str existing_headers = true <->
   exists existing, existing ∈ existing_headers /\
     (substring_of existing header_str \/ substring_of header_str existing)) /\
  (header_str ∈ existing_headers -> header_exists header_str existing_headers = true) /\
  header_exists header_str [] = false /\
  (EmptyString ∈ existing_headers -> header_exists header_str existing_headers = true).
Proof.
  assert (header_exists header_str existing_headers = true <->
          exists existing, existing ∈ existing_headers /\
            (substring_of existing header_str \/ substring_of header_str existing)) as Hspec.
  { unfold header_exists. rewrite existsb_exists. split.
    - intros (e & Hin & He). exists e. split; [by apply list_elem_of_In|].
      apply orb_true_iff in He as [He|He]; apply str_in_spec in He; auto.
    - intros (e & Hin & He). exists e. split; [by apply list_elem_of_In|].
      apply orb_true_iff. destruct He as [He|He]; apply str_in_spec in He; auto. }
  split; [done|]. split; [|split; [done|]].
  - intros Hin. apply Hspec. exists header_str. split; [done|].
    left. by exists EmptyString, EmptyString; rewrite string_app_nil, string_app_empty_r.
  - intros Hin. apply Hspec. exists EmptyString. split; [done|].
    left. by exists EmptyString, header_str.
Qed.

Lemma header_exists_spec_witness :
  header_exists "<script src='a.js'></script>"
    ["<link href='x.css'>"; "<script src='a.js'></script>"] = true.
Proof.
  destruct (header_exists_spec "<script src='a.js'></script>"
              ["<link href='x.css'>"; "<script src='a.js'></script>"]) as (_ & H & _).
  apply H. set_solver.
Defined.

(** ** [auto_instrument] *)

Ltac use_IH IH sk :=
  match goal with
  | |- context [instrument_each ?env ?libs ?a ?b ?c] => destruct (IH a b c) as (sk & ->)
  end.

Lemma errors_only_spec (env : Installation) (lib : Library) (e : PyExc) :
  errors_only env = true -> env lib = Some (Raise e) -> exc_is_exception e = true.
Proof.
  unfold errors_only, all_libraries. cbn [forallb]. rewrite !andb_true_iff.
  intros (H1 & H2 & H3 & H4 & H5 & _) He. destruct lib; by rewrite He in *.
Qed.

Lemma instrument_each_run (env : Installation) (libs : list Library)
    (instrumented skipped : list string) (w : World (list Library)) :
  errors_only env = true ->
  exists skipped',
    instrument_each env libs instrumented skipped w =
      (Ok (instrumented ++ (library_name <$> filter (fun l => instrumentable env l = true) libs),
           skipped'),
       with_log (concat (instrument_warning env <$> libs))
         (with_proc (fun done => done ++ filter (fun l => instrumentable env l = true) libs) w)).
Proof.
  intros Herr. revert instrumented skipped w.
  induction libs as [|lib libs IH]; intros instrumented skipped w.
  - exists skipped. simpl. unfold ret. rewrite app_nil_r.
    destruct w as [p l lr s out]. unfold with_log, with_proc. simpl. by rewrite !app_nil_r.
  - simpl instrument_each. rewrite fmap_cons. cbn [concat].
    unfold bind at 1, try_except.
    destruct (env lib) as [[[]|e]|] eqn:Hlib.
    + assert (instrumentable env lib = true) as Hi
        by (unfold instrumentable; by rewrite Hlib).
      rewrite filter_cons_True by exact Hi. rewrite fmap_cons.
      unfold instrument, instrument_warning at 1. rewrite Hlib. simpl.
      use_IH IH sk.
      exists sk. rewrite <- app_assoc. destruct w as [p l lr s out].
      unfold with_log, with_proc. simpl. by rewrite <- app_assoc.
    + assert (~ instrumentable env lib = true) as Hi
        by (unfold instrumentable; by rewrite Hlib).
      rewrite filter_cons_False by exact Hi.
      unfold instrument, instrument_warning at 1. rewrite Hlib. simpl.
      rewrite (errors_only_spec env lib e Herr Hlib).
      destruct (is_import_error e); simpl.
      * use_IH IH sk.
        by exists sk.
      * use_IH IH sk.
        exists sk. destruct w as [p l lr s out].
        unfold with_log, with_proc. simpl. by rewrite <- app_assoc.
    + assert (~ instrumentable env lib = true) as Hi
        by (unfold instrumentable; by rewrite Hlib).
      rewrite filter_cons_False by exact Hi.
      unfold instrument, instrument_warning at 1. rewrite Hlib. simpl.
      use_IH IH sk.
      by exists sk.
Qed.

(** X17.  [auto_instrument] never raises and tries all five libraries in
    order, whatever errors (instances of [Exception]) the earlier ones
    meet: exactly the libraries whose import and [instrument] call succeed
    are instrumented; a missing library is skipped without a word; an
    [instrument] call that raises any other error is logged as a warning;
    and one info record names the instrumented libraries, comma separated,
    when there is at least one. *)
Theorem auto_instrument_tries_all (env : Installation) (w : World (list Library)) :
  errors_only env = true ->
  let succeeded := filter (fun l => instrumentable env l = true) all_libraries in
  fst (auto_instrument env w) = Ok tt /\
  proc (snd (auto_instrument env w)) = proc w ++ succeeded /\
  log (snd (auto_instrument env w)) =
    log w ++ concat (instrument_warning env <$> all_libraries)
          ++ instrumented_info (library_name <$> succeeded).
Proof.
  intros Herr succeeded. unfold auto_instrument, bind.
  destruct (instrument_each_run env all_libraries [] [] w Herr) as (sk & Hrun).
  change [PydanticAI; HTTPX; Requests; SQLite3; Asyncio] with all_libraries.
  rewrite Hrun. cbn [fst snd]. rewrite app_nil_l. fold succeeded.
  destruct (library_name <$> succeeded) as [|n ns] eqn:Hn; simpl.
  - by rewrite !app_nil_r.
  - unfold emit_log. simpl. by rewrite <- app_assoc.
Qed.

Lemma auto_instrument_tries_all_witness :
  let w := mkWorld [] [] false false sample_stdout in
  fst (auto_instrument sample_installation w) = Ok tt /\
  proc (snd (auto_instrument sample_installation w)) = [HTTPX; SQLite3] /\
  log (snd (auto_instrument sample_installation w)) =
    [mkLog LWarning "Failed to instrument requests: already instrumented";
     mkLog LInfo "Auto-instrumented: httpx, sqlite3"].
Proof.
  exact (auto_instrument_tries_all sample_installation
           (mkWorld [] [] false false sample_stdout) eq_refl).
Defined.

(** ** The example renderers *)

Lemma option_is_has_key (k v : string) (attrs : list (string * string)) :
  option_is (attr_get k attrs) v = true -> has_key k attrs = true.
Proof.
  unfold option_is, attr_get, has_key.
  destruct (find _ attrs) as [kv|] eqn:Hf; [|done]. intros _.
  apply find_some in Hf as [Hin Hk]. apply existsb_exists. by exists kv.
Qed.

(** X18.  [MathRenderer._should_render_span] holds only for spans that
    [MathRenderer.can_render] accepts; the converse fails (a span named
    "Math: x" without attributes is accepted, yet [_should_render_span] is
    false for it).  Every span that [AISpanRenderer] accepts is accepted by
    [MathRenderer] too, so a strategy with the check of [AISpanRenderer]
    registered after one with the check of [MathRenderer] is never
    selected: removing it changes no selection. *)
Theorem math_renderer_accepts_what_it_renders :
  (forall span, math_should_render_span span = true -> math_can_render span = true) /\
  (exists span, math_can_render span = true /\ math_should_render_span span = false) /\
  (forall span, ai_can_render span = true -> math_can_render span = true) /\
  (forall (math ai fallback : SpanRenderer) (between after : list SpanRenderer) (span : Span),
     can_render math span = Ok (math_can_render span) ->
     can_render ai span = Ok (ai_can_render span) ->
     select_renderer (math :: between ++ ai :: after) fallback span
       = select_renderer (math :: between ++ after) fallback span).
Proof.
  split; [|split; [|split]].
  - intros span. unfold math_should_render_span, math_can_render.
    destruct (String.eqb (name span) "Math Problem Solving Session") eqn:E1;
      [intros _; by rewrite !orb_true_r|].
    destruct (option_is (attr_get "math.step_type" (attributes span)) "reasoning"
              && has_key "math.reasoning" (attributes span)) eqn:E2.
    { apply andb_true_iff in E2 as [E2 _]. apply option_is_has_key in E2.
      by rewrite E2. }
    destruct (has_key "math.operation" (attributes span)) eqn:E3;
      [intros _; by rewrite !orb_true_r|].
    destruct (option_is (attr_get "math.step_type" (attributes span)) "problem_analysis")
      eqn:E4.
    { apply option_is_has_key in E4. by rewrite E4. }
    destruct (option_is (attr_get "math.step_type" (attributes span)) "conclusion") eqn:E5.
    { apply option_is_has_key in E5. by rewrite E5. }
    destruct (has_key "gen_ai.operation.name" (attributes span)) eqn:E6;
      [intros _; by rewrite !orb_true_r|].
    destruct (str_in "AI Mathematical Reasoning" (name span)) eqn:E7;
      [intros _; by rewrite !orb_true_r|].
    destruct (has_key "model" (attributes span)) eqn:E8;
      [intros _; by rewrite !orb_true_r|].
    done.
  - exists (mkSpan "Math: x" (mkSpanContext 7 9) None None None UNSET [] []).
    by vm_compute.
  - intros span. unfold ai_can_render, math_can_render. intros ->.
    by rewrite !orb_true_r.
  - intros math ai fallback between after span Hm Ha.
    unfold select_renderer. simpl. unfold accepts at 1 3. rewrite Hm.
    destruct (math_can_render span) eqn:Hmc; [done|].
    assert (accepts span ai = false) as Hai.
    { unfold accepts. rewrite Ha. destruct (ai_can_render span) eqn:Hac; [|done].
      pose proof Hmc as Hmc'. unfold ai_can_render in Hac.
      unfold math_can_render in Hmc'. rewrite Hac in Hmc'.
      by rewrite !orb_true_r in Hmc'. }
    induction between as [|b between IH]; simpl.
    + by rewrite Hai.
    + by destruct (accepts span b).
Qed.

Lemma math_renderer_accepts_what_it_renders_witness :
  math_can_render
    (mkSpan "step" (mkSpanContext 7 9) None None None UNSET
            [("math.step_type", "conclusion")] []) = true.
Proof.
  destruct math_renderer_accepts_what_it_renders as (H & _).
  apply H. reflexivity.
Defined.

(** ** The callbacks never read the tracker *)

Lemma ts_after_put_alike (d : string) (w1 w2 : World ThreadSafeSpanProcessor) :
  ts_alike w1 w2 -> ts_alike (ts_after_put d w1) (ts_after_put d w2).
Proof.
  destruct w1 as [p1 l1 lr1 s1 out1], w2 as [p2 l2 lr2 s2 out2].
  unfold ts_alike, ts_after_put. simpl.
  intros (Hq & Hr & Hc & Hrs & -> & -> & ->). rewrite Hq.
  destruct (ts_queue p2) as [q|maxsize items|r] eqn:Hq2; simpl.
  - destruct lr2; simpl; rewrite ?Hq, ?Hq2; done.
  - destruct (queue_full maxsize items); simpl; rewrite ?Hq, ?Hq2; done.
  - simpl. rewrite ?Hq, ?Hq2. done.
Qed.

Lemma fh_after_put_alike (d : string) (w1 w2 : World FastHTMLSpanProcessor) :
  fh_alike w1 w2 -> fh_alike (fh_after_put d w1) (fh_after_put d w2).
Proof.
  destruct w1 as [p1 l1 lr1 s1 out1], w2 as [p2 l2 lr2 s2 out2].
  unfold fh_alike, fh_after_put. simpl.
  intros (Hq & Hr & Hc & -> & ->). destruct lr2; simpl; rewrite ?Hq; done.
Qed.

Lemma with_log_ts_alike (l : list LogRecord) (w1 w2 : World ThreadSafeSpanProcessor) :
  ts_alike w1 w2 -> ts_alike (with_log l w1) (with_log l w2).
Proof. unfold ts_alike. simpl. intros (? & ? & ? & ? & -> & ? & ?). done. Qed.

Lemma with_log_fh_alike (l : list LogRecord) (w1 w2 : World FastHTMLSpanProcessor) :
  fh_alike w1 w2 -> fh_alike (with_log l w1) (with_log l w2).
Proof. unfold fh_alike. simpl. intros (? & ? & ? & -> & ?). done. Qed.

Lemma ts_tracked_alike (span : Span) (pc : option Context)
    (w1 w2 : World ThreadSafeSpanProcessor) :
  ts_alike w1 w2 -> ts_alike (ts_tracked span pc w1) (ts_tracked span pc w2).
Proof. unfold ts_alike, ts_tracked. by destruct (resolved_parent span pc). Qed.

Lemma fh_tracked_alike (span : Span) (pc : option Context)
    (w1 w2 : World FastHTMLSpanProcessor) :
  fh_alike w1 w2 -> fh_alike (fh_tracked span pc w1) (fh_tracked span pc w2).
Proof. unfold fh_alike, fh_tracked. by destruct (resolved_parent span pc). Qed.

Lemma except_logged_ts_alike (e : PyExc) (l : list LogRecord)
    (w1 w2 : World ThreadSafeSpanProcessor) :
  ts_alike w1 w2 ->
  ts_alike (snd (except_exception e (logged l) w1)) (snd (except_exception e (logged l) w2)).
Proof.
  intros H. unfold except_exception, logged, raise.
  destruct (exc_is_exception e); cbn [snd]; [by apply with_log_ts_alike|done].
Qed.

Lemma except_start_ts_alike (e : PyExc) (w1 w2 : World ThreadSafeSpanProcessor) :
  ts_alike w1 w2 ->
  ts_alike (snd (except_exception e (ts_start_handler e) w1))
           (snd (except_exception e (ts_start_handler e) w2)).
Proof.
  intros H. unfold except_exception, ts_start_handler, raise.
  destruct (exc_is_exception e); cbn [snd]; [by apply with_log_ts_alike|done].
Qed.

Lemma except_logged_fh_alike (e : PyExc) (l : list LogRecord)
    (w1 w2 : World FastHTMLSpanProcessor) :
  fh_alike w1 w2 ->
  fh_alike (snd (except_exception e (logged l) w1)) (snd (except_exception e (logged l) w2)).
Proof.
  intros H. unfold except_exception, logged, raise.
  destruct (exc_is_exception e); cbn [snd]; [by apply with_log_fh_alike|done].
Qed.

Lemma ts_callback_alike (to_xml : FT -> string) (c : Callback)
    (w1 w2 : World ThreadSafeSpanProcessor) :
  ts_alike w1 w2 ->
  ts_alike (snd (ts_callback to_xml c w1)) (snd (ts_callback to_xml c w2)).
Proof.
  intros H. pose proof H as (Hq & Hr & Hc & Hrs & Hl & Hlr & Hout).
  destruct c as [span pc|span]; simpl;
    assert (ts_alike (with_proc (ts_set_span (span_id (context span)) span) w1)
                     (with_proc (ts_set_span (span_id (context span)) span) w2))
      as H0 by done.
  - rewrite !ts_on_start_handle, !handle_start_run. cbv zeta. unfold print_line.
    rewrite Hr, Hrs, Hc, Hout.
    destruct (stdout w2 (start_message span)); [|by apply except_start_ts_alike].
    destruct (match resolution_message span pc with
              | Some text => stdout w2 text
              | None => Ok tt
              end); [|by apply except_start_ts_alike, ts_tracked_alike].
    destruct (stdout w2 (target_message span _));
      [|by apply except_start_ts_alike, ts_tracked_alike].
    destruct (check_interrupt _ _); cbn [snd];
      [by apply with_log_ts_alike, ts_tracked_alike|].
    destruct (render_complete_span _ _ _ _); cbn [snd].
    + by apply ts_after_put_alike, with_log_ts_alike, ts_tracked_alike.
    + by apply except_start_ts_alike, with_log_ts_alike, ts_tracked_alike.
  - rewrite !ts_on_end_handle, !handle_end_run. cbv zeta. rewrite Hr, Hrs.
    destruct (check_interrupt _ _); cbn [snd]; [by apply with_log_ts_alike|].
    destruct (render_header _ _); cbn [snd];
      [|by apply except_logged_ts_alike, with_log_ts_alike].
    destruct (render_attributes _ _); cbn [snd];
      [|by apply except_logged_ts_alike, ts_after_put_alike, with_log_ts_alike].
    destruct (render_events _ _); cbn [snd].
    + by apply ts_after_put_alike, ts_after_put_alike, ts_after_put_alike,
        with_log_ts_alike.
    + by apply except_logged_ts_alike, ts_after_put_alike, ts_after_put_alike,
        with_log_ts_alike.
Qed.

Lemma fh_callback_alike (to_xml : FT -> string) (c : Callback)
    (w1 w2 : World FastHTMLSpanProcessor) :
  fh_alike w1 w2 ->
  fh_alike (snd (fh_callback to_xml c w1)) (snd (fh_callback to_xml c w2)).
Proof.
  intros H. pose proof H as (Hq & Hr & Hc & Hl & Hlr).
  destruct c as [span pc|span]; simpl.
  - rewrite !fh_on_start_run. cbv zeta. rewrite Hr, Hc.
    destruct (render_complete_span _ _ _ _); cbn [snd].
    + by apply fh_after_put_alike, fh_tracked_alike.
    + by apply except_logged_fh_alike, fh_tracked_alike.
  - rewrite !fh_on_end_run. cbv zeta. rewrite Hr.
    assert (fh_alike (with_proc (fh_set_span (span_id (context span)) span) w1)
                     (with_proc (fh_set_span (span_id (context span)) span) w2)) as H0
      by done.
    destruct (render_header _ _); cbn [snd]; [|by apply except_logged_fh_alike].
    destruct (render_attributes _ _); cbn [snd]; [|by apply except_logged_fh_alike].
    destruct (render_events _ _); cbn [snd]; [|by apply except_logged_fh_alike].
    by apply fh_after_put_alike, fh_after_put_alike, fh_after_put_alike.
Qed.

(** X19.  The callbacks write the tracker and never read it: started from
    any other contents of [spans] and [parent_child_map], the same
    sequence of callbacks puts the same patches on the queue and logs the
    same records.  Where a patch goes depends on the span and the context
    of its start callback alone.  For both processors. *)
Theorem callbacks_never_read_tracker (to_xml : FT -> string) (cs : list Callback)
    (spans : gmap Z Span) (parents : gmap Z Z) :
  (forall w : World ThreadSafeSpanProcessor,
     let w1 := run_callbacks (ts_callback to_xml) cs w in
     let w2 := run_callbacks (ts_callback to_xml) cs
                 (with_proc (ts_set_tracker spans parents) w) in
     ts_queue (proc w2) = ts_queue (proc w1) /\ log w2 = log w1) /\
  (forall w : World FastHTMLSpanProcessor,
     let w1 := run_callbacks (fh_callback to_xml) cs w in
     let w2 := run_callbacks (fh_callback to_xml) cs
                 (with_proc (fh_set_tracker spans parents) w) in
     fh_queue (proc w2) = fh_queue (proc w1) /\ log w2 = log w1).
Proof.
  split.
  - intros w w1 w2.
    assert (forall wa wb, ts_alike wa wb ->
              ts_alike (run_callbacks (ts_callback to_xml) cs wa)
                       (run_callbacks (ts_callback to_xml) cs wb)) as Hrun.
    { induction cs as [|c cs IH]; intros wa wb Hab; simpl; [done|].
      by apply IH, ts_callback_alike. }
    destruct (Hrun (with_proc (ts_set_tracker spans parents) w) w)
      as (? & _ & _ & _ & ? & _); done.
  - intros w w1 w2.
    assert (forall wa wb, fh_alike wa wb ->
              fh_alike (run_callbacks (fh_callback to_xml) cs wa)
                       (run_callbacks (fh_callback to_xml) cs wb)) as Hrun.
    { induction cs as [|c cs IH]; intros wa wb Hab; simpl; [done|].
      by apply IH, fh_callback_alike. }
    destruct (Hrun (with_proc (fh_set_tracker spans parents) w) w) as (? & _ & _ & ? & _);
      done.
Qed.

(** ** The two processors side by side *)

Lemma match_log_ts (l : list LogRecord) (wt : World ThreadSafeSpanProcessor)
    (wf : World FastHTMLSpanProcessor) :
  processors_match wt wf -> processors_match (with_log l wt) wf.
Proof. done. Qed.

Lemma match_log_fh (l : list LogRecord) (wt : World ThreadSafeSpanProcessor)
    (wf : World FastHTMLSpanProcessor) :
  processors_match wt wf -> processors_match wt (with_log l wf).
Proof. done. Qed.

Lemma match_set_span (k : Z) (span : Span) (wt : World ThreadSafeSpanProcessor)
    (wf : World FastHTMLSpanProcessor) :
  processors_match wt wf ->
  processors_match (with_proc (ts_set_span k span) wt) (with_proc (fh_set_span k span) wf).
Proof.
  unfold processors_match. simpl. intros (? & ? & ? & ? & -> & ? & ?). done.
Qed.

Lemma match_tracked (span : Span) (pc : option Context) (wt : World ThreadSafeSpanProcessor)
    (wf : World FastHTMLSpanProcessor) :
  processors_match wt wf ->
  processors_match (ts_tracked span pc wt) (fh_tracked span pc wf).
Proof.
  unfold processors_match, ts_tracked, fh_tracked.
  intros (? & ? & ? & ? & Hs & Hp & ?).
  destruct (resolved_parent span pc); simpl; rewrite Hs, ?Hp; done.
Qed.

Lemma match_after_put (d : string) (wt : World ThreadSafeSpanProcessor)
    (wf : World FastHTMLSpanProcessor) :
  processors_match wt wf ->
  processors_match (ts_after_put d wt) (fh_after_put d wf).
Proof.
  unfold processors_match, ts_after_put, fh_after_put.
  intros (Hq & ? & ? & ? & ? & ? & Hl). rewrite Hq, Hl.
  destruct (loop_running wf) eqn:Hlf; simpl; rewrite ?Hq, ?Hlf; simpl; done.
Qed.

Lemma callback_match (to_xml : FT -> string) (c : Callback)
    (wt : World ThreadSafeSpanProcessor) (wf : World FastHTMLSpanProcessor) :
  processors_match wt wf ->
  prints_return wt ->
  always_renders (fh_renderer (proc wf)) ->
  processors_match (snd (ts_callback to_xml c wt)) (snd (fh_callback to_xml c wf)).
Proof.
  intros H Hout Hren. pose proof H as (Hq & Hrs & Hr & Hc & _).
  destruct c as [span pc|span]; simpl.
  - rewrite ts_on_start_handle, (handle_start_prints _ _ _ _ Hout), fh_on_start_run.
    cbv zeta.
    rewrite Hrs, Hr, Hc. unfold select_renderer. simpl find.
    cbn [check_warnings check_interrupt].
    destruct (render_complete_span _ _ _ _) as [html|e]; cbn [snd].
    + by apply match_after_put, match_log_ts, match_tracked.
    + unfold except_exception, logged, raise. destruct (exc_is_exception e); cbn [snd].
      * by apply match_log_ts, match_log_ts, match_log_fh, match_tracked.
      * by apply match_log_ts, match_tracked.
  - rewrite ts_on_end_handle, handle_end_run, fh_on_end_run. cbv zeta.
    rewrite Hrs, Hr. unfold select_renderer. simpl find.
    cbn [check_warnings check_interrupt].
    destruct (Hren span EmptyString true) as (Hh & Ha & He & _).
    destruct (render_header _ _); [|done].
    destruct (render_attributes _ _); [|done].
    destruct (render_events _ _); [|done]. cbn [snd].
    by apply match_after_put, match_after_put, match_after_put, match_log_ts, match_set_span.
Qed.

(** X20.  On an asyncio queue and without registered strategies the two
    processors are interchangeable: started with the same queue (items and
    [put] tasks), renderer, container id and tracker, in the same event
    loop state, with a renderer whose render calls return and debug prints
    that succeed, any sequence of callbacks leaves them with the same
    queue, items and [put] tasks in the same order, and the same tracker.
    (Their log records differ in wording only.) *)
Theorem processors_agree_on_asyncio_queue (to_xml : FT -> string) (cs : list Callback)
    (wt : World ThreadSafeSpanProcessor) (wf : World FastHTMLSpanProcessor) :
  processors_match wt wf ->
  prints_return wt ->
  always_renders (fh_renderer (proc wf)) ->
  let wt' := run_callbacks (ts_callback to_xml) cs wt in
  let wf' := run_callbacks (fh_callback to_xml) cs wf in
  ts_queue (proc wt') = AsyncioQueue (fh_queue (proc wf')) /\
  ts_spans (proc wt') = fh_spans (proc wf') /\
  ts_parent_child_map (proc wt') = fh_parent_child_map (proc wf').
Proof.
  intros Hm Hout Hren.
  assert (processors_match (run_callbacks (ts_callback to_xml) cs wt)
                           (run_callbacks (fh_callback to_xml) cs wf)) as H.
  { revert wt wf Hm Hout Hren.
    induction cs as [|c cs IH]; intros wt wf Hm Hout Hren; simpl; [done|].
    apply IH; [by apply callback_match| |].
    - destruct (ts_reach_invariants _ _ (ts_callback_reach to_xml c wt)) as (Hcfg & _).
      unfold ts_config in Hcfg. injection Hcfg as _ _ _ _ _ Hout'.
      intros text. by rewrite Hout'.
    - destruct (fh_reach_invariants _ _ (fh_callback_reach to_xml c wf)) as (Hcfg & _).
      unfold fh_config in Hcfg. injection Hcfg as -> _ _ _ _ _. done. }
  destruct H as (? & _ & _ & _ & ? & ? & _). done.
Qed.

Lemma processors_agree_on_asyncio_queue_witness :
  ts_queue (proc (run_callbacks (ts_callback sample_to_xml)
                    [OnStart root_span None; OnStart child_span context_of_root;
                     OnEnd child_span; OnEnd root_span]
                    (mkWorld (ThreadSafeSpanProcessor_init sample_format_ms lower_ascii
                                (AsyncioQueue (asyncio_Queue 0)) None "telemetry-container")
                             [] true false sample_stdout)))
  = AsyncioQueue
      (fh_queue (proc (run_callbacks (fh_callback sample_to_xml)
                         [OnStart root_span None; OnStart child_span context_of_root;
                          OnEnd child_span; OnEnd root_span]
                         (cooperative_world true)))).
Proof.
  apply (processors_agree_on_asyncio_queue sample_to_xml
           [OnStart root_span None; OnStart child_span context_of_root;
            OnEnd child_span; OnEnd root_span]
           (mkWorld (ThreadSafeSpanProcessor_init sample_format_ms lower_ascii
                       (AsyncioQueue (asyncio_Queue 0)) None "telemetry-container")
                    [] true false sample_stdout)
           (cooperative_world true)).
  - repeat split.
  - by intros text.
  - intros span cid is_root. repeat split.
Defined.
